(** * A copy-on-write B+Tree over fixed-size pages (go-db)

    Shallow embedding of the B+Tree of the go-db package: the page codec
    (header, pointer array, offset array, packed key/value region), the node
    algorithms (lookup, range append, split, merge) and the tree
    orchestrator (insert, delete) over the in-memory page manager of the
    test harness.  The handlers [deleteMovie] and [updateMovie] of the movies
    service of the same file are modelled after the tree.

    Conventions.
    - A [uint16] is a [Z] reduced by [wrap16] after every arithmetic
      operation; a page id ([uint64]) is a [Z], stored in eight bytes.
    - A Go slice is a backing array together with its length: [bytes] holds
      the array from the first byte of the slice up to its capacity, [blen]
      is [len].  Slice expressions and indexing check the bounds Go checks.
    - A run-time panic (failed [assert], slice or index out of range,
      ["bad node!"]) is the result [Panic]; the recursive descent through
      the page manager is driven by a fuel argument and yields [Timeout]
      when it runs out. *)

From Stdlib Require Import ZArith List Lia Bool.
From Stdlib Require Import Strings.Byte Strings.String.
From stdpp Require Import gmap.
Import ListNotations.
Local Open Scope Z_scope.

(** ** Results of Go computations *)

Inductive result (A : Type) : Type :=
| Ok (a : A)
| Panic
| Timeout.
Arguments Ok {A} a.
Arguments Panic {A}.
Arguments Timeout {A}.

Definition bind {A B} (r : result A) (k : A -> result B) : result B :=
  match r with
  | Ok a => k a
  | Panic => Panic
  | Timeout => Timeout
  end.

Notation "'do' x <- e ; k" := (bind e (fun x => k))
  (at level 10, x pattern, e at level 100, k at level 200).
Notation "'do_' e ; k" := (bind e (fun _ => k))
  (at level 10, e at level 100, k at level 200).

Definition assert (condition : bool) : result unit :=
  if condition then Ok tt else Panic.

(** ** Machine integers and bytes *)

Definition wrap16 (z : Z) : Z := z mod 65536.

Definition Z_of_byte (b : byte) : Z := Z.of_N (Byte.to_N b).

Definition byte_of_Z (z : Z) : byte :=
  match Byte.of_N (Z.to_N (z mod 256)) with
  | Some b => b
  | None => x00
  end.

(** [binary.LittleEndian]: least significant byte first. *)
Fixpoint le_decode (bs : list byte) : Z :=
  match bs with
  | [] => 0
  | b :: bs' => Z_of_byte b + 256 * le_decode bs'
  end.

Fixpoint le_encode (width : nat) (v : Z) : list byte :=
  match width with
  | O => []
  | S w => byte_of_Z v :: le_encode w (v / 256)
  end.

(** [bytes.Compare]: lexicographic order on unsigned bytes. *)
Fixpoint bytes_compare (a b : list byte) : comparison :=
  match a, b with
  | [], [] => Eq
  | [], _ :: _ => Lt
  | _ :: _, [] => Gt
  | x :: a', y :: b' =>
      match Z.compare (Z_of_byte x) (Z_of_byte y) with
      | Eq => bytes_compare a' b'
      | c => c
      end
  end.

(** [bytes.Equal]. *)
Definition bytes_equal (a b : list byte) : bool :=
  match bytes_compare a b with Eq => true | _ => false end.

Definition cmp_le0 (c : comparison) : bool :=
  match c with Gt => false | _ => true end.
Definition cmp_ge0 (c : comparison) : bool :=
  match c with Lt => false | _ => true end.

(** ** Slices *)

Record BNode : Type := mkBNode {
  bytes : list byte;   (* backing array, from the slice start to its capacity *)
  blen : Z             (* len(node) *)
}.

Definition bcap (node : BNode) : Z := Z.of_nat (length (bytes node)).

(** [make([]byte, n)] *)
Definition make (n : Z) : BNode := mkBNode (repeat x00 (Z.to_nat n)) n.

(** [BNode{}] and the zero value of a slice. *)
Definition nil_node : BNode := mkBNode [] 0.

(** The bytes [lo, hi) of a backing array. *)
Definition sub (bs : list byte) (lo hi : Z) : list byte :=
  firstn (Z.to_nat (hi - lo)) (skipn (Z.to_nat lo) bs).

(** Overwrite the array from [pos] with [src]; the caller has checked that
    [src] fits. *)
Definition write (bs : list byte) (pos : Z) (src : list byte) : list byte :=
  firstn (Z.to_nat pos) bs ++ src ++ skipn (Z.to_nat pos + length src) bs.

(** [node[lo:hi]] as a read: Go requires [lo <= hi <= cap(node)]. *)
Definition slice (node : BNode) (lo hi : Z) : result (list byte) :=
  do_ assert ((lo <=? hi) && (hi <=? bcap node));
  Ok (sub (bytes node) lo hi).

(** [binary.LittleEndian.Uint16(node[pos:])]: [pos <= len(node)] for the
    slice expression, two bytes left for the read. *)
Definition get16 (node : BNode) (pos : Z) : result Z :=
  do_ assert (pos + 2 <=? blen node);
  Ok (le_decode (sub (bytes node) pos (pos + 2))).

(** [binary.LittleEndian.PutUint16(node[pos:], v)] *)
Definition put16 (node : BNode) (pos : Z) (v : Z) : result BNode :=
  do_ assert (pos + 2 <=? blen node);
  Ok (mkBNode (write (bytes node) pos (le_encode 2 v)) (blen node)).

(** [copy(node[pos:], src)]: the slice expression needs [pos <= len(node)];
    [copy] moves [min(len(node) - pos, len(src))] bytes. *)
Definition copy_at (node : BNode) (pos : Z) (src : list byte) : result BNode :=
  do_ assert (pos <=? blen node);
  Ok (mkBNode (write (bytes node) pos (firstn (Z.to_nat (blen node - pos)) src))
              (blen node)).

(** ** Page codec *)

Definition HEADER : Z := 4.
Definition BTREE_PAGE_SIZE : Z := 4096.
Definition BTREE_MAX_KEY_SIZE : Z := 1000.
Definition BTREE_MAX_VAL_SIZE : Z := 3000.

Definition BNODE_NODE : Z := 1.
Definition BNODE_LEAF : Z := 2.

(** The check of [init]. *)
Definition node1max : Z :=
  HEADER + 8 + 2 + 4 + BTREE_MAX_KEY_SIZE + BTREE_MAX_VAL_SIZE.
Definition init : result unit := assert (node1max <=? BTREE_PAGE_SIZE).

Definition btype (node : BNode) : result Z :=
  do bs <- slice node 0 2; Ok (le_decode bs).

Definition nkeys (node : BNode) : result Z :=
  do bs <- slice node 2 4; Ok (le_decode bs).

Definition setHeader (node : BNode) (btype nkeys : Z) : result BNode :=
  do_ assert (2 <=? bcap node);
  let node1 := mkBNode (write (bytes node) 0 (le_encode 2 btype)) (blen node) in
  do_ assert (4 <=? bcap node1);
  Ok (mkBNode (write (bytes node1) 2 (le_encode 2 nkeys)) (blen node1)).

Definition getPtr (node : BNode) (idx : Z) : result Z :=
  do n <- nkeys node;
  do_ assert (idx <? n);
  let pos := wrap16 (HEADER + 8 * idx) in
  do bs <- slice node pos (wrap16 (pos + 8));
  Ok (le_decode bs).

Definition setPtr (node : BNode) (idx : Z) (val : Z) : result BNode :=
  do n <- nkeys node;
  do_ assert (idx <? n);
  let pos := wrap16 (HEADER + 8 * idx) in
  do_ slice node pos (wrap16 (pos + 8));
  Ok (mkBNode (write (bytes node) pos (le_encode 8 val)) (blen node)).

Definition offsetPos (node : BNode) (idx : Z) : result Z :=
  do n <- nkeys node;
  do_ assert ((1 <=? idx) && (idx <=? n));
  Ok (wrap16 (HEADER + 8 * n + 2 * (idx - 1))).

Definition getOffset (node : BNode) (idx : Z) : result Z :=
  if idx =? 0 then Ok 0
  else do pos <- offsetPos node idx; get16 node pos.

Definition setOffset (node : BNode) (idx : Z) (offset : Z) : result BNode :=
  do n <- nkeys node;
  do_ assert ((1 <=? idx) && (idx <=? n));
  do pos <- offsetPos node idx;
  put16 node pos offset.

Definition kvPos (node : BNode) (idx : Z) : result Z :=
  do n <- nkeys node;
  do_ assert (idx <=? n);
  do off <- getOffset node idx;
  Ok (wrap16 (HEADER + 8 * n + 2 * n + off)).

Definition getKey (node : BNode) (idx : Z) : result (list byte) :=
  do n <- nkeys node;
  do_ assert (idx <? n);
  do pos <- kvPos node idx;
  do klen <- get16 node pos;
  let start := wrap16 (pos + 4) in
  do_ assert (start <=? blen node);
  do_ assert (klen <=? bcap node - start);
  Ok (sub (bytes node) start (start + klen)).

Definition getVal (node : BNode) (idx : Z) : result (list byte) :=
  do n <- nkeys node;
  do_ assert (idx <? n);
  do pos <- kvPos node idx;
  do klen <- get16 node pos;
  do vlen <- get16 node (wrap16 (pos + 2));
  let valStart := wrap16 (pos + 4 + klen) in
  slice node valStart (wrap16 (valStart + vlen)).

Definition nbytes (node : BNode) : result Z :=
  do n <- nkeys node; kvPos node n.

(** ** Node algorithms *)

(** The loop of [nodeLookUpLE]: [todo] iterations are left, [i] is the loop
    variable. *)
Fixpoint lookup_loop (node : BNode) (key : list byte) (todo : nat)
    (i found : Z) : result Z :=
  match todo with
  | O => Ok found
  | S todo' =>
      do k <- getKey node i;
      let cmp := bytes_compare k key in
      let found := if cmp_le0 cmp then i else found in
      if cmp_ge0 cmp then Ok found
      else lookup_loop node key todo' (i + 1) found
  end.

Definition nodeLookUpLE (node : BNode) (key : list byte) : result Z :=
  do n <- nkeys node;
  lookup_loop node key (Z.to_nat (n - 1)) 1 0.

(** Step 1 of [nodeAppendRange]: the pointers, [i] running up to [n]. *)
Fixpoint copy_ptrs (new old : BNode) (dstNew srcOld : Z) (todo : nat) (i : Z)
    : result BNode :=
  match todo with
  | O => Ok new
  | S todo' =>
      do p <- getPtr old (wrap16 (srcOld + i));
      do new <- setPtr new (wrap16 (dstNew + i)) p;
      copy_ptrs new old dstNew srcOld todo' (i + 1)
  end.

(** Step 2 of [nodeAppendRange]: the offsets, rebased on [dstBegin]. *)
Fixpoint copy_offsets (new old : BNode) (dstNew srcOld dstBegin srcBegin : Z)
    (todo : nat) (i : Z) : result BNode :=
  match todo with
  | O => Ok new
  | S todo' =>
      do o <- getOffset old (wrap16 (srcOld + i));
      let offset := wrap16 (dstBegin + wrap16 (o - srcBegin)) in
      do new <- setOffset new (wrap16 (dstNew + i)) offset;
      copy_offsets new old dstNew srcOld dstBegin srcBegin todo' (i + 1)
  end.

Definition nodeAppendRange (new old : BNode) (dstNew srcOld n : Z)
    : result BNode :=
  do on <- nkeys old;
  do_ assert (wrap16 (srcOld + n) <=? on);
  do nn <- nkeys new;
  do_ assert (wrap16 (dstNew + n) <=? nn);
  if n =? 0 then Ok new
  else
    do new <- copy_ptrs new old dstNew srcOld (Z.to_nat n) 0;
    do dstBegin <- getOffset new dstNew;
    do srcBegin <- getOffset old srcOld;
    do new <- copy_offsets new old dstNew srcOld dstBegin srcBegin (Z.to_nat n) 1;
    (* [i <= n] holds for every uint16 [i] when [n] is 65535: the loop starts
       over at [i = 0] and rewrites the same offset for ever *)
    do_ (if n =? 65535 then do_ setOffset new dstNew dstBegin; Timeout else Ok tt);
    do begin <- kvPos old srcOld;
    do end_ <- kvPos old (wrap16 (srcOld + n));
    do dpos <- kvPos new dstNew;
    do_ assert (dpos <=? blen new);
    do src <- slice old begin end_;
    copy_at new dpos src.

(** [leafInsert] never uses [key] and [val]: the body only copies the two
    ranges of [old]. *)
Definition leafInsert (new old : BNode) (idx : Z) (key val : list byte)
    : result BNode :=
  do on <- nkeys old;
  do new <- setHeader new BNODE_LEAF (wrap16 (on + 1));
  do new <- nodeAppendRange new old 0 0 idx;
  do on <- nkeys old;
  nodeAppendRange new old (wrap16 (idx + 1)) idx (wrap16 (on - idx)).

(** [len] of a Go slice given as a list. *)
Definition len {A : Type} (l : list A) : Z := Z.of_nat (length l).

Definition nodeAppendKV (new : BNode) (idx : Z) (ptr : Z) (key val : list byte)
    : result BNode :=
  do new <- setPtr new idx ptr;
  do pos <- kvPos new idx;
  do new <- put16 new pos (wrap16 (len key));
  do new <- put16 new (wrap16 (pos + 2)) (wrap16 (len val));
  do new <- copy_at new (wrap16 (pos + 4)) key;
  do new <- copy_at new (wrap16 (pos + 4 + wrap16 (len key))) val;
  do o <- getOffset new idx;
  setOffset new (wrap16 (idx + 1))
            (wrap16 (o + 4 + wrap16 (len key + len val))).

(** [nodeSplit2] is an empty function. *)
Definition nodeSplit2 (left right old : BNode) : BNode * BNode := (left, right).

(** [node[:BTREE_PAGE_SIZE]]: the capacity bounds the new length. *)
Definition trim_page (node : BNode) : result BNode :=
  do_ assert (BTREE_PAGE_SIZE <=? bcap node);
  Ok (mkBNode (bytes node) BTREE_PAGE_SIZE).

Definition nodeSplit3 (old : BNode) : result (Z * list BNode) :=
  do sz <- nbytes old;
  if sz <=? BTREE_PAGE_SIZE then
    do old <- trim_page old;
    Ok (1, [old; nil_node; nil_node])
  else
    let left := make (2 * BTREE_PAGE_SIZE) in
    let right := make BTREE_PAGE_SIZE in
    do lsz <- nbytes left;
    if lsz <=? BTREE_PAGE_SIZE then
      do left <- trim_page left;
      Ok (2, [left; right; nil_node])
    else
      let leftLeft := make BTREE_PAGE_SIZE in
      let middle := make BTREE_PAGE_SIZE in
      let '(leftLeft, middle) := nodeSplit2 leftLeft middle left in
      do llsz <- nbytes leftLeft;
      do_ assert (llsz <=? BTREE_PAGE_SIZE);
      Ok (3, [leftLeft; middle; right]).

Definition leafDelete (new old : BNode) (idx : Z) : result BNode :=
  do on <- nkeys old;
  do new <- setHeader new BNODE_LEAF (wrap16 (on - 1));
  do new <- nodeAppendRange new old 0 0 idx;
  do on <- nkeys old;
  nodeAppendRange new old idx (wrap16 (idx + 1)) (wrap16 (on - wrap16 (idx + 1))).

Definition nodeMerge (new left right : BNode) : result BNode :=
  do t <- btype left;
  do ln <- nkeys left;
  do rn <- nkeys right;
  do new <- setHeader new t (wrap16 (ln + rn));
  do ln <- nkeys left;
  do new <- nodeAppendRange new left 0 0 ln;
  do ln <- nkeys left;
  do rn <- nkeys right;
  nodeAppendRange new right ln 0 rn.

Definition setKey (node : BNode) (idx : Z) (key : list byte) : result BNode :=
  do pos <- kvPos node idx;
  do node <- put16 node pos (wrap16 (len key));
  copy_at node (wrap16 (pos + 4)) key.

Definition nodeReplace2Kid (new old : BNode) (idx : Z) (ptr : Z)
    (key : list byte) : result BNode :=
  do on <- nkeys old;
  do new <- setHeader new BNODE_NODE (wrap16 (on - 1));
  do new <- nodeAppendRange new old 0 0 idx;
  do on <- nkeys old;
  do new <- nodeAppendRange new old idx (wrap16 (idx + 2))
                            (wrap16 (on - wrap16 (idx + 2)));
  do new <- setPtr new idx ptr;
  setKey new idx key.

(** ** The page manager of the test harness

    [newC] keeps the pages in a Go map from page id to buffer.  The id of a
    page is the address of its buffer: for a buffer that was just made it is
    an address no live page has, which [fresh] supplies; for the buffer of a
    live page it is the id of that page.  [calls] is a ghost log of the
    [new] and [del] calls. *)

Inductive call : Type :=
| CallNew (ptr : Z)
| CallDel (ptr : Z).

Record BTree : Type := mkBTree {
  root : Z;
  pages : gmap Z BNode;
  fresh : Z;
  calls : list call
}.

Definition newC : BTree := mkBTree 0 ∅ 1 [].

Definition set_root (t : BTree) (r : Z) : BTree :=
  mkBTree r (pages t) (fresh t) (calls t).

(** [tree.get] *)
Definition tree_get (t : BTree) (ptr : Z) : result BNode :=
  match pages t !! ptr with
  | Some node => Ok node
  | None => Panic
  end.

(** [tree.new] of the buffer that lives at address [addr]. *)
Definition tree_new_at (t : BTree) (addr : Z) (node : BNode) : result BTree :=
  do sz <- nbytes node;
  do_ assert (sz <=? BTREE_PAGE_SIZE);
  do_ assert (0 <? blen node);
  match pages t !! addr with
  | Some _ => Panic
  | None =>
      Ok (mkBTree (root t) (<[addr := node]> (pages t)) (fresh t)
                  (calls t ++ [CallNew addr]))
  end.

(** [tree.new] of a buffer made during the current operation. *)
Definition tree_new (t : BTree) (node : BNode) : result (Z * BTree) :=
  let addr := fresh t in
  do t <- tree_new_at (mkBTree (root t) (pages t) (addr + 1) (calls t)) addr node;
  Ok (addr, t).

(** [tree.del] *)
Definition tree_del (t : BTree) (ptr : Z) : result BTree :=
  match pages t !! ptr with
  | Some _ =>
      Ok (mkBTree (root t) (delete ptr (pages t)) (fresh t)
                  (calls t ++ [CallDel ptr]))
  | None => Panic
  end.

(** ** Tree orchestrator *)

(** The loop over [kids] in [nodeReplaceKidN]. *)
Fixpoint append_kids (t : BTree) (new : BNode) (idx : Z) (i : Z)
    (kids : list BNode) : result (BNode * BTree) :=
  match kids with
  | [] => Ok (new, t)
  | node :: kids' =>
      do (ptr, t) <- tree_new t node;
      do k <- getKey node 0;
      do new <- nodeAppendKV new (wrap16 (idx + wrap16 i)) ptr k [];
      append_kids t new idx (i + 1) kids'
  end.

Definition nodeReplaceKidN (t : BTree) (new old : BNode) (idx : Z)
    (kids : list BNode) : result (BNode * BTree) :=
  let inc := wrap16 (len kids) in
  do on <- nkeys old;
  do new <- setHeader new BNODE_NODE (wrap16 (on + inc - 1));
  do new <- nodeAppendRange new old 0 0 idx;
  do (new, t) <- append_kids t new idx 0 kids;
  do on <- nkeys old;
  do new <- nodeAppendRange new old (wrap16 (idx + inc)) (wrap16 (idx + 1))
                            (wrap16 (on - wrap16 (idx + 1)));
  Ok (new, t).

(** [split[:nsplit]] *)
Definition take_split (nsplit : Z) (split : list BNode) : list BNode :=
  firstn (Z.to_nat nsplit) split.

Section Insert.
Variable treeInsert : BTree -> BNode -> list byte -> list byte
                      -> result (BNode * BTree).

Definition nodeInsert (t : BTree) (new node : BNode) (idx : Z)
    (key val : list byte) : result (BNode * BTree) :=
  do kptr <- getPtr node idx;
  do kid <- tree_get t kptr;
  do (knode, t) <- treeInsert t kid key val;
  do (nsplit, split) <- nodeSplit3 knode;
  do t <- tree_del t kptr;
  nodeReplaceKidN t new node idx (take_split nsplit split).
End Insert.

Fixpoint treeInsert (fuel : nat) (t : BTree) (node : BNode)
    (key val : list byte) : result (BNode * BTree) :=
  match fuel with
  | O => Timeout
  | S fuel' =>
      let new := make (2 * BTREE_PAGE_SIZE) in
      do idx <- nodeLookUpLE node key;
      do ty <- btype node;
      if ty =? BNODE_LEAF then
        do k <- getKey node idx;
        if bytes_equal key k then
          (* found the key: [leafUpdate] is commented out *)
          Ok (new, t)
        else
          do new <- leafInsert new node (wrap16 (idx + 1)) key val;
          Ok (new, t)
      else if ty =? BNODE_NODE then
        nodeInsert (treeInsert fuel') t new node idx key val
      else Panic
  end.

(** The loop of [Insert] that fills the new root. *)
Fixpoint root_kids (t : BTree) (root : BNode) (i : Z) (kids : list BNode)
    : result (BNode * BTree) :=
  match kids with
  | [] => Ok (root, t)
  | knode :: kids' =>
      do (ptr, t) <- tree_new t knode;
      do key <- getKey knode 0;
      do root <- nodeAppendKV root (wrap16 i) ptr key [];
      root_kids t root (i + 1) kids'
  end.

Definition Insert (fuel : nat) (t : BTree) (key val : list byte)
    : result BTree :=
  if root t =? 0 then
    let root := make BTREE_PAGE_SIZE in
    do root <- setHeader root BNODE_LEAF 2;
    do root <- nodeAppendKV root 0 0 [] [];
    do root <- nodeAppendKV root 1 0 key val;
    do (ptr, t) <- tree_new t root;
    Ok (set_root t ptr)
  else
    do old <- tree_get t (root t);
    do (node, t) <- treeInsert fuel t old key val;
    do (nsplit, split) <- nodeSplit3 node;
    do t <- tree_del t (root t);
    if 1 <? nsplit then
      let root := make BTREE_PAGE_SIZE in
      do root <- setHeader root BNODE_NODE nsplit;
      do (root, t) <- root_kids t root 0 (take_split nsplit split);
      do (ptr, t) <- tree_new t root;
      Ok (set_root t ptr)
    else
      do (ptr, t) <- tree_new t (nth 0 split nil_node);
      Ok (set_root t ptr).

Definition shouldMerge (t : BTree) (node : BNode) (idx : Z) (updated : BNode)
    : result (Z * BNode) :=
  do usz <- nbytes updated;
  if BTREE_PAGE_SIZE / 4 <? usz then Ok (0, nil_node)
  else
    do leftSibling <-
      (if 0 <? idx then
         do p <- getPtr node (wrap16 (idx - 1));
         do sibling <- tree_get t p;
         do ssz <- nbytes sibling;
         do usz <- nbytes updated;
         let merged := wrap16 (ssz + usz - HEADER) in
         Ok (if merged <=? BTREE_PAGE_SIZE then Some sibling else None)
       else Ok None);
    match leftSibling with
    | Some sibling => Ok (-1, sibling)
    | None =>
        do n <- nkeys node;
        if wrap16 (idx + 1) <? n then
          do p <- getPtr node (wrap16 (idx + 1));
          do sibling <- tree_get t p;
          do ssz <- nbytes sibling;
          do usz <- nbytes updated;
          let merged := wrap16 (ssz + usz - HEADER) in
          if merged <=? BTREE_PAGE_SIZE then Ok (1, sibling)
          else Ok (0, nil_node)
        else Ok (0, nil_node)
    end.

Section Delete.
Variable treeDelete : BTree -> BNode -> list byte -> result (BNode * BTree).

Definition nodeDelete (t : BTree) (node : BNode) (idx : Z) (key : list byte)
    : result (BNode * BTree) :=
  do kptr <- getPtr node idx;
  do kid <- tree_get t kptr;
  do (updated, t) <- treeDelete t kid key;
  if blen updated =? 0 then Ok (nil_node, t)
  else
    do t <- tree_del t kptr;
    let new := make BTREE_PAGE_SIZE in
    do (mergeDir, sibling) <- shouldMerge t node idx updated;
    if mergeDir <? 0 then
      let merged := make BTREE_PAGE_SIZE in
      do merged <- nodeMerge merged sibling updated;
      do p <- getPtr node (wrap16 (idx - 1));
      do t <- tree_del t p;
      do (ptr, t) <- tree_new t merged;
      do k <- getKey merged 0;
      do new <- nodeReplace2Kid new node (wrap16 (idx - 1)) ptr k;
      Ok (new, t)
    else if 0 <? mergeDir then
      let merged := make BTREE_PAGE_SIZE in
      do merged <- nodeMerge merged updated sibling;
      do p <- getPtr node (wrap16 (idx + 1));
      do t <- tree_del t p;
      do (ptr, t) <- tree_new t merged;
      do k <- getKey merged 0;
      do new <- nodeReplace2Kid new node idx ptr k;
      Ok (new, t)
    else
      do un <- nkeys updated;
      if un =? 0 then
        do n <- nkeys node;
        do_ assert ((n =? 1) && (idx =? 0));
        do new <- setHeader new BNODE_NODE 0;
        Ok (new, t)
      else
        (* [updated.nkeys() > 0] is all that is left for a uint16 *)
        nodeReplaceKidN t new node idx [updated].
End Delete.

Fixpoint treeDelete (fuel : nat) (t : BTree) (node : BNode) (key : list byte)
    : result (BNode * BTree) :=
  match fuel with
  | O => Timeout
  | S fuel' =>
      let new := make (2 * BTREE_PAGE_SIZE) in
      do idx <- nodeLookUpLE node key;
      do ty <- btype node;
      if ty =? BNODE_LEAF then
        do k <- getKey node idx;
        if negb (bytes_equal key k) then Ok (nil_node, t)
        else
          do new <- leafDelete new node idx;
          Ok (new, t)
      else if ty =? BNODE_NODE then
        nodeDelete (treeDelete fuel') t node idx key
      else Panic
  end.

(** The loop of [Delete] that fills the root after a split. *)
Fixpoint delete_root_kids (t : BTree) (newRoot : BNode) (i : Z)
    (kids : list BNode) : result (BNode * BTree) :=
  match kids with
  | [] => Ok (newRoot, t)
  | knode :: kids' =>
      do (ptr, t) <- tree_new t knode;
      do newRoot <- setPtr newRoot (wrap16 i) ptr;
      do key <- getKey knode 0;
      do newRoot <- setKey newRoot (wrap16 i) key;
      delete_root_kids t newRoot (i + 1) kids'
  end.

(** The tail of [Delete], after the [switch]. *)
Definition install_root (t : BTree) (updated : BNode) : result (bool * BTree) :=
  do sz <- nbytes updated;
  if sz <=? BTREE_PAGE_SIZE then
    do (ptr, t) <- tree_new t updated;
    Ok (true, set_root t ptr)
  else
    do (nsplit, split) <- nodeSplit3 updated;
    if 1 <? nsplit then
      let newRoot := make BTREE_PAGE_SIZE in
      do newRoot <- setHeader newRoot BNODE_NODE nsplit;
      do (newRoot, t) <- delete_root_kids t newRoot 0 (take_split nsplit split);
      do (ptr, t) <- tree_new t newRoot;
      Ok (true, set_root t ptr)
    else
      do (ptr, t) <- tree_new t (nth 0 split nil_node);
      Ok (true, set_root t ptr).

Definition Delete (fuel : nat) (t : BTree) (key : list byte)
    : result (bool * BTree) :=
  if root t =? 0 then Ok (false, t)
  else
    do old <- tree_get t (root t);
    do (updated, t) <- treeDelete fuel t old key;
    if blen updated =? 0 then Ok (false, t)
    else
      do t <- tree_del t (root t);
      do ty <- btype updated;
      if ty =? BNODE_NODE then
        do n <- nkeys updated;
        if n =? 1 then
          do p <- getPtr updated 0;
          do newRoot <- tree_get t p;
          (* the buffer of page [p] is registered a second time, under its
             own address *)
          do t <- tree_new_at t p newRoot;
          let t := set_root t p in
          do p <- getPtr updated 0;
          do t <- tree_del t p;
          Ok (true, t)
        else install_root t updated
      else if ty =? BNODE_LEAF then
        do n <- nkeys updated;
        if n =? 0 then Ok (true, set_root t 0)
        else install_root t updated
      else install_root t updated.

(** ** Observations *)

(** Modelled from the spec: the repository has no lookup function.  The
    traversal of the spec descends from a node, follows [nodeLookUpLE] at
    each internal node and compares the key at the leaf; it yields the
    stored value, or [None] for an absent key. *)
Fixpoint treeGet (fuel : nat) (t : BTree) (node : BNode) (key : list byte)
    : result (option (list byte)) :=
  match fuel with
  | O => Timeout
  | S fuel' =>
      do idx <- nodeLookUpLE node key;
      do ty <- btype node;
      if ty =? BNODE_LEAF then
        do k <- getKey node idx;
        if bytes_equal key k then
          do v <- getVal node idx;
          Ok (Some v)
        else Ok None
      else if ty =? BNODE_NODE then
        do p <- getPtr node idx;
        do kid <- tree_get t p;
        treeGet fuel' t kid key
      else Panic
  end.

(** Modelled from the spec: the traversal from the root; the empty tree
    ([root = 0]) holds no key. *)
Definition Get (fuel : nat) (t : BTree) (key : list byte)
    : result (option (list byte)) :=
  if root t =? 0 then Ok None
  else
    do node <- tree_get t (root t);
    treeGet fuel t node key.

(** Entry [idx] of a node: pointer, key and value. *)
Definition entry (node : BNode) (idx : Z) : result (Z * list byte * list byte) :=
  do p <- getPtr node idx;
  do k <- getKey node idx;
  do v <- getVal node idx;
  Ok (p, k, v).

Fixpoint entries_from (node : BNode) (todo : nat) (i : Z)
    : result (list (Z * list byte * list byte)) :=
  match todo with
  | O => Ok []
  | S todo' =>
      do e <- entry node i;
      do es <- entries_from node todo' (i + 1);
      Ok (e :: es)
  end.

(** All the entries of a node, in slot order. *)
Definition entries (node : BNode) : result (list (Z * list byte * list byte)) :=
  do n <- nkeys node;
  entries_from node (Z.to_nat n) 0.

(** Keys and values of the examples are written as strings. *)
Definition B (s : string) : list byte := list_byte_of_string s.
Arguments B s%_string.

Fixpoint map_result {A B : Type} (f : A -> result B) (l : list A)
    : result (list B) :=
  match l with
  | [] => Ok []
  | a :: l' => do b <- f a; do bs <- map_result f l'; Ok (b :: bs)
  end.

(** All the keys of a node, in slot order. *)
Fixpoint keys_from (node : BNode) (todo : nat) (i : Z)
    : result (list (list byte)) :=
  match todo with
  | O => Ok []
  | S todo' =>
      do k <- getKey node i;
      do ks <- keys_from node todo' (i + 1);
      Ok (k :: ks)
  end.

Definition keys (node : BNode) : result (list (list byte)) :=
  do n <- nkeys node;
  keys_from node (Z.to_nat n) 0.

(** Strictly ascending under [bytes.Compare]. *)
Fixpoint ascending (ks : list (list byte)) : bool :=
  match ks with
  | [] => true
  | k :: ks' =>
      match ks' with
      | [] => true
      | k' :: _ =>
          match bytes_compare k k' with Lt => ascending ks' | _ => false end
      end
  end.

(** ** Views of the bytes, for the proofs *)

(** The byte at position [p] of a backing array. *)
Definition byte_at (bs : list byte) (p : Z) : byte := nth (Z.to_nat p) bs x00.

(** The little-endian [uint16] at position [p]. *)
Definition u16 (bs : list byte) (p : Z) : Z :=
  Z_of_byte (byte_at bs p) + 256 * Z_of_byte (byte_at bs (p + 1)).

(** Offset [i] of a node of [n] keys, read from the offset array. *)
Definition off (bs : list byte) (n i : Z) : Z :=
  if i =? 0 then 0 else u16 bs (4 + 8 * n + 2 * (i - 1)).

(** The positions [lo, hi). *)
Definition ival (lo hi : Z) : Z -> Prop := fun p => lo <= p < hi.

(** [new'] is [new] except for the bytes in the region [R]. *)
Definition touched (R : Z -> Prop) (new new' : BNode) : Prop :=
  blen new' = blen new /\
  len (bytes new') = len (bytes new) /\
  forall p, 0 <= p -> ~ R p -> byte_at (bytes new') p = byte_at (bytes new) p.

(** The region that [nodeAppendRange] writes: [n] pointers and [n] offsets
    from slot [dst] of a node of [nn] keys, and [size] bytes of entries at
    offset [d]. *)
Definition range_region (nn dst n d size : Z) : Z -> Prop := fun p =>
  ival (4 + 8 * dst) (4 + 8 * (dst + n)) p \/
  ival (4 + 8 * nn + 2 * dst) (4 + 8 * nn + 2 * (dst + n)) p \/
  ival (4 + 10 * nn + d) (4 + 10 * nn + d + size) p.

(** The header, the pointer and offset arrays and the packed entries of a
    node of [n] keys lie within its slice, at positions a [uint16] can hold,
    with offsets that do not decrease. *)
Record layout (node : BNode) (n : Z) : Prop := {
  lay_nkeys : nkeys node = Ok n;
  lay_cap : blen node <= bcap node;
  lay_size : 4 + 10 * n + off (bytes node) n n <= blen node;
  lay_small : 4 + 10 * n + off (bytes node) n n < 65536;
  lay_mono : forall i j, 0 <= i <= j -> j <= n ->
             off (bytes node) n i <= off (bytes node) n j
}.

(** The little-endian [uint64] at position [p]. *)
Definition u64 (bs : list byte) (p : Z) : Z := le_decode (sub bs p (p + 8)).

(** Position of entry [i] of a node of [n] keys. *)
Definition kv_at (bs : list byte) (n i : Z) : Z := 4 + 10 * n + off bs n i.

(** Size of entry [i]: the two lengths, the key and the value. *)
Definition size_at (bs : list byte) (n i : Z) : Z :=
  4 + u16 bs (kv_at bs n i) + u16 bs (kv_at bs n i + 2).

(** Entry [i] as the accessors read it: pointer, key and value. *)
Definition entry_at (bs : list byte) (n i : Z) : Z * list byte * list byte :=
  let kv := kv_at bs n i in
  let klen := u16 bs kv in
  let vlen := u16 bs (kv + 2) in
  (u64 bs (4 + 8 * i),
   sub bs (kv + 4) (kv + 4 + klen),
   sub bs (kv + 4 + klen) (kv + 4 + klen + vlen)).

(** The first [k] entries of a node of [n] keys are packed one after the
    other and end within the slice, at a position a [uint16] can hold. *)
Record packed (node : BNode) (n k : Z) : Prop := {
  pk_nkeys : nkeys node = Ok n;
  pk_k : 0 <= k <= n;
  pk_cap : blen node <= bcap node;
  pk_end : kv_at (bytes node) n k <= blen node;
  pk_small : kv_at (bytes node) n k < 65536;
  pk_next : forall i, 0 <= i < k ->
            off (bytes node) n (i + 1) =
              off (bytes node) n i + size_at (bytes node) n i
}.

(** ** Well-formed nodes *)

(** Entry [i] is readable and the next offset is its own plus its size. *)
Definition entry_ok (node : BNode) (i : Z) : bool :=
  match getOffset node i, getKey node i, getVal node i, getOffset node (i + 1) with
  | Ok o, Ok k, Ok v, Ok o' => o' =? o + 4 + len k + len v
  | _, _, _, _ => false
  end.

Definition slots (n : Z) : list Z := map Z.of_nat (seq 0 (Z.to_nat n)).

(** A node with at least one key whose arrays and entries lie within its
    slice, at positions a [uint16] can hold, every entry packed after the
    one before. *)
Definition well_formed (node : BNode) : bool :=
  match nkeys node with
  | Ok n =>
      match getOffset node n with
      | Ok o =>
          let size := HEADER + 8 * n + 2 * n + o in
          (1 <=? n) && (size <=? blen node) && (blen node <=? bcap node)
          && (size <? 65536) && forallb (entry_ok node) (slots n)
      | _ => false
      end
  | _ => false
  end.

(** The first [k] entries of a node are readable, each packed after the one
    before, and end within the slice at a position a [uint16] can hold: what
    a node under construction looks like after [k] appends. *)
Definition packed_to (node : BNode) (k : Z) : bool :=
  match nkeys node, getOffset node k with
  | Ok n, Ok o =>
      let size := HEADER + 8 * n + 2 * n + o in
      (0 <=? k) && (k <=? n) && (size <=? blen node) && (blen node <=? bcap node)
      && (size <? 65536) && forallb (entry_ok node) (slots k)
  | _, _ => false
  end.

(** ** Search trees

    The notions in which the behaviour of [Delete] on ordered trees is
    stated; they observe a tree through the accessors and are no part of the
    code.  [tree_keys] lists the keys that the leaves hold.  [search_tree] is
    the order the spec asks of a tree (keys strictly ascending after index 0,
    the first key of a node not greater than the keys below it), in the form
    the descent of [Delete] along [nodeLookUpLE] relies on. *)

(** The keys stored below a node, in slot order: the keys of a leaf, the
    keys stored below each link of an internal node. *)
Fixpoint tree_keys (h : nat) (t : BTree) (node : BNode)
    : result (list (list byte)) :=
  match h with
  | O => Timeout
  | S h' =>
      do ty <- btype node;
      if ty =? BNODE_LEAF then keys node
      else if ty =? BNODE_NODE then
        do n <- nkeys node;
        do kss <- map_result (fun i => do p <- getPtr node i;
                                       do kid <- tree_get t p;
                                       tree_keys h' t kid) (slots n);
        Ok (concat kss)
      else Panic
  end.

(** Smaller under [bytes.Compare]. *)
Definition key_lt (a b : list byte) : bool :=
  match bytes_compare a b with Lt => true | _ => false end.

(** The keys [sub] stored below link [i] of a node with the keys [ks] are
    not smaller than the key of the link, from link 1 on, and smaller than
    the key of the next link, when there is one. *)
Definition between (ks : list (list byte)) (i : Z) (sub : list (list byte))
    : bool :=
  forallb (fun k =>
             ((i <? 1) || cmp_le0 (bytes_compare (nth (Z.to_nat i) ks []) k)) &&
             ((len ks <=? i + 1) || key_lt k (nth (Z.to_nat (i + 1)) ks [])))
          sub.

(** A search tree of height at most [h]: every node has a key, its keys
    ascend from slot 1 on, the key of slot 0 of a leaf is not greater than
    the key of slot 1, and the keys stored below a link lie [between] the
    key of the link and the key of the next link. *)
Fixpoint search_tree (h : nat) (t : BTree) (node : BNode) : bool :=
  match h with
  | O => false
  | S h' =>
      match keys node, btype node with
      | Ok ks, Ok ty =>
          (0 <? len ks) && ascending (tl ks) &&
          (if ty =? BNODE_LEAF then
             match ks with
             | k0 :: k1 :: _ => cmp_le0 (bytes_compare k0 k1)
             | _ => true
             end
           else if ty =? BNODE_NODE then
             forallb (fun i =>
                        match (do p <- getPtr node i; tree_get t p) with
                        | Ok kid =>
                            search_tree h' t kid &&
                            match tree_keys h' t kid with
                            | Ok sub => between ks i sub
                            | _ => false
                            end
                        | _ => false
                        end)
                     (slots (len ks))
           else false)
      | _, _ => false
      end
  end.

(** ** Nodes and trees of the examples *)

(** The root leaf that [Insert "k" "v"] builds in an empty tree. *)
Definition leaf_k : result BNode :=
  do n <- setHeader (make BTREE_PAGE_SIZE) BNODE_LEAF 2;
  do n <- nodeAppendKV n 0 0 [] [];
  nodeAppendKV n 1 0 (B "k") (B "v").

(** A leaf of three entries whose keys are not in order. *)
Definition leaf_unsorted : result BNode :=
  do n <- setHeader (make BTREE_PAGE_SIZE) BNODE_LEAF 3;
  do n <- nodeAppendKV n 0 0 [] [];
  do n <- nodeAppendKV n 1 0 (B "z") [];
  nodeAppendKV n 2 0 (B "a") [].

(** A leaf of three entries in order. *)
Definition leaf_sorted : result BNode :=
  do n <- setHeader (make BTREE_PAGE_SIZE) BNODE_LEAF 3;
  do n <- nodeAppendKV n 0 0 [] [];
  do n <- nodeAppendKV n 1 0 (B "a") (B "1");
  nodeAppendKV n 2 0 (B "c") (B "3").

(** A leaf of 4147 bytes in a scratch buffer of two pages: the sentinel, an
    entry of the largest key and value, and one more entry. *)
Definition leaf_oversized : result BNode :=
  do n <- setHeader (make (2 * BTREE_PAGE_SIZE)) BNODE_LEAF 3;
  do n <- nodeAppendKV n 0 0 [] [];
  do n <- nodeAppendKV n 1 0 (repeat "k"%byte 1000) (repeat "v"%byte 3000);
  nodeAppendKV n 2 0 (B "z") (repeat "w"%byte 100).

(** An internal node with the children 10, 11 and 12. *)
Definition node_abc : result BNode :=
  do n <- setHeader (make BTREE_PAGE_SIZE) BNODE_NODE 3;
  do n <- nodeAppendKV n 0 10 (B "a") [];
  do n <- nodeAppendKV n 1 11 (B "b") [];
  nodeAppendKV n 2 12 (B "c") [].

(** The tree after [Insert "k" "v"] on the empty tree. *)
Definition tree_k : result BTree := Insert 1 newC (B "k") (B "v").

(** The node of an example, or the empty slice if building it panicked. *)
Definition get_ok (r : result BNode) : BNode :=
  match r with Ok node => node | _ => nil_node end.

(** A leaf with the single entry [("k", "v")]. *)
Definition leaf_one : result BNode :=
  do n <- setHeader (make BTREE_PAGE_SIZE) BNODE_LEAF 1;
  nodeAppendKV n 0 0 (B "k") (B "v").

(** A tree whose root, page 1, is [leaf_one]. *)
Definition tree_one : BTree :=
  mkBTree 1 (<[1 := get_ok leaf_one]> ∅) 2 [CallNew 1].

(** The value of an example, or a default if computing it panicked. *)
Definition ok_or {A : Type} (d : A) (r : result A) : A :=
  match r with Ok a => a | _ => d end.

(** A tree whose root, page 1, is [leaf_sorted]. *)
Definition tree_sorted : BTree :=
  mkBTree 1 (<[1 := get_ok leaf_sorted]> ∅) 2 [CallNew 1].

(** A leaf of 4094 bytes: the sentinel and two entries with long values. *)
Definition leaf_full : result BNode :=
  do n <- setHeader (make BTREE_PAGE_SIZE) BNODE_LEAF 3;
  do n <- nodeAppendKV n 0 0 [] [];
  do n <- nodeAppendKV n 1 0 (B "b") (repeat "v"%byte 2000);
  nodeAppendKV n 2 0 (B "c") (repeat "w"%byte 2046).

(** A tree whose root, page 1, is [leaf_full]. *)
Definition tree_full : BTree :=
  mkBTree 1 (<[1 := get_ok leaf_full]> ∅) 2 [CallNew 1].

(** Two leaves and the internal node above them. *)
Definition leaf_left : result BNode :=
  do n <- setHeader (make BTREE_PAGE_SIZE) BNODE_LEAF 2;
  do n <- nodeAppendKV n 0 0 [] [];
  nodeAppendKV n 1 0 (B "a") (B "1").

Definition leaf_right : result BNode :=
  do n <- setHeader (make BTREE_PAGE_SIZE) BNODE_LEAF 2;
  do n <- nodeAppendKV n 0 0 (B "m") (B "w");
  nodeAppendKV n 1 0 (B "x") (B "y").

Definition node_top : result BNode :=
  do n <- setHeader (make BTREE_PAGE_SIZE) BNODE_NODE 2;
  do n <- nodeAppendKV n 0 2 [] [];
  nodeAppendKV n 1 3 (B "m") [].

(** A tree of height two: the root, page 1, points to the leaves 2 and 3. *)
Definition tree_two : BTree :=
  mkBTree 1 (<[1 := get_ok node_top]>
              (<[2 := get_ok leaf_left]> (<[3 := get_ok leaf_right]> ∅)))
          4 [CallNew 2; CallNew 3; CallNew 1].

(** A leaf of more than a quarter of a page. *)
Definition leaf_big : result BNode :=
  do n <- setHeader (make BTREE_PAGE_SIZE) BNODE_LEAF 2;
  do n <- nodeAppendKV n 0 0 (B "m") (repeat "w"%byte 1200);
  nodeAppendKV n 1 0 (B "x") (B "y").

(** A tree of height two whose right leaf is [leaf_big]. *)
Definition tree_big : BTree :=
  mkBTree 1 (<[1 := get_ok node_top]>
              (<[2 := get_ok leaf_left]> (<[3 := get_ok leaf_big]> ∅)))
          4 [CallNew 2; CallNew 3; CallNew 1].

(** The tree after [Insert "k" "v"], [Delete ""] and [Insert "m" "w"] on the
    empty tree. *)
Definition tree_k_m : result BTree :=
  do t <- Insert 1 newC (B "k") (B "v");
  do (_, t) <- Delete 1 t [];
  Insert 1 t (B "m") (B "w").

(** ** The movies service

    The handlers of the movies service work on the package-level slice
    [movies].  A handler is a function of that slice and of what the request
    carries: the [id] of the route and the movies that decoding the body
    yields.  It returns what it encodes to the response, in order, and the
    slice it leaves behind. *)

Record Director : Type := mkDirector {
  Firstname : string;
  Lastname : string
}.

Record Movie : Type := mkMovie {
  ID : string;
  Isbn : string;
  Title : string;
  director : option Director   (* [Director *Director] *)
}.

(** [movie.ID = id] *)
Definition set_ID (movie : Movie) (id : string) : Movie :=
  mkMovie id (Isbn movie) (Title movie) (director movie).

(** A value passed to [json.NewEncoder(w).Encode]. *)
Inductive encoded : Type :=
| EncMovies (ms : list Movie)
| EncMovie (m : Movie).

(** [append(movies[:index], movies[index+1:]...)] *)
Definition remove_at (movies : list Movie) (index : nat) : list Movie :=
  firstn index movies ++ skipn (S index) movies.

(** The loop of [deleteMovie]: [todo] movies are left to visit, the next one
    at [index]; the loop ends at the first match. *)
Fixpoint deleteMovie_loop (id : string) (movies : list Movie) (todo index : nat)
    : list Movie :=
  match todo with
  | O => movies
  | S todo' =>
      match nth_error movies index with
      | Some item =>
          if String.eqb (ID item) id then remove_at movies index
          else deleteMovie_loop id movies todo' (S index)
      | None => movies
      end
  end.

Definition deleteMovie (id : string) (movies : list Movie)
    : list encoded * list Movie :=
  let movies := deleteMovie_loop id movies (length movies) 0 in
  ([EncMovies movies], movies).

(** The loop of [updateMovie] does not end at a match.  The [range] clause
    has read the slice once: it visits the indices below the length the
    slice had then, and reads each element from the backing array when its
    turn comes.  A pass that matches removes the element in place and
    appends the new movie in the room this leaves, so the slice keeps its
    length and its backing array, [arr], and the loop goes on over what the
    pass wrote.  [body k] is the movie that the [k]-th decoder made for the
    request body fills in. *)
Fixpoint updateMovie_loop (id : string) (body : nat -> Movie) (arr : list Movie)
    (decoders : nat) (out : list encoded) (todo index : nat)
    : list encoded * list Movie :=
  match todo with
  | O => (out, arr)
  | S todo' =>
      match nth_error arr index with
      | Some item =>
          if String.eqb (ID item) id then
            let movies := remove_at arr index in
            let movie := set_ID (body decoders) id in
            let movies := movies ++ [movie] in
            updateMovie_loop id body movies (S decoders) (out ++ [EncMovie movie])
                             todo' (S index)
          else updateMovie_loop id body arr decoders out todo' (S index)
      | None => (out, arr)
      end
  end.

Definition updateMovie (id : string) (body : nat -> Movie) (movies : list Movie)
    : list encoded * list Movie :=
  updateMovie_loop id body movies 0 [] (length movies) 0.

(** The two movies that [main] starts with. *)
Definition movie1 : Movie :=
  mkMovie "1" "323423" "movie 1" (Some (mkDirector "Emmanuel" "Keifala")).
Definition movie3 : Movie :=
  mkMovie "3" "32das423" "movie 3" (Some (mkDirector "Grim" "Kel")).

(** A request body with one movie: the first decoder reads it, the decoders
    after it find the body at its end and leave their movie as it was. *)
Definition body_once (movie : Movie) (k : nat) : Movie :=
  match k with
  | O => movie
  | S _ => mkMovie "" "" "" None
  end.

(** * Properties *)

(** ** Reasoning about results *)

Lemma bind_Ok {A B : Type} (r : result A) (k : A -> result B) (b : B) :
  bind r k = Ok b -> exists a, r = Ok a /\ k a = Ok b.
Proof. destruct r; simpl; intros H; try discriminate. eauto. Qed.

Lemma assert_Ok (c : bool) (u : unit) : assert c = Ok u -> c = true.
Proof. destruct c; simpl; [reflexivity | discriminate]. Qed.

(** Decompose a hypothesis stating that a computation returned. *)
Ltac inv_ok :=
  repeat match goal with
  | H : bind _ _ = Ok _ |- _ =>
      let a := fresh "a" in
      let E := fresh "E" in
      apply bind_Ok in H; destruct H as (a & E & H)
  | H : (let (_, _) := ?p in _) = Ok _ |- _ => destruct p
  | H : (let '(_, _) := ?p in _) = Ok _ |- _ => destruct p
  | H : assert _ = Ok _ |- _ => apply assert_Ok in H
  | H : Ok _ = Ok _ |- _ => injection H as H; try subst
  | H : Panic = Ok _ |- _ => discriminate H
  | H : Timeout = Ok _ |- _ => discriminate H
  end.

(** ** Writes keep the length of the slice *)

Lemma put16_blen node pos v node' :
  put16 node pos v = Ok node' -> blen node' = blen node.
Proof. unfold put16; intros H; inv_ok; reflexivity. Qed.

Lemma copy_at_blen node pos src node' :
  copy_at node pos src = Ok node' -> blen node' = blen node.
Proof. unfold copy_at; intros H; inv_ok; reflexivity. Qed.

Lemma setHeader_blen node ty n node' :
  setHeader node ty n = Ok node' -> blen node' = blen node.
Proof. unfold setHeader; intros H; inv_ok; reflexivity. Qed.

Lemma setPtr_blen node idx v node' :
  setPtr node idx v = Ok node' -> blen node' = blen node.
Proof. unfold setPtr; intros H; inv_ok; reflexivity. Qed.

Lemma setOffset_blen node idx v node' :
  setOffset node idx v = Ok node' -> blen node' = blen node.
Proof. unfold setOffset; intros H; inv_ok; eauto using put16_blen. Qed.

Lemma copy_ptrs_blen old dst src todo : forall new i new',
  copy_ptrs new old dst src todo i = Ok new' -> blen new' = blen new.
Proof.
  induction todo as [|todo IH]; simpl; intros new i new' H; inv_ok.
  - reflexivity.
  - apply IH in H. apply setPtr_blen in E0. congruence.
Qed.

Lemma copy_offsets_blen old dst src dB sB todo : forall new i new',
  copy_offsets new old dst src dB sB todo i = Ok new' -> blen new' = blen new.
Proof.
  induction todo as [|todo IH]; simpl; intros new i new' H; inv_ok.
  - reflexivity.
  - apply IH in H. apply setOffset_blen in E0. congruence.
Qed.

(** Turn every hypothesis about a write into the equation of lengths. *)
Ltac blen_prim :=
  repeat match goal with
  | H : put16 _ _ _ = Ok _ |- _ => apply put16_blen in H
  | H : copy_at _ _ _ = Ok _ |- _ => apply copy_at_blen in H
  | H : setHeader _ _ _ = Ok _ |- _ => apply setHeader_blen in H
  | H : setPtr _ _ _ = Ok _ |- _ => apply setPtr_blen in H
  | H : setOffset _ _ _ = Ok _ |- _ => apply setOffset_blen in H
  | H : copy_ptrs _ _ _ _ _ _ = Ok _ |- _ => apply copy_ptrs_blen in H
  | H : copy_offsets _ _ _ _ _ _ _ _ = Ok _ |- _ => apply copy_offsets_blen in H
  end.

Lemma nodeAppendRange_blen new old dst src n new' :
  nodeAppendRange new old dst src n = Ok new' -> blen new' = blen new.
Proof.
  unfold nodeAppendRange; intros H; inv_ok.
  destruct (n =? 0); inv_ok; [reflexivity|].
  blen_prim. congruence.
Qed.

Lemma nodeAppendKV_blen new idx ptr key val new' :
  nodeAppendKV new idx ptr key val = Ok new' -> blen new' = blen new.
Proof. unfold nodeAppendKV; intros H; inv_ok. blen_prim. congruence. Qed.

Lemma setKey_blen node idx key node' :
  setKey node idx key = Ok node' -> blen node' = blen node.
Proof. unfold setKey; intros H; inv_ok. blen_prim. congruence. Qed.

Ltac blen_node :=
  blen_prim;
  repeat match goal with
  | H : nodeAppendRange _ _ _ _ _ = Ok _ |- _ => apply nodeAppendRange_blen in H
  | H : nodeAppendKV _ _ _ _ _ = Ok _ |- _ => apply nodeAppendKV_blen in H
  | H : setKey _ _ _ = Ok _ |- _ => apply setKey_blen in H
  end.

Lemma leafDelete_blen new old idx new' :
  leafDelete new old idx = Ok new' -> blen new' = blen new.
Proof. unfold leafDelete; intros H; inv_ok. blen_node. congruence. Qed.

Lemma nodeReplace2Kid_blen new old idx ptr key new' :
  nodeReplace2Kid new old idx ptr key = Ok new' -> blen new' = blen new.
Proof. unfold nodeReplace2Kid; intros H; inv_ok. blen_node. congruence. Qed.

Lemma append_kids_blen idx kids : forall t new i new' t',
  append_kids t new idx i kids = Ok (new', t') -> blen new' = blen new.
Proof.
  induction kids as [|kid kids IH]; simpl; intros t new i new' t' H; inv_ok.
  - reflexivity.
  - apply IH in H. blen_node. congruence.
Qed.

Lemma nodeReplaceKidN_blen t new old idx kids new' t' :
  nodeReplaceKidN t new old idx kids = Ok (new', t') -> blen new' = blen new.
Proof.
  unfold nodeReplaceKidN; intros H; inv_ok.
  apply append_kids_blen in E2. blen_node. congruence.
Qed.

Ltac blen_tree :=
  blen_node;
  repeat match goal with
  | H : leafDelete _ _ _ = Ok _ |- _ => apply leafDelete_blen in H
  | H : nodeReplace2Kid _ _ _ _ _ = Ok _ |- _ => apply nodeReplace2Kid_blen in H
  | H : nodeReplaceKidN _ _ _ _ _ = Ok _ |- _ => apply nodeReplaceKidN_blen in H
  end.

(** Replay in the goal the calls that are known to have returned. *)
Ltac use_ok :=
  repeat match goal with
  | H : ?e = Ok _ |- context [?e] => rewrite H; cbn [bind]
  end.

(** ** [Delete] of an absent key *)

(** A node returned by [treeDelete] with length 0 is the signal for "key not
    found": the tree is untouched and the traversal finds nothing. *)
Lemma treeDelete_not_found fuel : forall t node key updated t',
  treeDelete fuel t node key = Ok (updated, t') ->
  blen updated = 0 ->
  t' = t /\ treeGet fuel t node key = Ok None.
Proof.
  induction fuel as [|fuel IH]; simpl; intros t node key updated t' H Hlen.
  - discriminate.
  - inv_ok. use_ok.
    match goal with |- context [?ty =? BNODE_LEAF] => destruct (ty =? BNODE_LEAF) end.
    + inv_ok. use_ok.
      match goal with |- context [bytes_equal ?a ?b] =>
        destruct (bytes_equal a b); simpl in H; inv_ok end.
      * blen_tree. simpl in *. unfold BTREE_PAGE_SIZE in *. lia.
      * auto.
    + match goal with |- context [?ty =? BNODE_NODE] =>
        destruct (ty =? BNODE_NODE); [|discriminate] end.
      unfold nodeDelete in H. inv_ok. use_ok.
      match goal with H' : treeDelete _ _ _ _ = Ok (?u, _) |- _ =>
        destruct (blen u =? 0) eqn:Eb end.
      * inv_ok. apply Z.eqb_eq in Eb.
        match goal with H' : treeDelete _ _ _ _ = Ok _ |- _ =>
          destruct (IH _ _ _ _ _ H' Eb) as [-> ->] end.
        auto.
      * exfalso. inv_ok.
        repeat match goal with
        | H' : (if ?c then _ else _) = Ok _ |- _ => destruct c; inv_ok
        end; blen_tree; simpl in *; unfold BTREE_PAGE_SIZE in *; lia.
Qed.

(** Conversely, when the traversal finds nothing [treeDelete] gives the
    signal and leaves the tree alone. *)
Lemma treeGet_None_treeDelete fuel : forall t node key,
  treeGet fuel t node key = Ok None ->
  treeDelete fuel t node key = Ok (nil_node, t).
Proof.
  induction fuel as [|fuel IH]; simpl; intros t node key H.
  - discriminate.
  - inv_ok. use_ok.
    match goal with |- context [?ty =? BNODE_LEAF] => destruct (ty =? BNODE_LEAF) end.
    + inv_ok. use_ok.
      match goal with |- context [bytes_equal ?a ?b] =>
        destruct (bytes_equal a b); simpl; inv_ok end.
      * discriminate.
      * reflexivity.
    + match goal with |- context [?ty =? BNODE_NODE] =>
        destruct (ty =? BNODE_NODE); [|discriminate] end.
      unfold nodeDelete. inv_ok. use_ok.
      rewrite (IH _ _ _ H). reflexivity.
Qed.

(** [Delete] returns false exactly when the tree is empty ([root = 0]) or
    the descent ends on a leaf slot with another key; the tree it leaves is
    the tree it was given: the same root, the same pages, and no [new] or
    [del] call added to the log. *)
Lemma Delete_false_descent (fuel : nat) (t t' : BTree) (key : list byte) :
  Delete fuel t key = Ok (false, t') <->
  t' = t /\ (root t = 0 \/ Get fuel t key = Ok None).
Proof.
  unfold Delete, Get. split.
  - destruct (root t =? 0) eqn:Er.
    + intros H; inv_ok. apply Z.eqb_eq in Er. auto.
    + intros H; inv_ok. use_ok.
      match goal with H' : treeDelete _ _ _ _ = Ok (?u, _) |- _ =>
        destruct (blen u =? 0) eqn:Eb end.
      * inv_ok. apply Z.eqb_eq in Eb.
        match goal with H' : treeDelete _ _ _ _ = Ok _ |- _ =>
          destruct (treeDelete_not_found _ _ _ _ _ _ H' Eb) as [-> ->] end.
        auto.
      * exfalso. unfold install_root in H. inv_ok.
        repeat match goal with
        | H' : (if ?c then _ else _) = Ok _ |- _ => destruct c; inv_ok
        end; discriminate.
  - intros [-> [Hr | Hg]].
    + rewrite Hr. reflexivity.
    + destruct (root t =? 0); [reflexivity|].
      inv_ok. use_ok. rewrite (treeGet_None_treeDelete _ _ _ _ Hg). reflexivity.
Qed.

(** ** Fuel only bounds the height *)

Lemma treeGet_S fuel t node key :
  treeGet (S fuel) t node key =
    (do idx <- nodeLookUpLE node key;
     do ty <- btype node;
     if ty =? BNODE_LEAF then
       do k <- getKey node idx;
       if bytes_equal key k then do v <- getVal node idx; Ok (Some v)
       else Ok None
     else if ty =? BNODE_NODE then
       do p <- getPtr node idx;
       do kid <- tree_get t p;
       treeGet fuel t kid key
     else Panic).
Proof. reflexivity. Qed.

Lemma treeDelete_S fuel t node key :
  treeDelete (S fuel) t node key =
    (do idx <- nodeLookUpLE node key;
     do ty <- btype node;
     if ty =? BNODE_LEAF then
       do k <- getKey node idx;
       if negb (bytes_equal key k) then Ok (nil_node, t)
       else do new <- leafDelete (make (2 * BTREE_PAGE_SIZE)) node idx; Ok (new, t)
     else if ty =? BNODE_NODE then
       nodeDelete (treeDelete fuel) t node idx key
     else Panic).
Proof. reflexivity. Qed.

(** A result obtained with some fuel is the result with more fuel. *)
Lemma treeGet_fuel (fuel : nat) : forall t node key r,
  treeGet fuel t node key = Ok r -> treeGet (S fuel) t node key = Ok r.
Proof.
  induction fuel as [|fuel IH]; intros t node key r H; [discriminate|].
  rewrite treeGet_S in H. rewrite treeGet_S.
  apply bind_Ok in H. destruct H as (idx & E1 & H). rewrite E1. cbn [bind].
  apply bind_Ok in H. destruct H as (ty & E2 & H). rewrite E2. cbn [bind].
  destruct (ty =? BNODE_LEAF); [exact H|].
  destruct (ty =? BNODE_NODE); [|exact H].
  apply bind_Ok in H. destruct H as (p & E3 & H). rewrite E3. cbn [bind].
  apply bind_Ok in H. destruct H as (kid & E4 & H). rewrite E4. cbn [bind].
  apply IH. exact H.
Qed.

Lemma treeDelete_fuel (fuel : nat) : forall t node key r,
  treeDelete fuel t node key = Ok r -> treeDelete (S fuel) t node key = Ok r.
Proof.
  induction fuel as [|fuel IH]; intros t node key r H; [discriminate|].
  rewrite treeDelete_S in H. rewrite treeDelete_S.
  apply bind_Ok in H. destruct H as (idx & E1 & H). rewrite E1. cbn [bind].
  apply bind_Ok in H. destruct H as (ty & E2 & H). rewrite E2. cbn [bind].
  destruct (ty =? BNODE_LEAF); [exact H|].
  destruct (ty =? BNODE_NODE); [|exact H].
  unfold nodeDelete in H. unfold nodeDelete.
  apply bind_Ok in H. destruct H as (p & E3 & H). rewrite E3. cbn [bind].
  apply bind_Ok in H. destruct H as (kid & E4 & H). rewrite E4. cbn [bind].
  apply bind_Ok in H. destruct H as (u & E5 & H).
  rewrite (IH _ _ _ _ E5). cbn [bind]. exact H.
Qed.

Lemma Get_fuel (fuel : nat) (t : BTree) (key : list byte) r :
  Get fuel t key = Ok r -> Get (S fuel) t key = Ok r.
Proof.
  unfold Get. destruct (root t =? 0); [auto|]. intros H.
  apply bind_Ok in H. destruct H as (node & E & H). rewrite E. cbn [bind].
  apply treeGet_fuel. exact H.
Qed.

Lemma Delete_fuel (fuel : nat) (t : BTree) (key : list byte) r :
  Delete fuel t key = Ok r -> Delete (S fuel) t key = Ok r.
Proof.
  unfold Delete. destruct (root t =? 0); [auto|]. intros H.
  apply bind_Ok in H. destruct H as (node & E & H). rewrite E. cbn [bind].
  apply bind_Ok in H. destruct H as (u & E' & H).
  rewrite (treeDelete_fuel _ _ _ _ _ E'). cbn [bind]. exact H.
Qed.

(** ** The order of [bytes.Compare] *)

Lemma Z_of_byte_inj x y : Z_of_byte x = Z_of_byte y -> x = y.
Proof.
  unfold Z_of_byte. intros H. apply N2Z.inj in H.
  assert (Some x = Some y) as E by (rewrite <- !Byte.of_to_N; congruence).
  congruence.
Qed.

Lemma bytes_compare_refl a : bytes_compare a a = Eq.
Proof. induction a as [|x a IH]; simpl; [|rewrite Z.compare_refl]; auto. Qed.

Lemma bytes_compare_eq a : forall b, bytes_compare a b = Eq -> a = b.
Proof.
  induction a as [|x a IH]; intros [|y b]; simpl; try congruence.
  destruct (Z.compare_spec (Z_of_byte x) (Z_of_byte y)) as [E| |]; try congruence.
  intros H. apply Z_of_byte_inj in E. f_equal; auto.
Qed.

Lemma bytes_compare_antisym a : forall b,
  bytes_compare b a = CompOpp (bytes_compare a b).
Proof.
  induction a as [|x a IH]; intros [|y b]; simpl; auto.
  rewrite (Z.compare_antisym (Z_of_byte x) (Z_of_byte y)).
  destruct (Z_of_byte x ?= Z_of_byte y); simpl; auto.
Qed.

Lemma bytes_compare_trans a : forall b c,
  bytes_compare a b = Lt -> bytes_compare b c = Lt -> bytes_compare a c = Lt.
Proof.
  induction a as [|x a IH]; intros [|y b] [|z c]; simpl; try congruence.
  destruct (Z.compare_spec (Z_of_byte x) (Z_of_byte y)) as [E1|L1|G1];
    destruct (Z.compare_spec (Z_of_byte y) (Z_of_byte z)) as [E2|L2|G2];
    try congruence; intros H1 H2.
  - rewrite E1, E2, Z.compare_refl. eauto.
  - rewrite (proj2 (Z.compare_lt_iff _ _)) by lia. reflexivity.
  - rewrite (proj2 (Z.compare_lt_iff _ _)) by lia. reflexivity.
  - rewrite (proj2 (Z.compare_lt_iff _ _)) by lia. reflexivity.
Qed.

Lemma bytes_compare_gt a b : bytes_compare a b = Gt <-> bytes_compare b a = Lt.
Proof.
  rewrite (bytes_compare_antisym a b).
  destruct (bytes_compare a b); simpl; split; congruence.
Qed.

(** ** Keys of a node as a list *)

Lemma keys_from_spec node todo : forall i ks,
  keys_from node todo i = Ok ks ->
  length ks = todo /\
  forall j, (j < todo)%nat -> getKey node (i + Z.of_nat j) = Ok (nth j ks []).
Proof.
  induction todo as [|todo IH]; simpl; intros i ks H; inv_ok.
  - split; [reflexivity | intros j Hj; lia].
  - destruct (IH _ _ E0) as [Hl Hk]. split; [simpl; congruence|].
    intros [|j] Hj; cbn [nth].
    + rewrite Z.add_0_r. assumption.
    + replace (i + Z.of_nat (S j)) with (i + 1 + Z.of_nat j) by lia.
      apply Hk. lia.
Qed.

Lemma keys_spec node n ks :
  nkeys node = Ok n -> keys node = Ok ks ->
  length ks = Z.to_nat n /\
  forall j, 0 <= j < n -> getKey node j = Ok (nth (Z.to_nat j) ks []).
Proof.
  unfold keys. intros Hn H. rewrite Hn in H. cbn [bind] in H.
  destruct (keys_from_spec _ _ _ _ H) as [Hl Hk]. split; [assumption|].
  intros j Hj. specialize (Hk (Z.to_nat j)).
  rewrite Z2Nat.id in Hk by lia. apply Hk. lia.
Qed.

Lemma ascending_nth ks : ascending ks = true ->
  forall a b, (a < b < length ks)%nat ->
  bytes_compare (nth a ks []) (nth b ks []) = Lt.
Proof.
  induction ks as [|k ks IH]; simpl; intros H a b Hab; [lia|].
  destruct ks as [|k' ks']; [simpl in Hab; lia|].
  destruct (bytes_compare k k') eqn:E; try discriminate.
  destruct b as [|b]; [lia|].
  destruct a as [|a].
  - destruct b as [|b]; [exact E|].
    apply bytes_compare_trans with k'; [exact E|].
    apply (IH H 0%nat (S b)). simpl in *. lia.
  - apply (IH H a b). simpl in *. lia.
Qed.

(** ** [nodeLookUpLE] on ascending keys *)

Section LookUp.
Variables (node : BNode) (key : list byte) (n : Z) (K : Z -> list byte).
Hypothesis Hkey : forall j, 0 <= j < n -> getKey node j = Ok (K j).
Hypothesis Hasc : forall a b, 1 <= a < b -> b < n ->
  bytes_compare (K a) (K b) = Lt.

Lemma lookup_loop_spec (todo : nat) : forall i,
  1 <= i -> i + Z.of_nat todo = n ->
  cmp_le0 (bytes_compare (K (i - 1)) key) = true ->
  exists r, lookup_loop node key todo i (i - 1) = Ok r /\
    i - 1 <= r < n /\
    cmp_le0 (bytes_compare (K r) key) = true /\
    forall j, r < j < n -> bytes_compare (K j) key = Gt.
Proof.
  induction todo as [|todo IH]; intros i Hi Hto Hle; cbn [lookup_loop].
  - exists (i - 1). split; [reflexivity|]. split; [lia|].
    split; [assumption | intros j Hj; lia].
  - rewrite Hkey by lia. cbn [bind].
    destruct (bytes_compare (K i) key) eqn:E; cbn [cmp_le0 cmp_ge0].
    + exists i. split; [reflexivity|]. split; [lia|].
      split; [rewrite E; reflexivity|].
      intros j Hj. apply bytes_compare_eq in E. rewrite <- E.
      apply bytes_compare_gt. apply Hasc; lia.
    + destruct (IH (i + 1)) as (r & Hr & Hrange & Hrle & Hgt); try lia.
      { replace (i + 1 - 1) with i by lia. rewrite E. reflexivity. }
      replace (i + 1 - 1) with i in Hr by lia.
      exists r. split; [assumption|]. split; [lia|]. split; assumption.
    + exists (i - 1). split; [reflexivity|]. split; [lia|].
      split; [assumption|].
      intros j Hj. destruct (Z.eq_dec j i) as [->|Hne]; [assumption|].
      apply bytes_compare_gt. apply bytes_compare_gt in E.
      apply bytes_compare_trans with (K i); [assumption|]. apply Hasc; lia.
Qed.
End LookUp.

(** C7, amended: in a node of [n >= 1] keys that are strictly ascending from
    index 1 on and whose key 0 is at most [key], [nodeLookUpLE] returns the
    largest index whose key is at most [key]: the key there is at most
    [key] and every later key is greater.  An index from 1 on whose key
    equals [key] is the one returned, and 0 is returned when no key from
    index 1 on is at most [key]. *)
Theorem nodeLookUpLE_ascending (node : BNode) (key : list byte) (n : Z)
    (ks : list (list byte)) :
  nkeys node = Ok n -> 1 <= n ->
  keys node = Ok ks ->
  ascending (tl ks) = true ->
  cmp_le0 (bytes_compare (hd [] ks) key) = true ->
  exists i, nodeLookUpLE node key = Ok i /\
    0 <= i < n /\
    cmp_le0 (bytes_compare (nth (Z.to_nat i) ks []) key) = true /\
    (forall j, i < j < n -> bytes_compare (nth (Z.to_nat j) ks []) key = Gt) /\
    (forall j, 1 <= j < n -> nth (Z.to_nat j) ks [] = key -> i = j) /\
    ((forall j, 1 <= j < n ->
        cmp_le0 (bytes_compare (nth (Z.to_nat j) ks []) key) = false) -> i = 0).
Proof.
  intros Hn Hn1 Hks Hasc H0.
  destruct (keys_spec _ _ _ Hn Hks) as [Hlen Hkey].
  set (K := fun j => nth (Z.to_nat j) ks []).
  assert (HascK : forall a b, 1 <= a < b -> b < n ->
            bytes_compare (K a) (K b) = Lt).
  { intros a b Hab Hb. unfold K.
    destruct ks as [|k0 ks']; [simpl in Hlen; lia|]. simpl in Hasc.
    replace (Z.to_nat a) with (S (Z.to_nat (a - 1))) by lia.
    replace (Z.to_nat b) with (S (Z.to_nat (b - 1))) by lia.
    cbn [nth]. apply ascending_nth; [assumption|]. simpl in Hlen. lia. }
  destruct (lookup_loop_spec node key n K Hkey HascK (Z.to_nat (n - 1)) 1)
    as (r & Hr & Hrange & Hle & Hgt); try lia.
  { unfold K. simpl. destruct ks; assumption. }
  exists r. unfold nodeLookUpLE. rewrite Hn. cbn [bind].
  split; [exact Hr|]. split; [lia|]. split; [exact Hle|]. split; [exact Hgt|].
  split.
  - intros j Hj Hjk.
    destruct (Z.lt_trichotomy r j) as [Hlt | [Heq | Hlt]]; [|lia|].
    + specialize (Hgt j ltac:(lia)). unfold K in Hgt. rewrite Hjk in Hgt.
      rewrite bytes_compare_refl in Hgt. discriminate.
    + exfalso. specialize (HascK j r ltac:(lia) ltac:(lia)). unfold K in *.
      rewrite Hjk in HascK.
      apply bytes_compare_gt in HascK. rewrite HascK in Hle. discriminate.
  - intros Hnone. destruct (Z.eq_dec r 0) as [|Hne]; [assumption|].
    unfold K in Hle. rewrite (Hnone r) in Hle by lia. discriminate.
Qed.

(** ** Bytes of a backing array *)

Lemma len_nonneg {A : Type} (l : list A) : 0 <= len l.
Proof. unfold len. lia. Qed.

Lemma len_write bs pos src :
  0 <= pos -> pos + len src <= len bs -> len (write bs pos src) = len bs.
Proof.
  unfold len, write. intros H0 H1.
  rewrite !List.length_app, List.length_firstn, List.length_skipn. lia.
Qed.

Lemma byte_at_write bs pos src p :
  0 <= pos -> pos + len src <= len bs -> 0 <= p ->
  byte_at (write bs pos src) p =
    if (pos <=? p) && (p <? pos + len src) then byte_at src (p - pos)
    else byte_at bs p.
Proof.
  unfold len, write, byte_at. intros H0 H1 Hp.
  assert (Hf : length (firstn (Z.to_nat pos) bs) = Z.to_nat pos)
    by (rewrite List.length_firstn; lia).
  destruct (Z.leb_spec pos p) as [Hle|Hlt]; cbn [andb].
  - rewrite List.app_nth2 by lia. rewrite Hf.
    destruct (Z.ltb_spec p (pos + Z.of_nat (length src))) as [Hin|Hout].
    + rewrite List.app_nth1 by lia. f_equal. lia.
    + rewrite List.app_nth2 by lia. rewrite List.nth_skipn. f_equal. lia.
  - rewrite List.app_nth1 by lia. rewrite List.nth_firstn.
    destruct (Nat.ltb_spec (Z.to_nat p) (Z.to_nat pos)); [reflexivity | lia].
Qed.

Lemma byte_at_write_out bs pos src p :
  0 <= pos -> pos + len src <= len bs -> 0 <= p ->
  p < pos \/ pos + len src <= p ->
  byte_at (write bs pos src) p = byte_at bs p.
Proof.
  intros H0 H1 Hp Hout. rewrite byte_at_write by assumption.
  destruct (Z.leb_spec pos p), (Z.ltb_spec p (pos + len src));
    cbn [andb]; try reflexivity; lia.
Qed.

Lemma byte_at_write_in bs pos src p :
  0 <= pos -> pos + len src <= len bs -> pos <= p < pos + len src ->
  byte_at (write bs pos src) p = byte_at src (p - pos).
Proof.
  intros H0 H1 Hin. rewrite byte_at_write by lia.
  destruct (Z.leb_spec pos p), (Z.ltb_spec p (pos + len src));
    cbn [andb]; try reflexivity; lia.
Qed.

Lemma byte_at_sub bs lo hi p :
  0 <= lo -> 0 <= p < hi - lo -> byte_at (sub bs lo hi) p = byte_at bs (lo + p).
Proof.
  unfold sub, byte_at. intros H0 Hp. rewrite List.nth_firstn, List.nth_skipn.
  destruct (Nat.ltb_spec (Z.to_nat p) (Z.to_nat (hi - lo))); [|lia].
  f_equal. lia.
Qed.

Lemma len_sub bs lo hi :
  0 <= lo <= hi -> hi <= len bs -> len (sub bs lo hi) = hi - lo.
Proof.
  unfold sub, len. intros H0 H1.
  rewrite List.length_firstn, List.length_skipn. lia.
Qed.

Lemma bytes_ext (a b : list byte) :
  len a = len b -> (forall p, 0 <= p < len a -> byte_at a p = byte_at b p) ->
  a = b.
Proof.
  unfold len, byte_at. intros Hl H. apply (List.nth_ext a b x00 x00); [lia|].
  intros n Hn. specialize (H (Z.of_nat n)). rewrite Nat2Z.id in H. apply H. lia.
Qed.

(** ** Little-endian fields *)

Lemma Z_of_byte_range b : 0 <= Z_of_byte b < 256.
Proof.
  unfold Z_of_byte. pose proof (Byte.to_N_bounded b) as H. lia.
Qed.

Lemma Z_of_byte_of_Z z : Z_of_byte (byte_of_Z z) = z mod 256.
Proof.
  unfold Z_of_byte, byte_of_Z.
  pose proof (Z.mod_pos_bound z 256 ltac:(lia)) as Hr.
  destruct (Byte.of_N (Z.to_N (z mod 256))) as [b|] eqn:E.
  - apply Byte.to_of_N in E. rewrite E. lia.
  - apply Byte.of_N_None_iff in E. lia.
Qed.

Lemma u16_range bs p : 0 <= u16 bs p < 65536.
Proof.
  unfold u16. pose proof (Z_of_byte_range (byte_at bs p)).
  pose proof (Z_of_byte_range (byte_at bs (p + 1))). lia.
Qed.

Lemma le_decode_sub16 bs p :
  0 <= p -> p + 2 <= len bs -> le_decode (sub bs p (p + 2)) = u16 bs p.
Proof.
  intros H0 H1.
  assert (Hl : len (sub bs p (p + 2)) = 2) by (rewrite len_sub; lia).
  pose proof (byte_at_sub bs p (p + 2) 0 H0 ltac:(lia)) as B0.
  pose proof (byte_at_sub bs p (p + 2) 1 H0 ltac:(lia)) as B1.
  unfold u16. replace (p + 0) with p in B0 by lia. rewrite <- B0, <- B1.
  unfold len in Hl.
  destruct (sub bs p (p + 2)) as [|b0 [|b1 [|b2 l]]]; simpl in Hl; try lia.
  unfold byte_at. simpl. lia.
Qed.

Lemma len_le_encode w v : len (le_encode w v) = Z.of_nat w.
Proof.
  unfold len. revert v.
  induction w as [|w IH]; intros v; cbn [le_encode length]; [reflexivity|].
  specialize (IH (v / 256)). lia.
Qed.

Lemma u16_le_encode v : u16 (le_encode 2 v) 0 = wrap16 v.
Proof.
  unfold u16, byte_at, wrap16. simpl. rewrite !Z_of_byte_of_Z.
  pose proof (Z.div_mod v 256 ltac:(lia)).
  pose proof (Z.mod_pos_bound v 256 ltac:(lia)).
  pose proof (Z.mod_pos_bound (v / 256) 256 ltac:(lia)).
  pose proof (Z.div_mod (v / 256) 256 ltac:(lia)).
  pose proof (Z.mod_pos_bound v 65536 ltac:(lia)).
  pose proof (Z.div_mod v 65536 ltac:(lia)).
  lia.
Qed.

Lemma u16_write_same bs pos v :
  0 <= pos -> pos + 2 <= len bs ->
  u16 (write bs pos (le_encode 2 v)) pos = wrap16 v.
Proof.
  intros H0 H1. rewrite <- u16_le_encode. unfold u16.
  rewrite !byte_at_write_in by (rewrite ?len_le_encode; lia).
  repeat f_equal; lia.
Qed.

Lemma u16_write_other bs pos src q :
  0 <= pos -> pos + len src <= len bs -> 0 <= q ->
  q + 2 <= pos \/ pos + len src <= q ->
  u16 (write bs pos src) q = u16 bs q.
Proof.
  intros H0 H1 Hq Hout. unfold u16.
  rewrite !byte_at_write_out by lia. reflexivity.
Qed.

(** ** Accessors as views of the bytes *)

Lemma assert_true c : c = true -> assert c = Ok tt.
Proof. intros ->. reflexivity. Qed.

Lemma wrap16_small z : 0 <= z < 65536 -> wrap16 z = z.
Proof. unfold wrap16. apply Z.mod_small. Qed.

Lemma wrap16_range z : 0 <= wrap16 z < 65536.
Proof. unfold wrap16. apply Z.mod_pos_bound. lia. Qed.

(** Discharge the bounds checks of the goal with [lia]. *)
Ltac checks :=
  repeat (rewrite assert_true by (rewrite ?andb_true_iff, ?Z.leb_le, ?Z.ltb_lt; lia);
          cbn [bind]).

Lemma bcap_len node : bcap node = len (bytes node).
Proof. reflexivity. Qed.

Lemma nkeys_eq node :
  4 <= bcap node -> nkeys node = Ok (u16 (bytes node) 2).
Proof.
  intros H. unfold nkeys, slice. checks.
  change 4 with (2 + 2) at 1.
  rewrite (le_decode_sub16 (bytes node) 2) by (rewrite <- ?bcap_len; lia).
  reflexivity.
Qed.

Lemma btype_eq node :
  2 <= bcap node -> btype node = Ok (u16 (bytes node) 0).
Proof.
  intros H. unfold btype, slice. checks.
  change 2 with (0 + 2) at 1.
  rewrite (le_decode_sub16 (bytes node) 0) by (rewrite <- ?bcap_len; lia).
  reflexivity.
Qed.

Lemma nkeys_inv node n :
  nkeys node = Ok n -> 4 <= bcap node /\ n = u16 (bytes node) 2.
Proof.
  intros H. assert (4 <= bcap node).
  { unfold nkeys, slice in H.
    destruct (Z.leb_spec 4 (bcap node)); [assumption|].
    discriminate. }
  split; [assumption|]. rewrite nkeys_eq in H by assumption. congruence.
Qed.

Lemma get16_eq node p :
  0 <= p -> p + 2 <= blen node -> blen node <= bcap node ->
  get16 node p = Ok (u16 (bytes node) p).
Proof.
  intros H0 H1 H2. unfold get16. checks.
  rewrite le_decode_sub16 by (rewrite <- ?bcap_len; lia). reflexivity.
Qed.

Lemma getOffset_eq node n i :
  nkeys node = Ok n -> 0 <= i <= n ->
  4 + 10 * n <= blen node -> blen node <= bcap node -> 4 + 10 * n <= 65536 ->
  getOffset node i = Ok (off (bytes node) n i).
Proof.
  intros Hn Hi H1 H2 H3. unfold getOffset, off.
  destruct (Z.eqb_spec i 0); [reflexivity|].
  unfold offsetPos, HEADER. rewrite Hn. cbn [bind]. checks.
  rewrite wrap16_small by lia. apply get16_eq; lia.
Qed.

Lemma kvPos_eq node n i :
  nkeys node = Ok n -> 0 <= i <= n ->
  4 + 10 * n <= blen node -> blen node <= bcap node ->
  4 + 10 * n + off (bytes node) n i < 65536 ->
  kvPos node i = Ok (4 + 10 * n + off (bytes node) n i).
Proof.
  intros Hn Hi H1 H2 H3. unfold kvPos, HEADER. rewrite Hn. cbn [bind]. checks.
  assert (0 <= off (bytes node) n i).
  { unfold off. destruct (i =? 0); [lia|]. apply u16_range. }
  rewrite (getOffset_eq node n i) by (try assumption; lia). cbn [bind].
  rewrite wrap16_small by lia. f_equal. lia.
Qed.

Lemma getPtr_ok node n idx :
  nkeys node = Ok n -> 0 <= idx < n -> 4 + 8 * n <= bcap node ->
  4 + 8 * n <= 65536 ->
  exists v, getPtr node idx = Ok v.
Proof.
  intros Hn Hi H1 H2. unfold getPtr, HEADER, slice. rewrite Hn. cbn [bind]. checks.
  rewrite !wrap16_small by (rewrite ?wrap16_small; lia). checks. eauto.
Qed.

(** ** Writers as [write]s *)

Lemma setHeader_eq node ty n :
  4 <= bcap node ->
  setHeader node ty n =
    Ok (mkBNode (write (write (bytes node) 0 (le_encode 2 ty)) 2 (le_encode 2 n))
                (blen node)).
Proof.
  intros H. unfold setHeader. checks.
  rewrite assert_true; [reflexivity|].
  unfold bcap. cbn [bytes]. fold (len (write (bytes node) 0 (le_encode 2 ty))).
  rewrite len_write by (rewrite ?len_le_encode; rewrite <- ?bcap_len; lia).
  rewrite <- bcap_len. apply Z.leb_le. lia.
Qed.

Lemma setPtr_eq node n idx v :
  nkeys node = Ok n -> 0 <= idx < n -> 4 + 8 * n <= bcap node ->
  4 + 8 * n <= 65536 ->
  setPtr node idx v =
    Ok (mkBNode (write (bytes node) (4 + 8 * idx) (le_encode 8 v)) (blen node)).
Proof.
  intros Hn Hi H1 H2. unfold setPtr, HEADER, slice. rewrite Hn. cbn [bind]. checks.
  rewrite !wrap16_small by (rewrite ?wrap16_small; lia). checks. reflexivity.
Qed.

Lemma setOffset_eq node n idx v :
  nkeys node = Ok n -> 1 <= idx <= n ->
  4 + 10 * n <= blen node -> 4 + 10 * n <= 65536 ->
  setOffset node idx v =
    Ok (mkBNode (write (bytes node) (4 + 8 * n + 2 * (idx - 1)) (le_encode 2 v))
                (blen node)).
Proof.
  intros Hn Hi H1 H2. unfold setOffset, offsetPos, put16, HEADER.
  rewrite Hn. cbn [bind]. checks.
  rewrite !wrap16_small by lia. checks. reflexivity.
Qed.

(** ** Frames: what a sequence of writes leaves alone *)

Lemma touched_refl R node : touched R node node.
Proof. unfold touched. auto. Qed.

Lemma touched_trans R1 R2 R a b c :
  touched R1 a b -> touched R2 b c ->
  (forall p, R1 p -> R p) -> (forall p, R2 p -> R p) ->
  touched R a c.
Proof.
  intros (B1 & L1 & F1) (B2 & L2 & F2) H1 H2.
  split; [congruence|]. split; [congruence|].
  intros p Hp HR. rewrite F2, F1; auto.
Qed.

Lemma touched_write node pos src :
  0 <= pos -> pos + len src <= len (bytes node) ->
  touched (ival pos (pos + len src)) node
          (mkBNode (write (bytes node) pos src) (blen node)).
Proof.
  intros H0 H1. split; [reflexivity|]. cbn [bytes]. split.
  - apply len_write; assumption.
  - intros p Hp HR. apply byte_at_write_out; try assumption.
    unfold ival in HR. lia.
Qed.

Lemma touched_bcap R a b : touched R a b -> bcap b = bcap a.
Proof. intros (_ & L & _). exact L. Qed.

Lemma touched_u16 R a b q :
  touched R a b -> 0 <= q -> ~ R q -> ~ R (q + 1) ->
  u16 (bytes b) q = u16 (bytes a) q.
Proof.
  intros (_ & _ & F) Hq H0 H1. unfold u16. rewrite !F by (assumption || lia).
  reflexivity.
Qed.

Lemma touched_nkeys R a b n :
  touched R a b -> (forall p, R p -> 4 <= p) ->
  nkeys a = Ok n -> nkeys b = Ok n.
Proof.
  intros T HR Hn. apply nkeys_inv in Hn as [Hc ->].
  rewrite nkeys_eq by (rewrite (touched_bcap _ _ _ T); assumption).
  f_equal. apply (touched_u16 R); try assumption; try lia.
  - intros H. apply HR in H. lia.
  - intros H. apply HR in H. lia.
Qed.

Lemma touched_btype R a b ty :
  touched R a b -> (forall p, R p -> 4 <= p) ->
  nkeys a = Ok ty -> btype a = btype b.
Proof.
  intros T HR Hn. apply nkeys_inv in Hn as [Hc _].
  rewrite !btype_eq by (rewrite ?(touched_bcap _ _ _ T); lia).
  f_equal. symmetry. apply (touched_u16 R); try assumption; try lia.
  - intros H. apply HR in H. lia.
  - intros H. apply HR in H. lia.
Qed.

(** ** The loops of [nodeAppendRange] *)

Lemma copy_ptrs_spec old on nn dst src todo : forall i new,
  nkeys old = Ok on -> 4 + 8 * on <= bcap old -> 4 + 8 * on <= 65536 ->
  nkeys new = Ok nn -> 4 + 8 * nn <= bcap new -> 4 + 8 * nn <= 65536 ->
  0 <= src -> 0 <= dst -> 0 <= i ->
  src + i + Z.of_nat todo <= on -> dst + i + Z.of_nat todo <= nn ->
  exists new', copy_ptrs new old dst src todo i = Ok new' /\
    touched (ival (4 + 8 * (dst + i)) (4 + 8 * (dst + i + Z.of_nat todo)))
            new new'.
Proof.
  induction todo as [|todo IH]; intros i new Ho Hoc Hos Hn Hnc Hns H0 H1 H2 H3 H4;
    cbn [copy_ptrs].
  - exists new. split; [reflexivity | apply touched_refl].
  - rewrite !wrap16_small by lia.
    destruct (getPtr_ok old on (src + i)) as [v Hv]; try assumption; try lia.
    rewrite Hv. cbn [bind].
    rewrite (setPtr_eq new nn (dst + i) v) by (assumption || lia). cbn [bind].
    set (new1 := mkBNode _ _).
    assert (T1 : touched (ival (4 + 8 * (dst + i)) (4 + 8 * (dst + i) + 8)) new new1).
    { apply (touched_write new (4 + 8 * (dst + i)) (le_encode 8 v)).
      - lia.
      - rewrite len_le_encode, <- bcap_len. lia. }
    destruct (IH (i + 1) new1) as (new' & Hr & T2); try assumption; try lia.
    + apply (touched_nkeys _ new new1 nn T1); [unfold ival; intros; lia | assumption].
    + rewrite (touched_bcap _ _ _ T1). assumption.
    + exists new'. split; [assumption|].
      eapply touched_trans; [exact T1 | exact T2 | |]; unfold ival; intros; lia.
Qed.

Lemma copy_offsets_spec old on nn dst src dB sB todo : forall i new,
  nkeys old = Ok on -> 4 + 10 * on <= blen old -> blen old <= bcap old ->
  4 + 10 * on <= 65536 ->
  nkeys new = Ok nn -> 4 + 10 * nn <= blen new -> blen new <= bcap new ->
  4 + 10 * nn <= 65536 ->
  0 <= src -> 0 <= dst -> 1 <= i ->
  src + i + Z.of_nat todo <= on + 1 -> dst + i + Z.of_nat todo <= nn + 1 ->
  exists new', copy_offsets new old dst src dB sB todo i = Ok new' /\
    touched (ival (4 + 8 * nn + 2 * (dst + i - 1))
                  (4 + 8 * nn + 2 * (dst + i + Z.of_nat todo - 1))) new new' /\
    forall j, i <= j < i + Z.of_nat todo ->
      off (bytes new') nn (dst + j) =
        wrap16 (dB + wrap16 (off (bytes old) on (src + j) - sB)).
Proof.
  induction todo as [|todo IH];
    intros i new Ho Hol Hoc Hos Hn Hnl Hnc Hns H0 H1 H2 H3 H4; cbn [copy_offsets].
  - exists new. split; [reflexivity|]. split; [apply touched_refl|]. intros j Hj; lia.
  - rewrite !wrap16_small by lia.
    rewrite (getOffset_eq old on (src + i)) by (assumption || lia). cbn [bind].
    set (v := wrap16 (dB + wrap16 (off (bytes old) on (src + i) - sB))).
    rewrite (setOffset_eq new nn (dst + i) v) by (assumption || lia). cbn [bind].
    set (pos := 4 + 8 * nn + 2 * (dst + i - 1)).
    set (new1 := mkBNode _ _).
    assert (T1 : touched (ival pos (pos + 2)) new new1).
    { apply (touched_write new pos (le_encode 2 v)).
      - unfold pos. lia.
      - rewrite len_le_encode, <- bcap_len. unfold pos. lia. }
    assert (Hn1 : nkeys new1 = Ok nn).
    { apply (touched_nkeys _ new new1 nn T1); [|assumption].
      unfold ival, pos; intros; lia. }
    destruct (IH (i + 1) new1) as (new' & Hr & T2 & Hv); try assumption; try lia.
    + rewrite (touched_bcap _ _ _ T1). unfold new1. cbn [blen]. assumption.
    + exists new'. split; [assumption|]. split.
      * eapply touched_trans; [exact T1 | exact T2 | |];
          unfold ival, pos; intros; lia.
      * intros j Hj. destruct (Z.eq_dec j i) as [->|Hne].
        -- fold v. unfold off. destruct (Z.eqb_spec (dst + i) 0); [lia|]. fold pos.
           rewrite (touched_u16 _ new1 new' pos T2); try (unfold ival, pos; lia).
           unfold new1. cbn [bytes].
           rewrite u16_write_same; unfold pos; try lia.
           ++ unfold v. apply wrap16_small, wrap16_range.
           ++ rewrite <- bcap_len. lia.
        -- apply Hv. lia.
Qed.

(** ** Layout of a node *)

Lemma off_nonneg bs n i : 0 <= off bs n i.
Proof. unfold off. destruct (i =? 0); [lia | apply u16_range]. Qed.

Lemma u16_nonneg bs p : 0 <= u16 bs p.
Proof. apply u16_range. Qed.

Lemma layout_n node n : layout node n -> 0 <= n.
Proof.
  intros L. destruct (nkeys_inv _ _ (lay_nkeys _ _ L)) as [_ ->]. apply u16_range.
Qed.

Lemma len_firstn_le {A : Type} (k : Z) (l : list A) :
  0 <= k -> len (firstn (Z.to_nat k) l) <= k /\ len (firstn (Z.to_nat k) l) <= len l.
Proof. unfold len. intros H. rewrite List.length_firstn. lia. Qed.

Lemma nodeAppendRange_spec new old nn on dst src n :
  layout old on -> 0 <= src -> 0 <= n -> src + n <= on ->
  nkeys new = Ok nn -> 0 <= dst -> dst + n <= nn ->
  4 + 10 * nn <= blen new -> blen new <= bcap new -> blen new < 65536 ->
  (n <> 0 -> 4 + 10 * nn + off (bytes new) nn dst <= blen new) ->
  exists new', nodeAppendRange new old dst src n = Ok new' /\
    touched (range_region nn dst n (off (bytes new) nn dst)
               (off (bytes old) on (src + n) - off (bytes old) on src))
            new new' /\
    forall j, 1 <= j <= n ->
      off (bytes new') nn (dst + j) =
        wrap16 (off (bytes new) nn dst +
                wrap16 (off (bytes old) on (src + j) - off (bytes old) on src)).
Proof.
  intros L Hs Hn Hsn Hnn Hd Hdn Hl Hc Hsm Hkv.
  pose proof (layout_n _ _ L) as Hon.
  destruct L as [Hok Hoc Hsz Hsmall Hmono].
  pose proof (off_nonneg (bytes old) on on) as Hoff.
  unfold nodeAppendRange. rewrite Hok, Hnn. cbn [bind].
  rewrite !wrap16_small by lia. checks.
  destruct (Z.eqb_spec n 0) as [->|Hn0].
  { exists new. split; [reflexivity|]. split; [apply touched_refl|]. intros j Hj; lia. }
  specialize (Hkv Hn0).
  set (d := off (bytes new) nn dst) in *.
  assert (Hd0 : 0 <= d) by apply off_nonneg.
  (* the pointers *)
  destruct (copy_ptrs_spec old on nn dst src (Z.to_nat n) 0 new)
    as (new1 & E1 & T1); try assumption; try lia.
  rewrite E1. cbn [bind]. rewrite Z.add_0_r, Z2Nat.id in T1 by lia.
  assert (Hn1 : nkeys new1 = Ok nn).
  { apply (touched_nkeys _ _ _ _ T1); [unfold ival; intros; lia | assumption]. }
  assert (Hb1 : blen new1 = blen new) by apply T1.
  assert (Hc1 : bcap new1 = bcap new) by apply (touched_bcap _ _ _ T1).
  assert (Hd1 : off (bytes new1) nn dst = d).
  { unfold d, off. destruct (Z.eqb_spec dst 0); [reflexivity|].
    apply (touched_u16 _ _ _ _ T1); unfold ival; lia. }
  rewrite (getOffset_eq new1 nn dst) by (assumption || lia). cbn [bind].
  rewrite Hd1.
  rewrite (getOffset_eq old on src) by (assumption || lia). cbn [bind].
  (* the offsets *)
  destruct (copy_offsets_spec old on nn dst src d (off (bytes old) on src)
              (Z.to_nat n) 1 new1)
    as (new2 & E2 & T2 & V2); try assumption; try lia.
  rewrite E2. cbn [bind]. rewrite Z2Nat.id in T2, V2 by lia.
  assert (Hn2 : nkeys new2 = Ok nn).
  { apply (touched_nkeys _ _ _ _ T2); [unfold ival; intros; lia | assumption]. }
  assert (Hb2 : blen new2 = blen new) by (destruct T2 as [-> _]; assumption).
  assert (Hc2 : bcap new2 = bcap new)
    by (rewrite (touched_bcap _ _ _ T2); assumption).
  assert (Hd2 : off (bytes new2) nn dst = d).
  { rewrite <- Hd1. unfold off. destruct (Z.eqb_spec dst 0); [reflexivity|].
    apply (touched_u16 _ _ _ _ T2); unfold ival; lia. }
  destruct (Z.eqb_spec n 65535); [lia|]. cbn [bind].
  (* the entries *)
  pose proof (Hmono src (src + n) ltac:(lia) ltac:(lia)) as Hm1.
  pose proof (Hmono (src + n) on ltac:(lia) ltac:(lia)) as Hm2.
  pose proof (off_nonneg (bytes old) on src) as Hm0.
  rewrite (kvPos_eq old on src) by (assumption || lia). cbn [bind].
  rewrite (kvPos_eq old on (src + n)) by (assumption || lia). cbn [bind].
  rewrite (kvPos_eq new2 nn dst) by (assumption || lia). cbn [bind].
  rewrite Hd2. unfold slice, copy_at. checks.
  set (data := firstn _ _).
  set (new3 := mkBNode _ _).
  assert (Hdata : len data <= off (bytes old) on (src + n) - off (bytes old) on src
                  /\ len data <= blen new2 - (4 + 10 * nn + d)).
  { unfold data.
    destruct (len_firstn_le (blen new2 - (4 + 10 * nn + d))
                (sub (bytes old) (4 + 10 * on + off (bytes old) on src)
                     (4 + 10 * on + off (bytes old) on (src + n)))) as [A B]; [lia|].
    rewrite len_sub in B by (rewrite <- ?bcap_len; lia). lia. }
  assert (T3 : touched (ival (4 + 10 * nn + d) (4 + 10 * nn + d + len data)) new2 new3).
  { apply (touched_write new2 (4 + 10 * nn + d) data); [lia|].
    rewrite <- bcap_len. lia. }
  exists new3. split; [reflexivity|]. split.
  - destruct T1 as (B1 & L1 & F1), T2 as (B2 & L2 & F2), T3 as (B3 & L3 & F3).
    split; [congruence|]. split; [congruence|].
    intros p Hp HR. unfold range_region, ival in *.
    rewrite F3, F2, F1 by lia. reflexivity.
  - intros j Hj. rewrite <- (V2 j) by lia.
    unfold off. destruct (Z.eqb_spec (dst + j) 0); [reflexivity|].
    apply (touched_u16 _ _ _ _ T3); unfold ival; lia.
Qed.

(** ** Reading back what was written *)

Lemma sub_write_same bs pos src :
  0 <= pos -> pos + len src <= len bs ->
  sub (write bs pos src) pos (pos + len src) = src.
Proof.
  intros H0 H1. pose proof (len_nonneg src) as Hs.
  assert (Hl : len (sub (write bs pos src) pos (pos + len src)) = len src).
  { rewrite len_sub; rewrite ?len_write; lia. }
  apply bytes_ext; [assumption|]. intros p Hp.
  rewrite byte_at_sub by lia. rewrite byte_at_write_in by lia.
  f_equal. lia.
Qed.

Lemma sub_ext a b lo hi :
  0 <= lo <= hi -> hi <= len a -> hi <= len b ->
  (forall p, lo <= p < hi -> byte_at a p = byte_at b p) ->
  sub a lo hi = sub b lo hi.
Proof.
  intros H0 Ha Hb H. apply bytes_ext.
  - rewrite !len_sub by lia. reflexivity.
  - intros p Hp. rewrite len_sub in Hp by lia.
    rewrite !byte_at_sub by lia. apply H. lia.
Qed.

Lemma touched_sub R a b lo hi :
  touched R a b -> 0 <= lo <= hi -> hi <= len (bytes a) ->
  (forall p, lo <= p < hi -> ~ R p) ->
  sub (bytes b) lo hi = sub (bytes a) lo hi.
Proof.
  intros (_ & L & F) H0 H1 HR. apply sub_ext; try lia.
  intros p Hp. apply F; [lia | apply HR; assumption].
Qed.

Lemma firstn_fits {A : Type} (k : Z) (l : list A) :
  len l <= k -> firstn (Z.to_nat k) l = l.
Proof. unfold len. intros H. apply firstn_all2. lia. Qed.

Lemma touched_off R a b nn i :
  touched R a b -> 0 <= nn -> 0 <= i ->
  (i <> 0 ->
   forall p, 4 + 8 * nn + 2 * (i - 1) <= p < 4 + 8 * nn + 2 * i -> ~ R p) ->
  off (bytes b) nn i = off (bytes a) nn i.
Proof.
  intros T Hn Hi HR. unfold off. destruct (Z.eqb_spec i 0); [reflexivity|].
  apply (touched_u16 _ _ _ _ T); [lia | apply HR; lia | apply HR; lia].
Qed.

(** A single write, as a frame. *)
Lemma write_step node n pos src :
  nkeys node = Ok n -> 4 <= pos -> pos + len src <= bcap node ->
  let node' := mkBNode (write (bytes node) pos src) (blen node) in
  nkeys node' = Ok n /\ bcap node' = bcap node /\
  touched (ival pos (pos + len src)) node node'.
Proof.
  intros Hn Hp Hc node'.
  assert (T : touched (ival pos (pos + len src)) node node').
  { apply touched_write; [lia | rewrite <- bcap_len; assumption]. }
  split; [|split; [|exact T]].
  - apply (touched_nkeys _ _ _ _ T); [unfold ival; intros; lia | assumption].
  - apply (touched_bcap _ _ _ T).
Qed.

(** ** [nodeAppendKV] *)

Lemma nodeAppendKV_spec new nn idx ptr key val :
  nkeys new = Ok nn -> 0 <= idx < nn ->
  4 + 10 * nn <= blen new -> blen new <= bcap new -> blen new < 65536 ->
  4 + 10 * nn + off (bytes new) nn idx + 4 + len key + len val <= blen new ->
  exists new', nodeAppendKV new idx ptr key val = Ok new' /\
    touched (range_region nn idx 1 (off (bytes new) nn idx)
               (4 + len key + len val)) new new' /\
    off (bytes new') nn (idx + 1) = off (bytes new) nn idx + 4 + len key + len val /\
    let kv := 4 + 10 * nn + off (bytes new) nn idx in
    u16 (bytes new') kv = len key /\
    u16 (bytes new') (kv + 2) = len val /\
    sub (bytes new') (kv + 4) (kv + 4 + len key) = key /\
    sub (bytes new') (kv + 4 + len key) (kv + 4 + len key + len val) = val.
Proof.
  intros Hn Hi Hl Hc Hs Hfit.
  set (d := off (bytes new) nn idx) in *.
  set (kv := 4 + 10 * nn + d) in *.
  pose proof (off_nonneg (bytes new) nn idx) as Hd. fold d in Hd.
  pose proof (len_nonneg key) as Hk. pose proof (len_nonneg val) as Hv.
  unfold nodeAppendKV.
  (* pointer *)
  rewrite (setPtr_eq new nn idx ptr) by (assumption || lia). cbn [bind].
  destruct (write_step new nn (4 + 8 * idx) (le_encode 8 ptr) Hn)
    as (N1 & C1 & T1); [lia | rewrite len_le_encode; lia |].
  rewrite len_le_encode in T1.
  set (n1 := mkBNode _ _) in *.
  assert (D1 : off (bytes n1) nn idx = d).
  { apply (touched_off _ _ _ _ _ T1); try lia. unfold ival. intros; lia. }
  rewrite (kvPos_eq n1 nn idx)
    by (try assumption; rewrite ?D1, ?C1; change (blen n1) with (blen new); lia).
  cbn [bind]. rewrite D1. fold kv.
  (* lengths *)
  unfold put16, copy_at. rewrite !wrap16_small by lia.
  change (blen n1) with (blen new). checks.
  destruct (write_step n1 nn kv (le_encode 2 (len key)) N1)
    as (N2 & C2 & T2); [lia | rewrite len_le_encode; lia |].
  rewrite len_le_encode in T2. change (blen n1) with (blen new) in *.
  set (n2 := mkBNode (write (bytes n1) kv _) _) in *.
  change (blen n2) with (blen new). checks.
  destruct (write_step n2 nn (kv + 2) (le_encode 2 (len val)) N2)
    as (N3 & C3 & T3); [lia | rewrite len_le_encode; lia |].
  rewrite len_le_encode in T3. change (blen n2) with (blen new) in *.
  set (n3 := mkBNode (write (bytes n2) (kv + 2) _) _) in *.
  (* key and value *)
  change (blen n3) with (blen new). checks.
  rewrite (firstn_fits (blen new - (kv + 4)) key) by lia.
  destruct (write_step n3 nn (kv + 4) key N3) as (N4 & C4 & T4); [lia | lia |].
  change (blen n3) with (blen new) in *.
  set (n4 := mkBNode (write (bytes n3) (kv + 4) key) _) in *.
  change (blen n4) with (blen new). checks.
  rewrite (firstn_fits (blen new - (kv + 4 + len key)) val) by lia.
  destruct (write_step n4 nn (kv + 4 + len key) val N4) as (N5 & C5 & T5); [lia | lia |].
  change (blen n4) with (blen new) in *.
  set (n5 := mkBNode (write (bytes n4) (kv + 4 + len key) val) _) in *.
  assert (B5 : blen n5 = blen new) by reflexivity.
  (* next offset *)
  assert (D5 : off (bytes n5) nn idx = d).
  { rewrite <- D1. unfold off. destruct (Z.eqb_spec idx 0); [reflexivity|].
    rewrite (touched_u16 _ _ _ _ T5), (touched_u16 _ _ _ _ T4),
      (touched_u16 _ _ _ _ T3), (touched_u16 _ _ _ _ T2);
      unfold ival; lia. }
  rewrite (getOffset_eq n5 nn idx) by (try assumption; lia).
  cbn [bind]. rewrite D5.
  rewrite !wrap16_small by lia.
  replace (d + 4 + (len key + len val)) with (d + 4 + len key + len val) by lia.
  rewrite (setOffset_eq n5 nn (idx + 1)) by (try assumption; lia).
  replace (4 + 8 * nn + 2 * (idx + 1 - 1)) with (4 + 8 * nn + 2 * idx) by lia.
  set (o' := d + 4 + len key + len val).
  destruct (write_step n5 nn (4 + 8 * nn + 2 * idx) (le_encode 2 o') N5)
    as (N6 & C6 & T6); [lia | rewrite len_le_encode; lia |].
  rewrite len_le_encode in T6. rewrite B5 in *.
  set (n6 := mkBNode (write (bytes n5) (4 + 8 * nn + 2 * idx) _) _) in *.
  exists n6. split; [reflexivity|].
  assert (Hl5 : len (bytes n5) = len (bytes new)).
  { rewrite <- !bcap_len. congruence. }
  pose proof (bcap_len new) as Hcl.
  split; [|split; [|cbn zeta; split; [|split; [|split]]]].
  - destruct T1 as (_ & L1 & F1), T2 as (_ & L2 & F2), T3 as (_ & L3 & F3),
      T4 as (_ & L4 & F4), T5 as (_ & L5 & F5), T6 as (_ & L6 & F6).
    split; [reflexivity|]. split; [congruence|].
    intros p Hp HR. unfold range_region, ival in *. fold d in HR. fold kv in HR.
    rewrite F6, F5, F4, F3, F2, F1 by lia. reflexivity.
  - unfold off. destruct (Z.eqb_spec (idx + 1) 0); [lia|].
    replace (4 + 8 * nn + 2 * (idx + 1 - 1)) with (4 + 8 * nn + 2 * idx) by lia.
    unfold n6. cbn [bytes]. rewrite u16_write_same by lia.
    apply wrap16_small. unfold o'. lia.
  - rewrite (touched_u16 _ _ _ _ T6), (touched_u16 _ _ _ _ T5),
      (touched_u16 _ _ _ _ T4), (touched_u16 _ _ _ _ T3); unfold ival; try lia.
    unfold n2. cbn [bytes]. rewrite u16_write_same by (rewrite <- ?bcap_len; lia).
    apply wrap16_small. lia.
  - rewrite (touched_u16 _ _ _ _ T6), (touched_u16 _ _ _ _ T5),
      (touched_u16 _ _ _ _ T4); unfold ival; try lia.
    unfold n3. cbn [bytes]. rewrite u16_write_same by (rewrite <- ?bcap_len; lia).
    apply wrap16_small. lia.
  - rewrite (touched_sub _ _ _ _ _ T6), (touched_sub _ _ _ _ _ T5);
      unfold ival; try lia; try (rewrite <- ?bcap_len; lia).
    unfold n4. cbn [bytes]. apply sub_write_same; [lia|].
    rewrite <- bcap_len. lia.
  - rewrite (touched_sub _ _ _ _ _ T6); unfold ival; try lia;
      try (rewrite <- ?bcap_len; lia).
    unfold n5. cbn [bytes].
    replace (kv + 4 + len key + len val) with (kv + 4 + len key + len val) by lia.
    apply sub_write_same; [lia|]. rewrite <- bcap_len. lia.
Qed.

(** ** Well-formed nodes have a layout *)

Lemma le_decode_nonneg bs : 0 <= le_decode bs.
Proof.
  induction bs as [|b bs IH]; simpl; [lia|].
  pose proof (Z_of_byte_range b). lia.
Qed.

Lemma getOffset_nonneg node i o : getOffset node i = Ok o -> 0 <= o.
Proof.
  unfold getOffset, get16. destruct (i =? 0); intros H; inv_ok; [lia|].
  apply le_decode_nonneg.
Qed.

Lemma In_slots n i : 0 <= i < n -> In i (slots n).
Proof.
  intros H. unfold slots. apply in_map_iff. exists (Z.to_nat i).
  split; [lia|]. apply in_seq. lia.
Qed.

Lemma well_formed_layout node :
  well_formed node = true ->
  exists n, 1 <= n /\ layout node n /\
    forall i, 0 <= i < n -> exists k, getKey node i = Ok k.
Proof.
  unfold well_formed, HEADER. intros H.
  destruct (nkeys node) as [n| |] eqn:Hn; try discriminate.
  destruct (getOffset node n) as [o| |] eqn:Ho; try discriminate.
  rewrite !andb_true_iff in H. destruct H as ((((H1 & H2) & H3) & H4) & H5).
  apply Z.leb_le in H1, H2, H3. apply Z.ltb_lt in H4.
  pose proof (getOffset_nonneg _ _ _ Ho) as Ho0.
  assert (Hoff : forall i, 0 <= i <= n -> getOffset node i = Ok (off (bytes node) n i)).
  { intros i Hi. apply getOffset_eq; try assumption; lia. }
  rewrite Hoff in Ho by lia. injection Ho as <-.
  assert (Hentry : forall i, 0 <= i < n -> entry_ok node i = true).
  { intros i Hi. apply (proj1 (forallb_forall _ _) H5). apply In_slots. assumption. }
  assert (Hstep : forall i, 0 <= i < n ->
            off (bytes node) n i <= off (bytes node) n (i + 1)).
  { intros i Hi. specialize (Hentry i Hi). unfold entry_ok in Hentry.
    rewrite !Hoff in Hentry by lia.
    destruct (getKey node i); try discriminate.
    destruct (getVal node i); try discriminate.
    apply Z.eqb_eq in Hentry. pose proof (len_nonneg a). pose proof (len_nonneg a0).
    lia. }
  exists n. split; [assumption|]. split.
  - constructor; try assumption; try lia.
    intros i j Hij Hj.
    replace j with (i + Z.of_nat (Z.to_nat (j - i))) in * by lia.
    induction (Z.to_nat (j - i)) as [|d IH].
    + rewrite Z.add_0_r. lia.
    + etransitivity; [apply IH; lia|].
      replace (i + Z.of_nat (S d)) with (i + Z.of_nat d + 1) by lia.
      apply Hstep. lia.
  - intros i Hi. specialize (Hentry i Hi). unfold entry_ok in Hentry.
    destruct (getOffset node i); try discriminate.
    destruct (getKey node i); try discriminate. eauto.
Qed.

(** ** Scratch buffers *)

Lemma bcap_make n : 0 <= n -> bcap (make n) = n.
Proof. intros H. unfold bcap, make. cbn [bytes]. rewrite repeat_length. lia. Qed.

Lemma byte_at_make n p : byte_at (bytes (make n)) p = x00.
Proof. unfold byte_at, make. cbn [bytes]. apply nth_repeat. Qed.

Lemma u16_zero bs p :
  byte_at bs p = x00 -> byte_at bs (p + 1) = x00 -> u16 bs p = 0.
Proof. unfold u16. intros -> ->. reflexivity. Qed.

(** A fresh buffer after [setHeader]: the header is set and every other byte
    is still zero. *)
Lemma setHeader_make size ty n :
  4 <= size -> 0 <= n < 65536 ->
  exists new, setHeader (make size) ty n = Ok new /\
    nkeys new = Ok n /\ btype new = Ok (wrap16 ty) /\
    blen new = size /\ bcap new = size /\
    forall p, 4 <= p -> byte_at (bytes new) p = x00.
Proof.
  intros Hs Hn.
  assert (Hc : bcap (make size) = size) by (apply bcap_make; lia).
  rewrite setHeader_eq by lia.
  set (new := mkBNode _ _).
  assert (L1 : len (write (bytes (make size)) 0 (le_encode 2 ty)) = size).
  { rewrite len_write; rewrite ?len_le_encode; rewrite <- ?bcap_len; lia. }
  assert (L2 : bcap new = size).
  { unfold new, bcap. cbn [bytes].
    fold (len (write (write (bytes (make size)) 0 (le_encode 2 ty)) 2 (le_encode 2 n))).
    rewrite len_write; rewrite ?len_le_encode; lia. }
  exists new. split; [reflexivity|]. split; [|split; [|split; [|split]]].
  - rewrite nkeys_eq by lia. unfold new. cbn [bytes].
    rewrite u16_write_same by lia. rewrite wrap16_small by lia. reflexivity.
  - rewrite btype_eq by lia. unfold new. cbn [bytes].
    rewrite u16_write_other by (rewrite ?len_le_encode; lia).
    rewrite u16_write_same by (rewrite <- ?bcap_len; lia). reflexivity.
  - reflexivity.
  - assumption.
  - intros p Hp. unfold new. cbn [bytes].
    rewrite !byte_at_write_out
      by (rewrite ?len_le_encode; rewrite <- ?bcap_len; lia).
    apply byte_at_make.
Qed.

(** ** The loop of [nodeLookUpLE] ends within the node *)

Lemma lookup_loop_range node key n todo : forall i found,
  (forall j, 0 <= j < n -> exists k, getKey node j = Ok k) ->
  0 <= found < i -> i + Z.of_nat todo <= n ->
  exists r, lookup_loop node key todo i found = Ok r /\ 0 <= r < n.
Proof.
  induction todo as [|todo IH]; intros i found Hk Hf Hi; cbn [lookup_loop].
  - exists found. split; [reflexivity | lia].
  - destruct (Hk i ltac:(lia)) as [k Ek]. rewrite Ek. cbn [bind].
    destruct (cmp_ge0 (bytes_compare k key)).
    + eexists. split; [reflexivity|].
      destruct (cmp_le0 (bytes_compare k key)); lia.
    + apply IH; [assumption | | lia].
      destruct (cmp_le0 (bytes_compare k key)); lia.
Qed.

Lemma nodeLookUpLE_range node key n :
  nkeys node = Ok n -> 1 <= n ->
  (forall j, 0 <= j < n -> exists k, getKey node j = Ok k) ->
  exists idx, nodeLookUpLE node key = Ok idx /\ 0 <= idx < n.
Proof.
  intros Hn H1 Hk. unfold nodeLookUpLE. rewrite Hn. cbn [bind].
  apply lookup_loop_range; [assumption | lia | lia].
Qed.

(** ** [leafInsert] stays within the scratch buffer *)

Lemma leafInsert_ok old n idx key val :
  layout old n -> 1 <= n -> 0 <= idx < n ->
  4 + 10 * n + off (bytes old) n n <= BTREE_PAGE_SIZE ->
  exists new, leafInsert (make (2 * BTREE_PAGE_SIZE)) old (idx + 1) key val = Ok new /\
    nkeys new = Ok (n + 1) /\ btype new = Ok BNODE_LEAF /\
    blen new = 2 * BTREE_PAGE_SIZE /\ bcap new = 2 * BTREE_PAGE_SIZE /\
    off (bytes new) (n + 1) (idx + 1) = off (bytes old) n (idx + 1).
Proof.
  unfold BTREE_PAGE_SIZE. intros L Hn Hidx Hsz.
  pose proof (off_nonneg (bytes old) n n) as Hoff.
  unfold leafInsert. rewrite (lay_nkeys _ _ L). cbn [bind].
  rewrite !wrap16_small by lia.
  destruct (setHeader_make (2 * 4096) BNODE_LEAF (n + 1))
    as (new0 & E0 & Hn0 & Ht0 & Hb0 & Hc0 & Hz0); try lia.
  rewrite E0. cbn [bind].
  (* the entries before the new slot *)
  destruct (nodeAppendRange_spec new0 old (n + 1) n 0 0 (idx + 1))
    as (new1 & E1 & T1 & V1); try assumption; try lia.
  { intros _. unfold off. cbn. lia. }
  rewrite E1. cbn [bind].
  assert (R1 : forall p, range_region (n + 1) 0 (idx + 1) (off (bytes new0) (n + 1) 0)
                 (off (bytes old) n (0 + (idx + 1)) - off (bytes old) n 0) p ->
               4 <= p /\ (p < 4 + 8 * (n + 1) + 2 * (idx + 1) \/ 4 + 10 * (n + 1) <= p)).
  { unfold range_region, ival, off. cbn. intros p Hp. lia. }
  assert (Hn1 : nkeys new1 = Ok (n + 1)).
  { apply (touched_nkeys _ _ _ _ T1); [|assumption]. intros p Hp. apply R1 in Hp. lia. }
  assert (Ht1 : btype new1 = Ok BNODE_LEAF).
  { rewrite <- (touched_btype _ _ _ _ T1 ltac:(intros p Hp; apply R1 in Hp; lia) Hn0).
    assumption. }
  assert (Hb1 : blen new1 = 2 * 4096) by (destruct T1 as [-> _]; assumption).
  assert (Hc1 : bcap new1 = 2 * 4096) by (rewrite (touched_bcap _ _ _ T1); assumption).
  (* the entries after it: the offset of slot [idx + 2] was never written *)
  assert (Hz1 : idx + 1 < n -> off (bytes new1) (n + 1) (idx + 1 + 1) = 0).
  { intros Hlt. unfold off. destruct (Z.eqb_spec (idx + 1 + 1) 0); [reflexivity|].
    rewrite (touched_u16 _ _ _ _ T1);
      try (intros Hp; apply R1 in Hp; lia); try lia.
    apply u16_zero; apply Hz0; lia. }
  destruct (nodeAppendRange_spec new1 old (n + 1) n (idx + 1 + 1) (idx + 1)
              (n - (idx + 1)))
    as (new2 & E2 & T2 & _); try assumption; try lia.
  rewrite E2. cbn [bind]. exists new2. split; [reflexivity|].
  assert (R2 : forall p, range_region (n + 1) (idx + 1 + 1) (n - (idx + 1))
                 (off (bytes new1) (n + 1) (idx + 1 + 1))
                 (off (bytes old) n (idx + 1 + (n - (idx + 1))) -
                  off (bytes old) n (idx + 1)) p -> 4 <= p).
  { unfold range_region, ival. intros p Hp.
    pose proof (off_nonneg (bytes new1) (n + 1) (idx + 1 + 1)). lia. }
  split; [|split; [|split; [|split]]].
  - apply (touched_nkeys _ _ _ _ T2); assumption.
  - rewrite <- (touched_btype _ _ _ _ T2 R2 Hn1). assumption.
  - destruct T2 as [-> _]. assumption.
  - rewrite (touched_bcap _ _ _ T2). assumption.
  - pose proof (lay_mono _ _ L 0 (idx + 1) ltac:(lia) ltac:(lia)) as M1.
    pose proof (lay_mono _ _ L (idx + 1) n ltac:(lia) ltac:(lia)) as M2.
    rewrite (touched_off _ _ _ _ _ T2); try lia.
    + specialize (V1 (idx + 1) ltac:(lia)). rewrite !Z.add_0_l in V1.
      rewrite V1. change (off (bytes old) n 0) with 0 in *. rewrite Z.sub_0_r.
      pose proof (off_nonneg (bytes old) n (idx + 1)).
      rewrite !(wrap16_small (off (bytes old) n (idx + 1))) by lia. reflexivity.
    + intros _ p Hp. unfold range_region, ival.
      pose proof (off_nonneg (bytes new1) (n + 1) (idx + 1 + 1)). lia.
Qed.

(** ** The leaf path of [treeInsert] *)

Lemma nbytes_layout node n : layout node n ->
  nbytes node = Ok (4 + 10 * n + off (bytes node) n n).
Proof.
  intros L. pose proof (layout_n _ _ L). pose proof (off_nonneg (bytes node) n n).
  destruct L as [Hn Hc Hs Hsm _].
  unfold nbytes. rewrite Hn. cbn [bind].
  apply kvPos_eq; try assumption; lia.
Qed.

(** C10: on a well-formed leaf of at most one page, with a key of at most
    1000 bytes and a value of at most 3000 bytes, [treeInsert] returns: no
    assertion of an accessor fails and no slice expression leaves the
    scratch buffer of two pages, which keeps its length.  The leaf path
    calls [leafInsert] only; [nodeAppendKV] of the pair into the returned
    buffer, at the slot after the one the lookup found, stays within the
    buffer as well. *)
Theorem treeInsert_leaf_in_bounds (fuel : nat) (t : BTree) (old : BNode)
    (key val : list byte) (sz : Z) :
  well_formed old = true ->
  btype old = Ok BNODE_LEAF ->
  nbytes old = Ok sz -> sz <= BTREE_PAGE_SIZE ->
  len key <= BTREE_MAX_KEY_SIZE -> len val <= BTREE_MAX_VAL_SIZE ->
  exists new, treeInsert (S fuel) t old key val = Ok (new, t) /\
    blen new = 2 * BTREE_PAGE_SIZE /\ bcap new = 2 * BTREE_PAGE_SIZE /\
    forall idx k, nodeLookUpLE old key = Ok idx -> getKey old idx = Ok k ->
      bytes_equal key k = false ->
      exists new', nodeAppendKV new (idx + 1) 0 key val = Ok new' /\
        blen new' = 2 * BTREE_PAGE_SIZE.
Proof.
  unfold BTREE_PAGE_SIZE, BTREE_MAX_KEY_SIZE, BTREE_MAX_VAL_SIZE.
  intros Hwf Hty Hsz Hpage Hkey Hval.
  destruct (well_formed_layout _ Hwf) as (n & Hn & L & Hk).
  rewrite (nbytes_layout _ _ L) in Hsz. injection Hsz as <-.
  pose proof (off_nonneg (bytes old) n n) as Hoff.
  destruct (nodeLookUpLE_range old key n (lay_nkeys _ _ L) Hn Hk)
    as (idx & Eidx & Hidx).
  destruct (Hk idx Hidx) as [k Ek].
  cbn [treeInsert]. rewrite Eidx, Hty. cbn [bind].
  change (BNODE_LEAF =? BNODE_LEAF) with true. cbv iota. rewrite Ek. cbn [bind].
  destruct (bytes_equal key k) eqn:Heq.
  - exists (make (2 * 4096)). split; [reflexivity|]. split; [reflexivity|].
    split; [apply bcap_make; lia|].
    intros idx' k' H1 H2 H3. congruence.
  - rewrite wrap16_small by lia.
    destruct (leafInsert_ok old n idx key val L Hn Hidx Hpage)
      as (new & E & Hnn & _ & Hb & Hc & Ho).
    unfold BTREE_PAGE_SIZE in *. rewrite E. cbn [bind].
    exists new. split; [reflexivity|]. split; [assumption|]. split; [assumption|].
    intros idx' k' H1 _ _. assert (idx' = idx) as -> by congruence.
    pose proof (lay_mono _ _ L (idx + 1) n ltac:(lia) ltac:(lia)) as M.
    pose proof (off_nonneg (bytes old) n (idx + 1)).
    pose proof (len_nonneg key). pose proof (len_nonneg val).
    destruct (nodeAppendKV_spec new (n + 1) (idx + 1) 0 key val)
      as (new' & E' & T' & _); try assumption; try lia.
    exists new'. split; [assumption|]. destruct T' as [-> _]. assumption.
Qed.

(** ** Deleting the only entry *)

Lemma bytes_equal_refl a : bytes_equal a a = true.
Proof. unfold bytes_equal. rewrite bytes_compare_refl. reflexivity. Qed.

(** [nodeAppendRange] of no entry leaves [new] as it is. *)
Lemma nodeAppendRange_none new old nn on dst src :
  nkeys old = Ok on -> nkeys new = Ok nn ->
  0 <= src <= on -> 0 <= dst <= nn -> on < 65536 -> nn < 65536 ->
  nodeAppendRange new old dst src 0 = Ok new.
Proof.
  intros Ho Hn Hs Hd H1 H2. unfold nodeAppendRange. rewrite Ho, Hn. cbn [bind].
  rewrite !Z.add_0_r, !wrap16_small by lia. checks. reflexivity.
Qed.

(** X27: when the root is a leaf with exactly one entry, [Delete] of the
    key of that entry returns true, frees the root page and sets [root]
    to 0. *)
Theorem Delete_only_entry (fuel : nat) (t : BTree) (node : BNode)
    (key : list byte) :
  root t <> 0 ->
  pages t !! root t = Some node ->
  btype node = Ok BNODE_LEAF ->
  nkeys node = Ok 1 ->
  getKey node 0 = Ok key ->
  Delete (S fuel) t key =
    Ok (true, mkBTree 0 (delete (root t) (pages t)) (fresh t)
                      (calls t ++ [CallDel (root t)])).
Proof.
  intros Hr Hp Hty Hn Hk.
  unfold Delete. destruct (Z.eqb_spec (root t) 0) as [|_]; [contradiction|].
  unfold tree_get. rewrite Hp. cbn [bind treeDelete].
  unfold nodeLookUpLE. rewrite Hn. cbn [bind]. cbn [Z.sub Z.to_nat lookup_loop].
  change (Z.to_nat (1 - 1)) with 0%nat. cbn [lookup_loop bind].
  rewrite Hty. cbn [bind]. change (BNODE_LEAF =? BNODE_LEAF) with true. cbv iota.
  rewrite Hk. cbn [bind]. rewrite bytes_equal_refl. cbn [negb].
  unfold leafDelete. rewrite Hn. cbn [bind].
  change (wrap16 (1 - 1)) with 0.
  destruct (setHeader_make (2 * BTREE_PAGE_SIZE) BNODE_LEAF 0)
    as (new & E & Hnn & Hnt & Hb & Hc & _); [unfold BTREE_PAGE_SIZE; lia | lia |].
  rewrite E. cbn [bind].
  rewrite (nodeAppendRange_none new node 0 1 0 0) by (assumption || lia).
  cbn [bind].
  change (wrap16 (0 + 1)) with 1. change (wrap16 (1 - 1)) with 0.
  rewrite (nodeAppendRange_none new node 0 1 0 1) by (assumption || lia).
  cbn [bind]. rewrite Hb. change (2 * BTREE_PAGE_SIZE =? 0) with false. cbv iota.
  unfold tree_del. rewrite Hp. cbn [bind]. rewrite Hnt. cbn [bind].
  change (wrap16 BNODE_LEAF =? BNODE_NODE) with false.
  change (wrap16 BNODE_LEAF =? BNODE_LEAF) with true. cbv iota.
  rewrite Hnn. cbn [bind]. reflexivity.
Qed.

(** ** Reading keys and values *)

Lemma getKey_eq node n i :
  nkeys node = Ok n -> 0 <= i < n ->
  4 + 10 * n <= blen node -> blen node <= bcap node ->
  let kv := 4 + 10 * n + off (bytes node) n i in
  kv + 4 <= blen node -> kv + 4 + u16 (bytes node) kv <= bcap node ->
  kv + 4 < 65536 ->
  getKey node i = Ok (sub (bytes node) (kv + 4) (kv + 4 + u16 (bytes node) kv)).
Proof.
  intros Hn Hi Hl Hc kv H1 H2 H3.
  pose proof (off_nonneg (bytes node) n i) as Ho. fold kv in Ho.
  pose proof (u16_range (bytes node) kv) as Hk.
  unfold getKey. rewrite Hn. cbn [bind]. checks.
  rewrite (kvPos_eq node n i) by (assumption || lia). cbn [bind]. fold kv.
  rewrite get16_eq by lia. cbn [bind].
  rewrite wrap16_small by lia. checks. reflexivity.
Qed.

Lemma getVal_eq node n i :
  nkeys node = Ok n -> 0 <= i < n ->
  4 + 10 * n <= blen node -> blen node <= bcap node ->
  let kv := 4 + 10 * n + off (bytes node) n i in
  let klen := u16 (bytes node) kv in
  let vlen := u16 (bytes node) (kv + 2) in
  kv + 4 <= blen node -> kv + 4 + klen + vlen <= bcap node ->
  kv + 4 + klen + vlen < 65536 ->
  getVal node i =
    Ok (sub (bytes node) (kv + 4 + klen) (kv + 4 + klen + vlen)).
Proof.
  intros Hn Hi Hl Hc kv klen vlen H1 H2 H3.
  pose proof (off_nonneg (bytes node) n i) as Ho. fold kv in Ho.
  pose proof (u16_range (bytes node) kv) as Hk. fold klen in Hk.
  pose proof (u16_range (bytes node) (kv + 2)) as Hv. fold vlen in Hv.
  unfold getVal. rewrite Hn. cbn [bind]. checks.
  rewrite (kvPos_eq node n i) by (assumption || lia). cbn [bind]. fold kv.
  rewrite get16_eq by lia. cbn [bind]. fold klen.
  rewrite (wrap16_small (kv + 2)) by lia.
  rewrite get16_eq by lia. cbn [bind]. fold vlen.
  unfold slice. rewrite !wrap16_small by (rewrite ?wrap16_small; lia).
  checks. reflexivity.
Qed.

(** ** [leafDelete] *)

Lemma leafDelete_ok old n idx :
  layout old n -> 0 <= idx < n ->
  4 + 10 * n + off (bytes old) n n <= BTREE_PAGE_SIZE ->
  exists new, leafDelete (make (2 * BTREE_PAGE_SIZE)) old idx = Ok new /\
    nkeys new = Ok (n - 1) /\ btype new = Ok BNODE_LEAF /\
    blen new = 2 * BTREE_PAGE_SIZE /\ bcap new = 2 * BTREE_PAGE_SIZE /\
    0 <= off (bytes new) (n - 1) (n - 1) <= off (bytes old) n n.
Proof.
  unfold BTREE_PAGE_SIZE. intros L Hidx Hsz.
  pose proof (off_nonneg (bytes old) n n) as Hoff.
  pose proof (lay_mono _ _ L) as Hmono.
  unfold leafDelete. rewrite (lay_nkeys _ _ L). cbn [bind].
  rewrite !wrap16_small by (rewrite ?wrap16_small; lia).
  destruct (setHeader_make (2 * 4096) BNODE_LEAF (n - 1))
    as (new0 & E0 & Hn0 & Ht0 & Hb0 & Hc0 & Hz0); try lia.
  rewrite E0. cbn [bind].
  (* the entries before the deleted slot *)
  destruct (nodeAppendRange_spec new0 old (n - 1) n 0 0 idx)
    as (new1 & E1 & T1 & V1); try assumption; try lia.
  { intros _. unfold off. cbn. lia. }
  rewrite E1. cbn [bind].
  assert (R1 : forall p, range_region (n - 1) 0 idx (off (bytes new0) (n - 1) 0)
                 (off (bytes old) n (0 + idx) - off (bytes old) n 0) p -> 4 <= p).
  { unfold range_region, ival, off. cbn. intros p Hp. lia. }
  assert (Hn1 : nkeys new1 = Ok (n - 1)).
  { apply (touched_nkeys _ _ _ _ T1); assumption. }
  assert (Ht1 : btype new1 = Ok BNODE_LEAF).
  { rewrite <- (touched_btype _ _ _ _ T1 R1 Hn0). assumption. }
  assert (Hb1 : blen new1 = 2 * 4096) by (destruct T1 as [-> _]; assumption).
  assert (Hc1 : bcap new1 = 2 * 4096) by (rewrite (touched_bcap _ _ _ T1); assumption).
  assert (Ho1 : off (bytes new1) (n - 1) idx = off (bytes old) n idx).
  { destruct (Z.eq_dec idx 0) as [->|Hne]; [reflexivity|].
    specialize (V1 idx ltac:(lia)). rewrite !Z.add_0_l in V1. rewrite V1.
    change (off (bytes old) n 0) with 0. change (off (bytes new0) (n - 1) 0) with 0.
    rewrite Z.sub_0_r.
    pose proof (off_nonneg (bytes old) n idx).
    pose proof (Hmono idx n ltac:(lia) ltac:(lia)).
    rewrite !(wrap16_small (off (bytes old) n idx)) by lia. reflexivity. }
  pose proof (off_nonneg (bytes old) n idx) as Hi0.
  pose proof (off_nonneg (bytes old) n (idx + 1)) as Hi1.
  pose proof (Hmono idx (idx + 1) ltac:(lia) ltac:(lia)) as M1.
  pose proof (Hmono (idx + 1) n ltac:(lia) ltac:(lia)) as M2.
  (* the entries after it *)
  destruct (nodeAppendRange_spec new1 old (n - 1) n idx (idx + 1) (n - (idx + 1)))
    as (new2 & E2 & T2 & V2); try assumption; try lia.
  rewrite E2. cbn [bind]. exists new2. split; [reflexivity|].
  assert (R2 : forall p, range_region (n - 1) idx (n - (idx + 1))
                 (off (bytes new1) (n - 1) idx)
                 (off (bytes old) n (idx + 1 + (n - (idx + 1))) -
                  off (bytes old) n (idx + 1)) p ->
               4 <= p /\ (n - (idx + 1) = 0 -> False)).
  { unfold range_region, ival. rewrite Ho1.
    replace (idx + 1 + (n - (idx + 1))) with n by lia. intros p Hp.
    split; [lia|]. intros Hz. rewrite Hz in Hp.
    replace (idx + 1) with n in Hp by lia. lia. }
  split; [|split; [|split; [|split]]].
  - apply (touched_nkeys _ _ _ _ T2); [|assumption]. intros p Hp. apply R2 in Hp. lia.
  - rewrite <- (touched_btype _ _ _ _ T2 ltac:(intros p Hp; apply R2 in Hp; lia) Hn1).
    assumption.
  - destruct T2 as [-> _]. assumption.
  - rewrite (touched_bcap _ _ _ T2). assumption.
  - destruct (Z.eq_dec (n - (idx + 1)) 0) as [Hz|Hnz].
    + rewrite (touched_off _ _ _ _ _ T2); try lia.
      * replace (off (bytes new1) (n - 1) (n - 1))
          with (off (bytes new1) (n - 1) idx) by (f_equal; lia).
        rewrite Ho1. lia.
      * intros _ p Hp HR. apply R2 in HR. lia.
    + specialize (V2 (n - (idx + 1)) ltac:(lia)).
      replace (idx + (n - (idx + 1))) with (n - 1) in V2 by lia.
      replace (idx + 1 + (n - (idx + 1))) with n in V2 by lia.
      rewrite V2, Ho1.
      rewrite (wrap16_small (off (bytes old) n n - off (bytes old) n (idx + 1))) by lia.
      rewrite wrap16_small by lia. lia.
Qed.

(** ** The first [Insert] *)

Lemma sub_empty bs lo : sub bs lo lo = [].
Proof. unfold sub. rewrite Z.sub_diag. reflexivity. Qed.

Lemma Insert_empty (fuel : nat) (key val : list byte) :
  len key <= BTREE_MAX_KEY_SIZE -> len val <= BTREE_MAX_VAL_SIZE ->
  exists r,
    Insert fuel newC key val = Ok (mkBTree 1 (<[1 := r]> ∅) 2 [CallNew 1]) /\
    layout r 2 /\ btype r = Ok BNODE_LEAF /\
    4 + 10 * 2 + off (bytes r) 2 2 <= BTREE_PAGE_SIZE /\
    getKey r 0 = Ok [] /\ getVal r 0 = Ok [] /\
    getKey r 1 = Ok key /\ getVal r 1 = Ok val.
Proof.
  unfold BTREE_MAX_KEY_SIZE, BTREE_MAX_VAL_SIZE, BTREE_PAGE_SIZE. intros Hk Hv.
  pose proof (len_nonneg key) as Hk0. pose proof (len_nonneg val) as Hv0.
  unfold Insert. cbn [root newC Z.eqb].
  destruct (setHeader_make BTREE_PAGE_SIZE BNODE_LEAF 2)
    as (r0 & E0 & N0 & Ty0 & B0 & C0 & _); [unfold BTREE_PAGE_SIZE; lia | lia |].
  unfold BTREE_PAGE_SIZE in *. rewrite E0. cbn [bind].
  (* the sentinel *)
  assert (O0 : off (bytes r0) 2 0 = 0) by reflexivity.
  destruct (nodeAppendKV_spec r0 2 0 0 [] [])
    as (r1 & E1 & T1 & O1 & K1 & V1 & _ & _); try assumption; try lia.
  { rewrite O0. change (@len byte []) with 0. lia. }
  rewrite E1. cbn [bind]. rewrite O0 in *. change (@len byte []) with 0 in *.
  change (0 + 1) with 1 in O1.
  replace (4 + 10 * 2 + 0) with 24 in * by lia.
  replace (0 + 4 + 0 + 0) with 4 in * by lia.
  assert (R1 : forall p, range_region 2 0 1 0 (4 + 0 + 0) p -> 4 <= p).
  { unfold range_region, ival. intros p Hp. lia. }
  assert (N1 : nkeys r1 = Ok 2) by (apply (touched_nkeys _ _ _ _ T1); assumption).
  assert (Ty1 : btype r1 = Ok BNODE_LEAF).
  { rewrite <- (touched_btype _ _ _ _ T1 R1 N0). assumption. }
  assert (B1 : blen r1 = 4096) by (destruct T1 as [-> _]; assumption).
  assert (C1 : bcap r1 = 4096) by (rewrite (touched_bcap _ _ _ T1); assumption).
  (* the pair of the user *)
  destruct (nodeAppendKV_spec r1 2 1 0 key val)
    as (r2 & E2 & T2 & O2 & K2 & V2 & SK & SV); try assumption; try lia.
  rewrite E2. cbn [bind]. rewrite O1 in *. change (1 + 1) with 2 in O2.
  replace (4 + 10 * 2 + 4) with 28 in * by lia.
  replace (28 + 4) with 32 in * by lia.
  assert (R2 : forall p, range_region 2 1 1 4 (4 + len key + len val) p ->
             12 <= p < 20 \/ 22 <= p < 24 \/ 28 <= p).
  { unfold range_region, ival. intros p Hp. lia. }
  assert (N2 : nkeys r2 = Ok 2).
  { apply (touched_nkeys _ _ _ _ T2); [|assumption]. intros p Hp. apply R2 in Hp. lia. }
  assert (Ty2 : btype r2 = Ok BNODE_LEAF).
  { rewrite <- (touched_btype _ _ _ _ T2 ltac:(intros p Hp; apply R2 in Hp; lia) N1).
    assumption. }
  assert (B2 : blen r2 = 4096) by (destruct T2 as [-> _]; assumption).
  assert (C2 : bcap r2 = 4096) by (rewrite (touched_bcap _ _ _ T2); assumption).
  assert (O21 : off (bytes r2) 2 1 = 4).
  { rewrite <- O1. apply (touched_off _ _ _ _ _ T2); try lia.
    intros _ p Hp HR. apply R2 in HR. lia. }
  assert (K0 : u16 (bytes r2) 24 = 0).
  { rewrite <- K1. apply (touched_u16 _ _ _ _ T2); try lia;
      intros HR; apply R2 in HR; lia. }
  assert (V0 : u16 (bytes r2) 26 = 0).
  { rewrite <- V1. apply (touched_u16 _ _ _ _ T2); try lia;
      intros HR; apply R2 in HR; lia. }
  assert (O20 : off (bytes r2) 2 0 = 0) by reflexivity.
  assert (L2 : layout r2 2).
  { constructor; try assumption; try lia.
    intros i j Hij Hj.
    assert (Hi : i = 0 \/ i = 1 \/ i = 2) by lia.
    assert (Hj' : j = 0 \/ j = 1 \/ j = 2) by lia.
    destruct Hi as [-> | [-> | ->]], Hj' as [-> | [-> | ->]]; lia. }
  (* the page *)
  unfold tree_new, tree_new_at. rewrite (nbytes_layout _ _ L2). cbn [bind].
  rewrite O2. cbn [pages newC fresh]. rewrite lookup_empty.
  unfold BTREE_PAGE_SIZE. checks.
  exists r2. split; [reflexivity|]. split; [assumption|]. split; [assumption|].
  split; [lia|].
  split; [|split; [|split]].
  - rewrite (getKey_eq r2 2 0); rewrite ?O20;
      try replace (4 + 10 * 2 + 0) with 24 by lia;
      rewrite ?K0; try assumption; try lia.
    rewrite Z.add_0_r, sub_empty. reflexivity.
  - rewrite (getVal_eq r2 2 0); rewrite ?O20;
      try replace (4 + 10 * 2 + 0) with 24 by lia;
      try replace (24 + 2) with 26 by lia;
      rewrite ?K0, ?V0; try assumption; try lia.
    rewrite !Z.add_0_r, sub_empty. reflexivity.
  - rewrite (getKey_eq r2 2 1); rewrite ?O21;
      try replace (4 + 10 * 2 + 4) with 28 by lia;
      try replace (28 + 4) with 32 by lia;
      rewrite ?K2; try assumption; try lia.
    rewrite SK. reflexivity.
  - rewrite (getVal_eq r2 2 1); rewrite ?O21;
      try replace (4 + 10 * 2 + 4) with 28 by lia;
      try replace (28 + 4) with 32 by lia;
      rewrite ?K2, ?V2; try assumption; try lia.
    rewrite SV. reflexivity.
Qed.

(** ** The empty key and the sentinel *)

Lemma bytes_compare_nil_r k : k <> [] -> bytes_compare k [] = Gt.
Proof. destruct k; [congruence | reflexivity]. Qed.

(** On the root leaf of the first [Insert], the slot where the lookup of the
    empty key ends holds the empty key. *)
Lemma lookup_empty_key r key :
  nkeys r = Ok 2 -> getKey r 0 = Ok [] -> getKey r 1 = Ok key ->
  exists idx, nodeLookUpLE r [] = Ok idx /\ 0 <= idx < 2 /\
    getKey r idx = Ok [] /\ (key = [] -> idx = 1) /\ (key <> [] -> idx = 0).
Proof.
  intros Hn H0 H1. unfold nodeLookUpLE. rewrite Hn. cbn [bind].
  change (Z.to_nat (2 - 1)) with 1%nat. cbn [lookup_loop]. rewrite H1. cbn [bind].
  destruct key as [|b key].
  - cbn. exists 1. repeat split; try lia; try assumption. congruence.
  - cbn. exists 0. repeat split; try lia; try assumption. congruence.
Qed.

(** C8, amended: [Insert] of a key and value within the size bounds, the
    empty key included, into the empty tree returns.  If the key is empty,
    the traversal then retrieves the empty key with the inserted value; if
    it is not, the traversal still finds the empty key, with the empty
    value of the sentinel.  In both cases [Delete] of the empty key returns
    true. *)
Theorem empty_key_is_sentinel (key val : list byte) :
  len key <= BTREE_MAX_KEY_SIZE -> len val <= BTREE_MAX_VAL_SIZE ->
  exists t, Insert 0 newC key val = Ok t /\
    (key = [] -> Get 1 t [] = Ok (Some val)) /\
    (key <> [] -> Get 1 t [] = Ok (Some [])) /\
    exists t', Delete 1 t [] = Ok (true, t').
Proof.
  intros Hk Hv.
  destruct (Insert_empty 0 key val Hk Hv)
    as (r & E & L & Ty & Hsz & K0 & V0 & K1 & V1).
  eexists. split; [exact E|].
  destruct (lookup_empty_key r key (lay_nkeys _ _ L) K0 K1)
    as (idx & Eidx & Hidx & Kidx & Hnil & Hcons).
  assert (Hget : forall v, getVal r idx = Ok v ->
            Get 1 (mkBTree 1 (<[1 := r]> ∅) 2 [CallNew 1]) [] = Ok (Some v)).
  { intros v Ev. unfold Get, tree_get. cbn [root pages Z.eqb].
    rewrite lookup_insert_eq. cbn [bind treeGet]. rewrite Eidx, Ty. cbn [bind].
    change (BNODE_LEAF =? BNODE_LEAF) with true. cbv iota.
    rewrite Kidx. cbn [bind]. rewrite bytes_equal_refl, Ev. reflexivity. }
  split; [|split].
  - intros Hnil'. apply Hget. rewrite (Hnil Hnil'). rewrite V1. reflexivity.
  - intros Hcons'. apply Hget. rewrite (Hcons Hcons'). assumption.
  - unfold Delete, tree_get. cbn [root pages Z.eqb]. rewrite lookup_insert_eq.
    cbn [bind treeDelete]. rewrite Eidx, Ty. cbn [bind].
    change (BNODE_LEAF =? BNODE_LEAF) with true. cbv iota.
    rewrite Kidx. cbn [bind]. rewrite bytes_equal_refl. cbn [negb].
    destruct (leafDelete_ok r 2 idx L Hidx Hsz)
      as (new & En & Nn & Tn & Bn & Cn & On).
    rewrite En. cbn [bind]. rewrite Bn.
    change (2 * BTREE_PAGE_SIZE =? 0) with false. cbv iota.
    unfold tree_del. cbn [pages root]. rewrite lookup_insert_eq. cbn [bind].
    rewrite Tn. cbn [bind]. change (BNODE_LEAF =? BNODE_NODE) with false.
    change (BNODE_LEAF =? BNODE_LEAF) with true. cbv iota.
    rewrite Nn. cbn [bind]. change (2 - 1 =? 0) with false. cbv iota.
    unfold BTREE_PAGE_SIZE in *. change (2 - 1) with 1 in *.
    pose proof (off_nonneg (bytes r) 2 2) as Hoff.
    assert (Hnb : nbytes new = Ok (4 + 10 * 1 + off (bytes new) 1 1)).
    { unfold nbytes. rewrite Nn. cbn [bind]. apply kvPos_eq; try assumption; lia. }
    unfold install_root, tree_new, tree_new_at. rewrite Hnb. cbn [bind].
    unfold BTREE_PAGE_SIZE.
    destruct (Z.leb_spec (4 + 10 * 1 + off (bytes new) 1 1) 4096); [|lia].
    cbn [bind]. checks. cbn [pages fresh].
    rewrite lookup_delete_ne by lia. rewrite lookup_insert_ne by lia.
    rewrite lookup_empty. cbn [bind]. eexists. reflexivity.
Qed.

(** ** The failing inputs, evaluated *)

(** C1: after [Insert "k" "v"] and [Insert "m" "w"] on the empty tree the
    traversal does not find ["m"]: [leafInsert] leaves slot 2 of the new
    leaf empty.  After [Insert "k" "v"] and [Insert "k" "v2"] the root page
    is all zeroes: it has no entry, and the traversal stops on its type. *)
Theorem insert_then_lookup_fails :
  (do t <- tree_k;
   do t <- Insert 1 t (B "m") (B "w");
   do node <- tree_get t (root t);
   do es <- entries node;
   do r <- Get 1 t (B "m");
   Ok (es, r))
  = Ok ([(0, [], []); (0, B "k", B "v"); (0, [], [])], None)
  /\ (do t <- tree_k;
      do t <- Insert 1 t (B "k") (B "v2");
      do node <- tree_get t (root t);
      do es <- entries node;
      Ok (es, Get 1 t (B "k")))
     = Ok ([], Panic).
Proof. split; vm_compute; reflexivity. Qed.

(** C2: [nodeSplit3] of a leaf of 4147 bytes with three entries returns two
    nodes without any entry: the entries of the input are in neither. *)
Theorem nodeSplit3_drops_entries :
  (do old <- leaf_oversized;
   do sz <- nbytes old;
   do es <- entries old;
   do (count, split) <- nodeSplit3 old;
   do parts <- map_result entries (take_split count split);
   Ok (sz, len es, count, parts))
  = Ok (4147, 3, 2, [[]; []]).
Proof. vm_compute; reflexivity. Qed.

(** C3: [leafInsert] at slot 2 of the leaf [("", ""); ("k", "v")] yields
    three entries whose slot 2 is the empty pair, not [("m", "w")]. *)
Theorem leafInsert_omits_pair :
  (do old <- leaf_k;
   do new <- leafInsert (make (2 * BTREE_PAGE_SIZE)) old 2 (B "m") (B "w");
   entries new)
  = Ok [(0, [], []); (0, B "k", B "v"); (0, [], [])].
Proof. vm_compute; reflexivity. Qed.

(** C4: after [Insert "k" "v"] and [Insert "k" "v2"] the root page has
    type 0 and no key; after [Insert "k" "v"] and [Insert "m" "w"] the keys
    of the root leaf are [""; "k"; ""], which do not ascend from index 1. *)
Theorem update_leaves_untyped_root :
  (do t <- tree_k;
   do t <- Insert 1 t (B "k") (B "v2");
   do node <- tree_get t (root t);
   do ty <- btype node;
   do n <- nkeys node;
   Ok (ty, n))
  = Ok (0, 0)
  /\ (do t <- tree_k;
      do t <- Insert 1 t (B "m") (B "w");
      do node <- tree_get t (root t);
      do ty <- btype node;
      do ks <- keys node;
      Ok (ty, ks, ascending (tl ks)))
     = Ok (2, [B ""; B "k"; B ""], false).
Proof. split; vm_compute; reflexivity. Qed.

(** C9: [nodeReplace2Kid] at slot 0 of the internal node
    [(10, "a"); (11, "b"); (12, "c")] yields [(99, "a")] followed by an
    empty entry with pointer 0: the entry [(12, "c")] is gone. *)
Theorem nodeReplace2Kid_loses_entry :
  (do old <- node_abc;
   do es <- entries old;
   do new <- nodeReplace2Kid (make BTREE_PAGE_SIZE) old 0 99 (B "a");
   do es' <- entries new;
   Ok (es, es'))
  = Ok ([(10, B "a", []); (11, B "b", []); (12, B "c", [])],
        [(99, B "a", []); (0, [], [])]).
Proof. vm_compute; reflexivity. Qed.

(** ** Counterexamples *)

(** C5: on the tree that [Insert "k" "v"] builds, [Delete ""] returns true
    although the empty key was never inserted: it removes the sentinel.
    After [Insert "m" "w"] the root leaf holds the keys ["k"] and [""], in
    this order, and [Delete "k"] returns false although the leaf holds
    ["k"]. *)
Lemma Delete_false_though_stored :
  exists t1 t2 t3 old,
    Insert 1 newC (B "k") (B "v") = Ok t1 /\
    Delete 1 t1 [] = Ok (true, t2) /\
    Insert 1 t2 (B "m") (B "w") = Ok t3 /\
    root t3 <> 0 /\ pages t3 !! root t3 = Some old /\
    tree_keys 1 t3 old = Ok [B "k"; []] /\
    Delete 1 t3 (B "k") = Ok (false, t3).
Proof.
  exists (ok_or newC tree_k).
  exists (snd (ok_or (false, newC) (Delete 1 (ok_or newC tree_k) []))).
  exists (ok_or newC tree_k_m).
  exists (match pages (ok_or newC tree_k_m) !! 3 with
          | Some node => node
          | None => nil_node
          end).
  repeat split; try (vm_compute; reflexivity).
  vm_compute. discriminate.
Qed.

(** C6: the root leaf holds the sentinel and the user key ["k"];
    [Delete "k"] returns true and installs a new root page, 2, which holds
    the sentinel alone. *)
Lemma delete_last_user_key_keeps_root :
  (do t <- tree_k;
   do node <- tree_get t (root t);
   do es <- entries node;
   do (found, t') <- Delete 1 t (B "k");
   do node' <- tree_get t' (root t');
   do es' <- entries node';
   Ok (es, found, root t', es'))
  = Ok ([(0, [], []); (0, B "k", B "v")], true, 2, [(0, [], [])]).
Proof. vm_compute; reflexivity. Qed.

(** C7: the root leaf after [Insert "k" "v"] and [Insert "m" "w"] has the
    keys [""; "k"; ""]: key 0 is at most ["a"], the largest index whose key
    is at most ["a"] is 2, and [nodeLookUpLE] returns 0.  The same happens
    in the leaf with the keys [""; "z"; "a"] for ["b"]. *)
Lemma nodeLookUpLE_unsorted :
  (do t <- tree_k;
   do t <- Insert 1 t (B "m") (B "w");
   do node <- tree_get t (root t);
   do ks <- keys node;
   do i <- nodeLookUpLE node (B "a");
   Ok (ks, i, map (fun k => cmp_le0 (bytes_compare k (B "a"))) ks))
  = Ok ([B ""; B "k"; B ""], 0, [true; false; true])
  /\ (do node <- leaf_unsorted;
      do ks <- keys node;
      do i <- nodeLookUpLE node (B "b");
      Ok (ks, i, map (fun k => cmp_le0 (bytes_compare k (B "b"))) ks))
     = Ok ([B ""; B "z"; B "a"], 0, [true; false; true]).
Proof. split; vm_compute; reflexivity. Qed.

(** C8: the user has inserted ["k"] only; the traversal finds the empty key
    (with the empty value of the sentinel) and [Delete ""] returns true. *)
Lemma empty_key_found_without_insert :
  (do t <- tree_k;
   do r <- Get 1 t (B "");
   do (found, _) <- Delete 1 t (B "");
   Ok (r, found))
  = Ok (Some [], true).
Proof. vm_compute; reflexivity. Qed.

(** ** [nodeSplit3] of a node that fits *)

(** A node of at most one page comes back alone, its slice cut to the page. *)
Lemma nodeSplit3_fits (old : BNode) (sz : Z) :
  nbytes old = Ok sz -> sz <= BTREE_PAGE_SIZE -> BTREE_PAGE_SIZE <= bcap old ->
  nodeSplit3 old = Ok (1, [mkBNode (bytes old) BTREE_PAGE_SIZE; nil_node; nil_node]).
Proof.
  intros Hsz Hle Hcap. unfold nodeSplit3, trim_page. rewrite Hsz. cbn [bind].
  destruct (Z.leb_spec sz BTREE_PAGE_SIZE); [|lia]. checks. reflexivity.
Qed.

(** A node of more than one page is not looked at any further: the result is
    two pages of zeroes, whatever the node holds. *)
Lemma nodeSplit3_oversized (old : BNode) (sz : Z) :
  nbytes old = Ok sz -> BTREE_PAGE_SIZE < sz ->
  nodeSplit3 old =
    Ok (2, [mkBNode (bytes (make (2 * BTREE_PAGE_SIZE))) BTREE_PAGE_SIZE;
            make BTREE_PAGE_SIZE; nil_node]).
Proof.
  intros Hsz Hlt. unfold nodeSplit3. rewrite Hsz. cbn [bind].
  destruct (Z.leb_spec sz BTREE_PAGE_SIZE); [lia|].
  replace (nbytes (make (2 * BTREE_PAGE_SIZE))) with (@Ok Z 4)
    by (vm_compute; reflexivity).
  cbn [bind]. change (4 <=? BTREE_PAGE_SIZE) with true. cbv iota.
  unfold trim_page. rewrite bcap_make by (unfold BTREE_PAGE_SIZE; lia).
  unfold BTREE_PAGE_SIZE. checks. reflexivity.
Qed.

(** ** [leafInsert] and the pair *)

(** The result of [leafInsert] is the same for every key and value. *)
Lemma leafInsert_ignores_pair (new old : BNode) (idx : Z)
    (key val key' val' : list byte) :
  leafInsert new old idx key val = leafInsert new old idx key' val'.
Proof. reflexivity. Qed.

(** ** Witnesses *)

Lemma Delete_only_entry_witness :
  Delete 1 tree_one (B "k") =
    Ok (true, mkBTree 0 (delete (root tree_one) (pages tree_one))
                      (fresh tree_one)
                      (calls tree_one ++ [CallDel (root tree_one)])).
Proof.
  apply (Delete_only_entry 0 tree_one (get_ok leaf_one) (B "k")).
  - vm_compute. discriminate.
  - vm_compute. reflexivity.
  - vm_compute. reflexivity.
  - vm_compute. reflexivity.
  - vm_compute. reflexivity.
Defined.

Lemma nodeLookUpLE_ascending_witness :
  exists i, nodeLookUpLE (get_ok leaf_sorted) (B "b") = Ok i /\
    0 <= i < 3 /\
    cmp_le0 (bytes_compare (nth (Z.to_nat i) [B ""; B "a"; B "c"] []) (B "b")) = true /\
    (forall j, i < j < 3 ->
       bytes_compare (nth (Z.to_nat j) [B ""; B "a"; B "c"] []) (B "b") = Gt) /\
    (forall j, 1 <= j < 3 -> nth (Z.to_nat j) [B ""; B "a"; B "c"] [] = B "b" -> i = j) /\
    ((forall j, 1 <= j < 3 ->
        cmp_le0 (bytes_compare (nth (Z.to_nat j) [B ""; B "a"; B "c"] []) (B "b")) = false) ->
     i = 0).
Proof.
  apply (nodeLookUpLE_ascending (get_ok leaf_sorted) (B "b") 3 [B ""; B "a"; B "c"]).
  - vm_compute. reflexivity.
  - lia.
  - vm_compute. reflexivity.
  - vm_compute. reflexivity.
  - vm_compute. reflexivity.
Defined.

Lemma empty_key_is_sentinel_witness :
  exists t, Insert 0 newC (B "k") (B "v") = Ok t /\
    (B "k" = [] -> Get 1 t [] = Ok (Some (B "v"))) /\
    (B "k" <> [] -> Get 1 t [] = Ok (Some [])) /\
    exists t', Delete 1 t [] = Ok (true, t').
Proof.
  apply (empty_key_is_sentinel (B "k") (B "v")).
  - unfold BTREE_MAX_KEY_SIZE, len, B. simpl. lia.
  - unfold BTREE_MAX_VAL_SIZE, len, B. simpl. lia.
Defined.

Lemma treeInsert_leaf_in_bounds_witness :
  exists new, treeInsert 1 newC (get_ok leaf_k) (B "m") (B "w") = Ok (new, newC) /\
    blen new = 2 * BTREE_PAGE_SIZE /\ bcap new = 2 * BTREE_PAGE_SIZE /\
    forall idx k, nodeLookUpLE (get_ok leaf_k) (B "m") = Ok idx ->
      getKey (get_ok leaf_k) idx = Ok k ->
      bytes_equal (B "m") k = false ->
      exists new', nodeAppendKV new (idx + 1) 0 (B "m") (B "w") = Ok new' /\
        blen new' = 2 * BTREE_PAGE_SIZE.
Proof.
  apply (treeInsert_leaf_in_bounds 0 newC (get_ok leaf_k) (B "m") (B "w") 34).
  - vm_compute. reflexivity.
  - vm_compute. reflexivity.
  - vm_compute. reflexivity.
  - unfold BTREE_PAGE_SIZE. lia.
  - unfold BTREE_MAX_KEY_SIZE, len, B. simpl. lia.
  - unfold BTREE_MAX_VAL_SIZE, len, B. simpl. lia.
Defined.

(** * Further properties *)

(** ** Eight-byte fields *)

Lemma le_decode_le_encode w : forall v,
  le_decode (le_encode w v) = v mod 256 ^ Z.of_nat w.
Proof.
  induction w as [|w IH]; intros v.
  - cbn. rewrite Z.mod_1_r. reflexivity.
  - cbn [le_encode le_decode]. rewrite IH, Z_of_byte_of_Z.
    rewrite Nat2Z.inj_succ, Z.pow_succ_r by lia.
    rewrite Z.rem_mul_r by lia. reflexivity.
Qed.

Lemma le_decode_bound bs : le_decode bs < 256 ^ len bs.
Proof.
  unfold len. induction bs as [|b bs IH].
  - cbn. lia.
  - cbn [le_decode length]. rewrite Nat2Z.inj_succ, Z.pow_succ_r by lia.
    pose proof (Z_of_byte_range b). lia.
Qed.

Lemma len_sub_le bs lo hi : 0 <= lo <= hi -> len (sub bs lo hi) <= hi - lo.
Proof.
  intros H. unfold sub, len. rewrite List.length_firstn. lia.
Qed.

Lemma u64_range bs p : 0 <= p -> 0 <= u64 bs p < 2 ^ 64.
Proof.
  intros Hp. unfold u64. split; [apply le_decode_nonneg|].
  pose proof (le_decode_bound (sub bs p (p + 8))) as H.
  pose proof (len_sub_le bs p (p + 8) ltac:(lia)) as L.
  pose proof (len_nonneg (sub bs p (p + 8))) as L0.
  assert (256 ^ len (sub bs p (p + 8)) <= 256 ^ 8).
  { apply Z.pow_le_mono_r; lia. }
  change (2 ^ 64) with (256 ^ 8). lia.
Qed.

Lemma u64_write_same bs pos v :
  0 <= pos -> pos + 8 <= len bs -> 0 <= v < 2 ^ 64 ->
  u64 (write bs pos (le_encode 8 v)) pos = v.
Proof.
  intros H0 H1 Hv. unfold u64.
  replace (pos + 8) with (pos + len (le_encode 8 v)) by (rewrite len_le_encode; lia).
  rewrite sub_write_same by (rewrite ?len_le_encode; lia).
  rewrite le_decode_le_encode. change (256 ^ Z.of_nat 8) with (2 ^ 64).
  apply Z.mod_small. assumption.
Qed.

Lemma touched_u64 R a b q :
  touched R a b -> 0 <= q -> q + 8 <= len (bytes a) ->
  (forall p, q <= p < q + 8 -> ~ R p) ->
  u64 (bytes b) q = u64 (bytes a) q.
Proof.
  intros T H0 H1 HR. unfold u64. f_equal.
  apply (touched_sub R); try assumption; lia.
Qed.

Lemma le_decode_zeros k : le_decode (repeat x00 k) = 0.
Proof. induction k as [|k IH]; cbn [repeat le_decode]; [reflexivity|]. rewrite IH. reflexivity. Qed.

Lemma u64_zero bs q :
  0 <= q -> q + 8 <= len bs ->
  (forall p, q <= p < q + 8 -> byte_at bs p = x00) -> u64 bs q = 0.
Proof.
  intros H0 H1 Hz. unfold u64.
  replace (sub bs q (q + 8)) with (repeat x00 8); [apply le_decode_zeros|].
  apply bytes_ext.
  - rewrite len_sub by lia. unfold len. rewrite repeat_length. lia.
  - intros p Hp. unfold len in Hp. rewrite repeat_length in Hp.
    rewrite byte_at_sub by lia. rewrite Hz by lia.
    unfold byte_at. apply nth_repeat.
Qed.

Lemma getPtr_eq node n idx :
  nkeys node = Ok n -> 0 <= idx < n -> 4 + 8 * n <= bcap node ->
  4 + 8 * n <= 65536 ->
  getPtr node idx = Ok (u64 (bytes node) (4 + 8 * idx)).
Proof.
  intros Hn Hi Hc Hs. unfold getPtr, slice, HEADER. rewrite Hn. cbn [bind].
  rewrite !wrap16_small by (rewrite ?wrap16_small; lia). checks. reflexivity.
Qed.

Lemma touched_btype_eq R a b :
  touched R a b -> (forall p, R p -> 4 <= p) -> btype b = btype a.
Proof.
  intros T HR. unfold btype, slice. rewrite (touched_bcap _ _ _ T).
  destruct (Z.leb_spec 2 (bcap a)) as [Hc|Hc].
  - replace ((0 <=? 2) && true) with true by reflexivity. cbn [assert bind].
    f_equal. f_equal. apply (touched_sub _ _ _ _ _ T); try lia.
    + rewrite <- bcap_len. lia.
    + intros p Hp Hr. apply HR in Hr. lia.
  - reflexivity.
Qed.

Lemma btype_range node ty : btype node = Ok ty -> wrap16 ty = ty.
Proof.
  unfold btype, slice. intros H. inv_ok.
  apply andb_true_iff in E0. destruct E0 as [_ E0]. apply Z.leb_le in E0.
  replace (sub (bytes node) 0 2) with (sub (bytes node) 0 (0 + 2)) by reflexivity.
  rewrite (le_decode_sub16 (bytes node) 0) by (rewrite <- ?bcap_len; lia).
  apply wrap16_small, u16_range.
Qed.

(** ** Setters and getters of the codec *)

(** X1: on a node whose backing array holds at least the four bytes of the
    header, [setHeader] returns, [btype] and [nkeys] read back the type and
    the key count it was given (as [uint16]s), and the length, the capacity
    and every byte after the header are as they were. *)
Theorem setHeader_read_back (node : BNode) (ty n : Z) :
  4 <= bcap node ->
  exists node', setHeader node ty n = Ok node' /\
    btype node' = Ok (wrap16 ty) /\ nkeys node' = Ok (wrap16 n) /\
    blen node' = blen node /\ bcap node' = bcap node /\
    forall p, 4 <= p -> byte_at (bytes node') p = byte_at (bytes node) p.
Proof.
  intros Hc. rewrite setHeader_eq by lia.
  set (node' := mkBNode _ _).
  pose proof (bcap_len node) as Hl.
  assert (L1 : len (write (bytes node) 0 (le_encode 2 ty)) = len (bytes node)).
  { rewrite len_write; rewrite ?len_le_encode; lia. }
  assert (L2 : bcap node' = bcap node).
  { rewrite !bcap_len. unfold node'. cbn [bytes].
    rewrite len_write; rewrite ?len_le_encode; lia. }
  exists node'. split; [reflexivity|]. split; [|split; [|split; [|split]]].
  - rewrite btype_eq by lia. unfold node'. cbn [bytes].
    rewrite u16_write_other by (rewrite ?len_le_encode; lia).
    rewrite u16_write_same by lia. reflexivity.
  - rewrite nkeys_eq by lia. unfold node'. cbn [bytes].
    rewrite u16_write_same by lia. reflexivity.
  - reflexivity.
  - assumption.
  - intros p Hp. unfold node'. cbn [bytes].
    rewrite !byte_at_write_out by (rewrite ?len_le_encode; lia). reflexivity.
Qed.

Lemma setHeader_read_back_witness :
  exists node', setHeader (make BTREE_PAGE_SIZE) BNODE_LEAF 2 = Ok node' /\
    btype node' = Ok (wrap16 BNODE_LEAF) /\ nkeys node' = Ok (wrap16 2) /\
    blen node' = blen (make BTREE_PAGE_SIZE) /\
    bcap node' = bcap (make BTREE_PAGE_SIZE) /\
    forall p, 4 <= p ->
      byte_at (bytes node') p = byte_at (bytes (make BTREE_PAGE_SIZE)) p.
Proof.
  apply (setHeader_read_back (make BTREE_PAGE_SIZE) BNODE_LEAF 2).
  apply Z.leb_le. vm_compute. reflexivity.
Defined.

(** X2: for a slot below the key count of a node whose pointer array lies
    within the backing array and below position 65536, [setPtr] returns and
    [getPtr] reads the pointer back; the pointers of the other slots, the
    header, the length and every byte after the pointer array are as they
    were. *)
Theorem setPtr_getPtr (node : BNode) (n idx v : Z) :
  nkeys node = Ok n -> 0 <= idx < n ->
  HEADER + 8 * n <= bcap node -> HEADER + 8 * n <= 65536 ->
  0 <= v < 2 ^ 64 ->
  exists node', setPtr node idx v = Ok node' /\
    getPtr node' idx = Ok v /\
    (forall j, 0 <= j < n -> j <> idx -> getPtr node' j = getPtr node j) /\
    nkeys node' = Ok n /\ btype node' = btype node /\ blen node' = blen node /\
    forall p, HEADER + 8 * n <= p -> byte_at (bytes node') p = byte_at (bytes node) p.
Proof.
  unfold HEADER. intros Hn Hi Hc Hs Hv.
  rewrite (setPtr_eq node n idx v) by (assumption || lia).
  destruct (write_step node n (4 + 8 * idx) (le_encode 8 v) Hn)
    as (N1 & C1 & T1); [lia | rewrite len_le_encode; lia |].
  rewrite len_le_encode in T1.
  set (node' := mkBNode _ _) in *.
  exists node'. split; [reflexivity|].
  split; [|split; [|split; [assumption|split; [|split; [reflexivity|]]]]].
  - rewrite (getPtr_eq node' n idx) by (assumption || lia).
    unfold node'. cbn [bytes]. rewrite u64_write_same; try lia; try reflexivity.
    rewrite <- bcap_len. lia.
  - intros j Hj Hne.
    rewrite (getPtr_eq node' n j), (getPtr_eq node n j) by (assumption || lia).
    f_equal. apply (touched_u64 _ _ _ _ T1); try lia.
    + rewrite <- bcap_len. lia.
    + unfold ival. intros p Hp. lia.
  - apply (touched_btype_eq _ _ _ T1). unfold ival. intros p Hp. lia.
  - intros p Hp. destruct T1 as (_ & _ & F). apply F; [lia|]. unfold ival. lia.
Qed.

Lemma setPtr_getPtr_witness :
  exists node', setPtr (get_ok node_abc) 1 99 = Ok node' /\
    getPtr node' 1 = Ok 99 /\
    (forall j, 0 <= j < 3 -> j <> 1 -> getPtr node' j = getPtr (get_ok node_abc) j) /\
    nkeys node' = Ok 3 /\ btype node' = btype (get_ok node_abc) /\
    blen node' = blen (get_ok node_abc) /\
    forall p, HEADER + 8 * 3 <= p ->
      byte_at (bytes node') p = byte_at (bytes (get_ok node_abc)) p.
Proof.
  apply (setPtr_getPtr (get_ok node_abc) 3 1 99).
  - vm_compute. reflexivity.
  - lia.
  - apply Z.leb_le. vm_compute. reflexivity.
  - unfold HEADER. lia.
  - split; [lia | reflexivity].
Defined.

(** X3: for an index from 1 to the key count of a node whose pointer and
    offset arrays lie within the slice and below position 65536,
    [setOffset] returns and [getOffset] reads the offset back, as a
    [uint16]; the other offsets, the pointers, the header and the length are
    as they were. *)
Theorem setOffset_getOffset (node : BNode) (n idx v : Z) :
  nkeys node = Ok n -> 1 <= idx <= n ->
  HEADER + 8 * n + 2 * n <= blen node -> blen node <= bcap node ->
  HEADER + 8 * n + 2 * n <= 65536 ->
  exists node', setOffset node idx v = Ok node' /\
    getOffset node' idx = Ok (wrap16 v) /\
    (forall j, 0 <= j <= n -> j <> idx -> getOffset node' j = getOffset node j) /\
    (forall j, 0 <= j < n -> getPtr node' j = getPtr node j) /\
    nkeys node' = Ok n /\ btype node' = btype node /\ blen node' = blen node.
Proof.
  unfold HEADER. intros Hn Hi Hl Hc Hs.
  rewrite (setOffset_eq node n idx v) by (assumption || lia).
  destruct (write_step node n (4 + 8 * n + 2 * (idx - 1)) (le_encode 2 v) Hn)
    as (N1 & C1 & T1); [lia | rewrite len_le_encode; lia |].
  rewrite len_le_encode in T1.
  set (node' := mkBNode _ _) in *.
  assert (B1 : blen node' = blen node) by reflexivity.
  exists node'. split; [reflexivity|].
  split; [|split; [|split; [|split; [assumption|split; [|reflexivity]]]]].
  - rewrite (getOffset_eq node' n idx) by (try assumption; lia).
    unfold off. destruct (Z.eqb_spec idx 0); [lia|].
    unfold node'. cbn [bytes]. rewrite u16_write_same; [reflexivity | lia |].
    rewrite <- bcap_len. lia.
  - intros j Hj Hne.
    rewrite (getOffset_eq node' n j), (getOffset_eq node n j)
      by (try assumption; lia).
    f_equal. apply (touched_off _ _ _ _ _ T1); try lia.
    intros Hj0 p Hp. unfold ival. lia.
  - intros j Hj.
    rewrite (getPtr_eq node' n j), (getPtr_eq node n j) by (assumption || lia).
    f_equal. apply (touched_u64 _ _ _ _ T1); try lia.
    + rewrite <- bcap_len. lia.
    + unfold ival. intros p Hp. lia.
  - apply (touched_btype_eq _ _ _ T1). unfold ival. intros p Hp. lia.
Qed.

Lemma setOffset_getOffset_witness :
  exists node', setOffset (get_ok node_abc) 2 7 = Ok node' /\
    getOffset node' 2 = Ok (wrap16 7) /\
    (forall j, 0 <= j <= 3 -> j <> 2 ->
       getOffset node' j = getOffset (get_ok node_abc) j) /\
    (forall j, 0 <= j < 3 -> getPtr node' j = getPtr (get_ok node_abc) j) /\
    nkeys node' = Ok 3 /\ btype node' = btype (get_ok node_abc) /\
    blen node' = blen (get_ok node_abc).
Proof.
  apply (setOffset_getOffset (get_ok node_abc) 3 2 7).
  - vm_compute. reflexivity.
  - lia.
  - apply Z.leb_le. vm_compute. reflexivity.
  - apply Z.leb_le. vm_compute. reflexivity.
  - unfold HEADER. lia.
Defined.

(** ** [nodeLookUpLE] on any node *)

Lemma cmp_ge0_false c : cmp_ge0 c = false -> c = Lt.
Proof. destruct c; simpl; congruence. Qed.

Lemma lookup_loop_scan node key todo : forall i r,
  lookup_loop node key todo i (i - 1) = Ok r ->
  i - 1 <= r <= i - 1 + Z.of_nat todo /\
  (forall j, i <= j < r ->
     exists k, getKey node j = Ok k /\ bytes_compare k key = Lt) /\
  (i <= r ->
     exists k, getKey node r = Ok k /\ cmp_le0 (bytes_compare k key) = true) /\
  (r < i - 1 + Z.of_nat todo ->
     (i <= r /\ getKey node r = Ok key) \/
     exists k, getKey node (r + 1) = Ok k /\ bytes_compare k key = Gt).
Proof.
  induction todo as [|todo IH]; intros i r H; cbn [lookup_loop] in H.
  - injection H as <-. split; [lia|]. split; [|split]; intros; lia.
  - destruct (getKey node i) as [k| |] eqn:Ek; try discriminate. cbn [bind] in H.
    destruct (bytes_compare k key) eqn:Ec; cbn [cmp_le0 cmp_ge0] in H.
    + injection H as <-. apply bytes_compare_eq in Ec as Eq. subst k.
      split; [lia|]. split; [|split].
      * intros j Hj. lia.
      * intros _. exists key. rewrite Ec. auto.
      * intros _. left. split; [lia | assumption].
    + replace i with (i + 1 - 1) in H at 2 by lia.
      destruct (IH (i + 1) r H) as (R & A & B & C).
      split; [lia|]. split; [|split].
      * intros j Hj. destruct (Z.eq_dec j i) as [->|Hne]; [eauto|]. apply A. lia.
      * intros _. destruct (Z.eq_dec r i) as [->|Hne].
        -- exists k. rewrite Ec. auto.
        -- apply B. lia.
      * intros Hr. destruct C as [[C1 C2]|C];
          [lia | left; split; [lia|assumption] | right; assumption].
    + injection H as <-. split; [lia|]. split; [|split].
      * intros j Hj. lia.
      * intros Hi. lia.
      * intros _. right. exists k. replace (i - 1 + 1) with i by lia. auto.
Qed.

Lemma lookup_loop_returns node key todo : forall i found,
  (forall j, i <= j < i + Z.of_nat todo -> exists k, getKey node j = Ok k) ->
  exists r, lookup_loop node key todo i found = Ok r.
Proof.
  induction todo as [|todo IH]; intros i found Hk; cbn [lookup_loop].
  - eauto.
  - destruct (Hk i ltac:(lia)) as [k Ek]. rewrite Ek. cbn [bind].
    destruct (cmp_ge0 (bytes_compare k key)); [eauto|].
    apply IH. intros j Hj. apply Hk. lia.
Qed.

Lemma lookup_loop_ext node node' key todo : forall i found,
  (forall j, i <= j < i + Z.of_nat todo -> getKey node' j = getKey node j) ->
  lookup_loop node' key todo i found = lookup_loop node key todo i found.
Proof.
  induction todo as [|todo IH]; intros i found Hk; cbn [lookup_loop].
  - reflexivity.
  - rewrite (Hk i) by lia. destruct (getKey node i) as [k| |]; try reflexivity.
    cbn [bind]. destruct (cmp_ge0 (bytes_compare k key)); [reflexivity|].
    apply IH. intros j Hj. apply Hk. lia.
Qed.

(** X4: on a node of [n] keys whose slots from 1 on can be read,
    [nodeLookUpLE] returns, whatever the order of the keys.  The index [r] it
    returns is 0 or a slot below the key count; the keys of the slots from 1
    up to [r], [r] excluded, are smaller than the key looked up; the key of
    slot [r], when [r] is not 0, is smaller or equal; and when a slot follows
    [r], either slot [r] holds the key itself or the key of slot [r + 1] is
    greater.  The key of slot 0 is never read: a node with the same count
    and the same keys in the slots from 1 on gets the same index, also when
    its slot 0 cannot be read. *)
Theorem nodeLookUpLE_scan (node : BNode) (key : list byte) (n : Z) :
  nkeys node = Ok n ->
  (forall j, 1 <= j < n -> exists k, getKey node j = Ok k) ->
  exists r, nodeLookUpLE node key = Ok r /\
    0 <= r /\ (r = 0 \/ r < n) /\
    (forall j, 1 <= j < r ->
       exists k, getKey node j = Ok k /\ bytes_compare k key = Lt) /\
    (1 <= r ->
       exists k, getKey node r = Ok k /\ cmp_le0 (bytes_compare k key) = true) /\
    (r + 1 < n ->
       (1 <= r /\ getKey node r = Ok key) \/
       exists k, getKey node (r + 1) = Ok k /\ bytes_compare k key = Gt) /\
    (forall node', nkeys node' = Ok n ->
       (forall j, 1 <= j < n -> getKey node' j = getKey node j) ->
       nodeLookUpLE node' key = Ok r).
Proof.
  intros Hn Hk. unfold nodeLookUpLE. rewrite Hn. cbn [bind].
  destruct (lookup_loop_returns node key (Z.to_nat (n - 1)) 1 0) as [r H].
  { intros j Hj. apply Hk. lia. }
  exists r. split; [exact H|].
  change (lookup_loop node key (Z.to_nat (n - 1)) 1 0)
    with (lookup_loop node key (Z.to_nat (n - 1)) 1 (1 - 1)) in H.
  destruct (lookup_loop_scan node key _ 1 r H) as (R & A & B & C).
  split; [lia|]. split; [lia|]. split; [exact A|]. split; [exact B|].
  split.
  - intros Hr. apply C. lia.
  - intros node' Hn' Hk'. rewrite Hn'. cbn [bind].
    rewrite (lookup_loop_ext node node') by (intros j Hj; apply Hk'; lia).
    exact H.
Qed.

Lemma nodeLookUpLE_scan_witness :
  exists r, nodeLookUpLE (get_ok leaf_unsorted) (B "b") = Ok r /\
    0 <= r /\ (r = 0 \/ r < 3) /\
    (forall j, 1 <= j < r ->
       exists k, getKey (get_ok leaf_unsorted) j = Ok k /\
         bytes_compare k (B "b") = Lt) /\
    (1 <= r ->
       exists k, getKey (get_ok leaf_unsorted) r = Ok k /\
         cmp_le0 (bytes_compare k (B "b")) = true) /\
    (r + 1 < 3 ->
       (1 <= r /\ getKey (get_ok leaf_unsorted) r = Ok (B "b")) \/
       exists k, getKey (get_ok leaf_unsorted) (r + 1) = Ok k /\
         bytes_compare k (B "b") = Gt) /\
    (forall node', nkeys node' = Ok 3 ->
       (forall j, 1 <= j < 3 -> getKey node' j = getKey (get_ok leaf_unsorted) j) ->
       nodeLookUpLE node' (B "b") = Ok r).
Proof.
  apply (nodeLookUpLE_scan (get_ok leaf_unsorted) (B "b") 3).
  - vm_compute. reflexivity.
  - intros j Hj. assert (j = 1 \/ j = 2) as [-> | ->] by lia;
      eexists; vm_compute; reflexivity.
Defined.

(** ** What [nodeAppendRange] copies *)

Lemma copy_ptrs_copy old on nn dst src todo : forall i new,
  nkeys old = Ok on -> 4 + 8 * on <= bcap old -> 4 + 8 * on <= 65536 ->
  nkeys new = Ok nn -> 4 + 8 * nn <= bcap new -> 4 + 8 * nn <= 65536 ->
  0 <= src -> 0 <= dst -> 0 <= i ->
  src + i + Z.of_nat todo <= on -> dst + i + Z.of_nat todo <= nn ->
  exists new', copy_ptrs new old dst src todo i = Ok new' /\
    touched (ival (4 + 8 * (dst + i)) (4 + 8 * (dst + i + Z.of_nat todo)))
            new new' /\
    forall j, i <= j < i + Z.of_nat todo ->
      u64 (bytes new') (4 + 8 * (dst + j)) = u64 (bytes old) (4 + 8 * (src + j)).
Proof.
  induction todo as [|todo IH]; intros i new Ho Hoc Hos Hn Hnc Hns H0 H1 H2 H3 H4;
    cbn [copy_ptrs].
  - exists new. split; [reflexivity|]. split; [apply touched_refl|]. intros j Hj; lia.
  - rewrite !wrap16_small by lia.
    rewrite (getPtr_eq old on (src + i)) by (assumption || lia). cbn [bind].
    set (v := u64 (bytes old) (4 + 8 * (src + i))).
    rewrite (setPtr_eq new nn (dst + i) v) by (assumption || lia). cbn [bind].
    set (new1 := mkBNode _ _).
    assert (T1 : touched (ival (4 + 8 * (dst + i)) (4 + 8 * (dst + i) + 8)) new new1).
    { apply (touched_write new (4 + 8 * (dst + i)) (le_encode 8 v)).
      - lia.
      - rewrite len_le_encode, <- bcap_len. lia. }
    destruct (IH (i + 1) new1) as (new' & Hr & T2 & V2); try assumption; try lia.
    + apply (touched_nkeys _ new new1 nn T1); [unfold ival; intros; lia | assumption].
    + rewrite (touched_bcap _ _ _ T1). assumption.
    + exists new'. split; [assumption|]. split.
      * eapply touched_trans; [exact T1 | exact T2 | |]; unfold ival; intros; lia.
      * intros j Hj. destruct (Z.eq_dec j i) as [->|Hne]; [|apply V2; lia].
        rewrite (touched_u64 _ _ _ _ T2); try (unfold ival; lia).
        -- unfold new1. cbn [bytes]. apply u64_write_same; try lia.
           ++ rewrite <- bcap_len. lia.
           ++ apply u64_range. lia.
        -- destruct T1 as (_ & L1 & _). rewrite L1, <- bcap_len. lia.
Qed.

Lemma nodeAppendRange_copy new old nn on dst src n :
  layout old on -> 0 <= src -> 0 <= n -> src + n <= on ->
  nkeys new = Ok nn -> 0 <= dst -> dst + n <= nn ->
  4 + 10 * nn <= blen new -> blen new <= bcap new -> blen new < 65536 ->
  (n <> 0 -> 4 + 10 * nn + off (bytes new) nn dst <= blen new) ->
  exists new', nodeAppendRange new old dst src n = Ok new' /\
    touched (range_region nn dst n (off (bytes new) nn dst)
               (off (bytes old) on (src + n) - off (bytes old) on src))
            new new' /\
    (forall j, 1 <= j <= n ->
      off (bytes new') nn (dst + j) =
        wrap16 (off (bytes new) nn dst +
                wrap16 (off (bytes old) on (src + j) - off (bytes old) on src))) /\
    (forall j, 0 <= j < n ->
      u64 (bytes new') (4 + 8 * (dst + j)) = u64 (bytes old) (4 + 8 * (src + j))) /\
    (4 + 10 * nn + off (bytes new) nn dst +
       (off (bytes old) on (src + n) - off (bytes old) on src) <= blen new ->
     forall p, 0 <= p < off (bytes old) on (src + n) - off (bytes old) on src ->
       byte_at (bytes new') (4 + 10 * nn + off (bytes new) nn dst + p) =
         byte_at (bytes old) (4 + 10 * on + off (bytes old) on src + p)).
Proof.
  intros L Hs Hn Hsn Hnn Hd Hdn Hl Hc Hsm Hkv.
  pose proof (layout_n _ _ L) as Hon.
  destruct L as [Hok Hoc Hsz Hsmall Hmono].
  pose proof (off_nonneg (bytes old) on on) as Hoff.
  unfold nodeAppendRange. rewrite Hok, Hnn. cbn [bind].
  rewrite !wrap16_small by lia. checks.
  destruct (Z.eqb_spec n 0) as [->|Hn0].
  { exists new. split; [reflexivity|]. split; [apply touched_refl|].
    split; [intros j Hj; lia|]. split; [intros j Hj; lia|].
    intros _ p Hp. rewrite Z.add_0_r in Hp. lia. }
  specialize (Hkv Hn0).
  set (d := off (bytes new) nn dst) in *.
  assert (Hd0 : 0 <= d) by apply off_nonneg.
  (* the pointers *)
  destruct (copy_ptrs_copy old on nn dst src (Z.to_nat n) 0 new)
    as (new1 & E1 & T1 & P1); try assumption; try lia.
  rewrite E1. cbn [bind]. rewrite Z.add_0_r, Z2Nat.id in T1 by lia.
  rewrite Z2Nat.id in P1 by lia.
  assert (Hn1 : nkeys new1 = Ok nn).
  { apply (touched_nkeys _ _ _ _ T1); [unfold ival; intros; lia | assumption]. }
  assert (Hb1 : blen new1 = blen new) by apply T1.
  assert (Hc1 : bcap new1 = bcap new) by apply (touched_bcap _ _ _ T1).
  assert (Hd1 : off (bytes new1) nn dst = d).
  { unfold d, off. destruct (Z.eqb_spec dst 0); [reflexivity|].
    apply (touched_u16 _ _ _ _ T1); unfold ival; lia. }
  rewrite (getOffset_eq new1 nn dst) by (assumption || lia). cbn [bind].
  rewrite Hd1.
  rewrite (getOffset_eq old on src) by (assumption || lia). cbn [bind].
  (* the offsets *)
  destruct (copy_offsets_spec old on nn dst src d (off (bytes old) on src)
              (Z.to_nat n) 1 new1)
    as (new2 & E2 & T2 & V2); try assumption; try lia.
  rewrite E2. cbn [bind]. rewrite Z2Nat.id in T2, V2 by lia.
  assert (Hn2 : nkeys new2 = Ok nn).
  { apply (touched_nkeys _ _ _ _ T2); [unfold ival; intros; lia | assumption]. }
  assert (Hb2 : blen new2 = blen new) by (destruct T2 as [-> _]; assumption).
  assert (Hc2 : bcap new2 = bcap new)
    by (rewrite (touched_bcap _ _ _ T2); assumption).
  assert (Hd2 : off (bytes new2) nn dst = d).
  { rewrite <- Hd1. unfold off. destruct (Z.eqb_spec dst 0); [reflexivity|].
    apply (touched_u16 _ _ _ _ T2); unfold ival; lia. }
  destruct (Z.eqb_spec n 65535); [lia|]. cbn [bind].
  (* the entries *)
  pose proof (Hmono src (src + n) ltac:(lia) ltac:(lia)) as Hm1.
  pose proof (Hmono (src + n) on ltac:(lia) ltac:(lia)) as Hm2.
  pose proof (off_nonneg (bytes old) on src) as Hm0.
  rewrite (kvPos_eq old on src) by (assumption || lia). cbn [bind].
  rewrite (kvPos_eq old on (src + n)) by (assumption || lia). cbn [bind].
  rewrite (kvPos_eq new2 nn dst) by (assumption || lia). cbn [bind].
  rewrite Hd2. unfold slice, copy_at. checks.
  set (src_bytes := sub (bytes old) (4 + 10 * on + off (bytes old) on src)
                        (4 + 10 * on + off (bytes old) on (src + n))).
  set (data := firstn _ _).
  set (new3 := mkBNode _ _).
  assert (Hsrc : len src_bytes = off (bytes old) on (src + n) - off (bytes old) on src).
  { unfold src_bytes. rewrite len_sub by (rewrite <- ?bcap_len; lia). lia. }
  assert (Hdata : len data <= off (bytes old) on (src + n) - off (bytes old) on src
                  /\ len data <= blen new2 - (4 + 10 * nn + d)).
  { unfold data.
    destruct (len_firstn_le (blen new2 - (4 + 10 * nn + d)) src_bytes) as [A B]; lia. }
  assert (T3 : touched (ival (4 + 10 * nn + d) (4 + 10 * nn + d + len data)) new2 new3).
  { apply (touched_write new2 (4 + 10 * nn + d) data); [lia|].
    rewrite <- bcap_len. lia. }
  exists new3. split; [reflexivity|]. split; [|split; [|split]].
  - destruct T1 as (B1 & L1 & F1), T2 as (B2 & L2 & F2), T3 as (B3 & L3 & F3).
    split; [congruence|]. split; [congruence|].
    intros p Hp HR. unfold range_region, ival in *.
    rewrite F3, F2, F1 by lia. reflexivity.
  - intros j Hj. rewrite <- (V2 j) by lia.
    unfold off. destruct (Z.eqb_spec (dst + j) 0); [reflexivity|].
    apply (touched_u16 _ _ _ _ T3); unfold ival; lia.
  - intros j Hj. rewrite <- (P1 j) by lia.
    rewrite (touched_u64 _ _ _ _ T3), (touched_u64 _ _ _ _ T2);
      unfold ival; try lia; rewrite <- ?bcap_len; lia.
  - intros Hroom p Hp.
    assert (Hfull : data = src_bytes).
    { unfold data. apply firstn_fits. lia. }
    unfold new3. cbn [bytes]. rewrite Hfull.
    rewrite byte_at_write_in by (rewrite <- ?bcap_len; lia).
    replace (4 + 10 * nn + d + p - (4 + 10 * nn + d)) with p by lia.
    unfold src_bytes. rewrite byte_at_sub by lia. reflexivity.
Qed.

(** ** Packed entries *)

Lemma size_at_min bs n i : 4 <= size_at bs n i.
Proof.
  unfold size_at. pose proof (u16_nonneg bs (kv_at bs n i)).
  pose proof (u16_nonneg bs (kv_at bs n i + 2)). lia.
Qed.

Lemma packed_mono node n k : packed node n k ->
  forall i j, 0 <= i <= j -> j <= k ->
  off (bytes node) n i <= off (bytes node) n j.
Proof.
  intros P i j Hij Hj.
  replace j with (i + Z.of_nat (Z.to_nat (j - i))) in * by lia.
  induction (Z.to_nat (j - i)) as [|d IH].
  - rewrite Z.add_0_r. lia.
  - etransitivity; [apply IH; lia|].
    replace (i + Z.of_nat (S d)) with (i + Z.of_nat d + 1) by lia.
    rewrite (pk_next _ _ _ P) by lia.
    pose proof (size_at_min (bytes node) n (i + Z.of_nat d)). lia.
Qed.

Lemma packed_layout node n : packed node n n -> layout node n.
Proof.
  intros P. destruct P as [Hn Hk Hc He Hs Hx] eqn:EP. unfold kv_at in *.
  constructor; try assumption.
  intros i j Hij Hj. apply (packed_mono node n n); assumption.
Qed.

(** The accessors on a packed entry. *)
Lemma packed_entry node n k i : packed node n k -> 0 <= i < k ->
  entry node i = Ok (entry_at (bytes node) n i).
Proof.
  intros P Hi. pose proof (packed_mono _ _ _ P) as M.
  pose proof (pk_next _ _ _ P i Hi) as Hx.
  pose proof (M (i + 1) k ltac:(lia) ltac:(lia)) as M1.
  destruct P as [Hn Hk Hc He Hs _]. unfold size_at, kv_at in *.
  pose proof (off_nonneg (bytes node) n i) as O0.
  pose proof (off_nonneg (bytes node) n k) as Ok0.
  pose proof (u16_range (bytes node) (4 + 10 * n + off (bytes node) n i)) as K.
  pose proof (u16_range (bytes node) (4 + 10 * n + off (bytes node) n i + 2)) as V.
  unfold entry.
  rewrite (getPtr_eq node n i) by (assumption || lia). cbn [bind].
  rewrite (getKey_eq node n i) by (try assumption; cbv zeta; lia). cbn [bind].
  rewrite (getVal_eq node n i) by (try assumption; cbv zeta; lia). cbn [bind].
  reflexivity.
Qed.

Lemma entries_from_ext node (f : Z -> Z * list byte * list byte) todo : forall i,
  (forall j, i <= j < i + Z.of_nat todo -> entry node j = Ok (f j)) ->
  entries_from node todo i = Ok (map (fun j => f (i + Z.of_nat j)) (seq 0 todo)).
Proof.
  induction todo as [|todo IH]; intros i H; cbn [entries_from].
  - reflexivity.
  - rewrite (H i) by lia. cbn [bind].
    rewrite IH by (intros j Hj; apply H; lia). cbn [bind seq map].
    rewrite Z.add_0_r. f_equal. f_equal.
    rewrite <- seq_shift, map_map. apply map_ext. intros j. f_equal. lia.
Qed.

Lemma entries_ext node n (f : Z -> Z * list byte * list byte) :
  nkeys node = Ok n -> (forall j, 0 <= j < n -> entry node j = Ok (f j)) ->
  entries node = Ok (map f (slots n)).
Proof.
  intros Hn H. unfold entries. rewrite Hn. cbn [bind].
  rewrite (entries_from_ext node f) by (intros j Hj; apply H; lia).
  unfold slots. rewrite map_map. reflexivity.
Qed.

Lemma entries_from_packed node n k todo : forall i,
  packed node n k -> 0 <= i -> i + Z.of_nat todo <= k ->
  entries_from node todo i =
    Ok (map (fun j => entry_at (bytes node) n (i + Z.of_nat j)) (seq 0 todo)).
Proof.
  induction todo as [|todo IH]; intros i P H0 H1; cbn [entries_from].
  - reflexivity.
  - rewrite (packed_entry node n k i P) by lia. cbn [bind].
    rewrite IH by (assumption || lia). cbn [bind seq map].
    rewrite Z.add_0_r. f_equal. f_equal.
    rewrite <- seq_shift, map_map. apply map_ext. intros j. f_equal. lia.
Qed.

Lemma packed_entries node n : packed node n n ->
  entries node = Ok (map (entry_at (bytes node) n) (slots n)).
Proof.
  intros P. unfold entries. rewrite (pk_nkeys _ _ _ P). cbn [bind].
  rewrite (entries_from_packed node n n) by (try assumption; destruct P; lia).
  unfold slots. rewrite map_map. reflexivity.
Qed.

Lemma packed_prefix node n k :
  packed node n k ->
  entries_from node (Z.to_nat k) 0 = Ok (map (entry_at (bytes node) n) (slots k)).
Proof.
  intros P. rewrite (entries_from_packed node n k) by (try assumption; destruct P; lia).
  unfold slots. rewrite map_map. reflexivity.
Qed.

Lemma packed_getOffset node n k i : packed node n k -> 0 <= i <= n ->
  getOffset node i = Ok (off (bytes node) n i).
Proof.
  intros [Hn Hk Hc He Hs _] Hi. unfold kv_at in *.
  pose proof (off_nonneg (bytes node) n k).
  apply getOffset_eq; try assumption; lia.
Qed.

Lemma packed_nkeys node n k m : packed node n k -> nkeys node = Ok m -> m = n.
Proof. intros P H. rewrite (pk_nkeys _ _ _ P) in H. congruence. Qed.

Lemma entry_inv node i p k v :
  entry node i = Ok (p, k, v) ->
  getPtr node i = Ok p /\ getKey node i = Ok k /\ getVal node i = Ok v.
Proof.
  unfold entry. intros H.
  destruct (getPtr node i) as [p'| |]; try discriminate. cbn [bind] in H.
  destruct (getKey node i) as [k'| |]; try discriminate. cbn [bind] in H.
  destruct (getVal node i) as [v'| |]; try discriminate. cbn [bind] in H.
  injection H as -> -> ->. auto.
Qed.

Lemma packed_getKey node n k i :
  packed node n k -> 0 <= i < k ->
  getKey node i = Ok (snd (fst (entry_at (bytes node) n i))).
Proof.
  intros P Hi. pose proof (packed_entry node n k i P Hi) as E.
  destruct (entry_at (bytes node) n i) as [[p key] val].
  apply entry_inv in E. apply E.
Qed.

Lemma entry_at_sizes node n k i p key val :
  packed node n k -> 0 <= i < k ->
  entry_at (bytes node) n i = (p, key, val) ->
  size_at (bytes node) n i = 4 + len key + len val.
Proof.
  intros P Hi H. pose proof (packed_mono _ _ _ P) as M.
  pose proof (pk_next _ _ _ P i Hi) as Hxi.
  destruct P as [Hn Hk Hc He Hs _]. unfold entry_at, size_at, kv_at in *.
  pose proof (off_nonneg (bytes node) n i) as Hi0.
  pose proof (M (i + 1) k ltac:(lia) ltac:(lia)) as M1.
  pose proof (u16_range (bytes node) (4 + 10 * n + off (bytes node) n i)) as K.
  pose proof (u16_range (bytes node) (4 + 10 * n + off (bytes node) n i + 2)) as V.
  injection H as _ <- <-.
  rewrite !len_sub by (rewrite <- ?bcap_len; lia). lia.
Qed.

Lemma well_formed_size node n : packed node n n -> 1 <= n ->
  18 <= 4 + 10 * n + off (bytes node) n n.
Proof.
  intros P Hn. pose proof (pk_next _ _ _ P 0 ltac:(lia)) as X.
  pose proof (packed_mono _ _ _ P 1 n ltac:(lia) ltac:(lia)) as M.
  pose proof (size_at_min (bytes node) n 0). change (0 + 1) with 1 in X.
  change (off (bytes node) n 0) with 0 in X. lia.
Qed.

(** ** Well-formed nodes are packed *)

Lemma wrap16_ge z : 65536 <= z < 131072 -> wrap16 z = z - 65536.
Proof.
  intros H. unfold wrap16.
  rewrite <- (Z.mod_small (z - 65536) 65536) by lia.
  replace z with (z - 65536 + 1 * 65536) at 1 by lia.
  apply Z_mod_plus_full.
Qed.

Lemma slots_In n i : In i (slots n) -> 0 <= i < n.
Proof.
  unfold slots. intros H. apply in_map_iff in H. destruct H as (j & <- & Hj).
  apply in_seq in Hj. lia.
Qed.

Lemma forallb_slots (f : Z -> bool) n :
  forallb f (slots n) = true <-> forall i, 0 <= i < n -> f i = true.
Proof.
  rewrite forallb_forall. split.
  - intros H i Hi. apply H, In_slots. assumption.
  - intros H i Hi. apply H, slots_In. assumption.
Qed.

Lemma getKey_len node n i k :
  nkeys node = Ok n -> 0 <= i < n ->
  4 + 10 * n <= blen node -> blen node <= bcap node ->
  kv_at (bytes node) n i + 4 < 65536 ->
  getKey node i = Ok k ->
  kv_at (bytes node) n i + 4 <= blen node /\
  len k = u16 (bytes node) (kv_at (bytes node) n i).
Proof.
  unfold kv_at. intros Hn Hi Hl Hc Hs Ek.
  pose proof (off_nonneg (bytes node) n i) as Hi0.
  pose proof (u16_range (bytes node) (4 + 10 * n + off (bytes node) n i)) as Hkl.
  unfold getKey in Ek. rewrite Hn in Ek. cbn [bind] in Ek.
  rewrite (kvPos_eq node n i) in Ek by (assumption || lia).
  rewrite assert_true in Ek by (apply Z.ltb_lt; lia). cbn [bind] in Ek.
  unfold get16 in Ek at 1.
  destruct (Z.leb_spec (4 + 10 * n + off (bytes node) n i + 2) (blen node));
    [|discriminate].
  cbn [assert bind] in Ek.
  rewrite le_decode_sub16 in Ek by (rewrite <- ?bcap_len; lia).
  rewrite wrap16_small in Ek by lia.
  destruct (Z.leb_spec (4 + 10 * n + off (bytes node) n i + 4) (blen node));
    [|discriminate].
  cbn [assert bind] in Ek.
  destruct (Z.leb_spec (u16 (bytes node) (4 + 10 * n + off (bytes node) n i))
              (bcap node - (4 + 10 * n + off (bytes node) n i + 4)));
    [|discriminate].
  cbn [assert bind] in Ek. injection Ek as <-.
  split; [assumption|].
  rewrite len_sub; [lia | lia | rewrite <- bcap_len; lia].
Qed.

Lemma getVal_len node n i v :
  nkeys node = Ok n -> 0 <= i < n ->
  4 + 10 * n <= blen node -> blen node <= bcap node ->
  kv_at (bytes node) n i + 4 <= blen node ->
  kv_at (bytes node) n i + 4 + u16 (bytes node) (kv_at (bytes node) n i) < 65536 ->
  getVal node i = Ok v ->
  len v = u16 (bytes node) (kv_at (bytes node) n i + 2).
Proof.
  unfold kv_at. intros Hn Hi Hl Hc Hb Hs Ev.
  pose proof (off_nonneg (bytes node) n i) as Hi0.
  pose proof (u16_range (bytes node) (4 + 10 * n + off (bytes node) n i)) as Hkl.
  pose proof (u16_range (bytes node) (4 + 10 * n + off (bytes node) n i + 2)) as Hvl.
  unfold getVal in Ev. rewrite Hn in Ev. cbn [bind] in Ev.
  rewrite (kvPos_eq node n i) in Ev by (assumption || lia).
  rewrite assert_true in Ev by (apply Z.ltb_lt; lia). cbn [bind] in Ev.
  rewrite get16_eq in Ev by lia. cbn [bind] in Ev.
  rewrite (wrap16_small (4 + 10 * n + off (bytes node) n i + 2)) in Ev by lia.
  rewrite get16_eq in Ev by lia. cbn [bind] in Ev.
  rewrite (wrap16_small (4 + 10 * n + off (bytes node) n i + 4 + _)) in Ev by lia.
  unfold slice in Ev.
  match type of Ev with
  | context [assert ?c] => destruct c eqn:Ec; [|discriminate]
  end.
  cbn [assert bind] in Ev. injection Ev as <-.
  apply andb_true_iff in Ec. destruct Ec as [E1 E2]. apply Z.leb_le in E1, E2.
  match type of E1 with
  | _ <= wrap16 ?z =>
      destruct (Z_lt_le_dec z 65536) as [Hlt|Hge];
        [rewrite (wrap16_small z) in * by lia | rewrite (wrap16_ge z) in E1 by lia; lia]
  end.
  rewrite len_sub; [lia | lia | rewrite <- bcap_len; lia].
Qed.

(** Readable entries, each followed by the next, are packed. *)
Lemma entries_ok_packed node n k :
  nkeys node = Ok n -> 0 <= k <= n -> blen node <= bcap node ->
  kv_at (bytes node) n k <= blen node -> kv_at (bytes node) n k < 65536 ->
  (forall i, 0 <= i < k -> entry_ok node i = true) ->
  packed node n k.
Proof.
  intros Hn Hk Hc He Hs Hok.
  pose proof (off_nonneg (bytes node) n k) as Hon.
  assert (He' := He). assert (Hs' := Hs). unfold kv_at in He', Hs'.
  assert (Hent : forall i, 0 <= i < k -> exists key val,
            getKey node i = Ok key /\ getVal node i = Ok val /\
            off (bytes node) n (i + 1) =
              off (bytes node) n i + 4 + len key + len val).
  { intros i Hi. specialize (Hok i Hi). unfold entry_ok in Hok.
    rewrite (getOffset_eq node n i), (getOffset_eq node n (i + 1)) in Hok
      by (assumption || lia).
    destruct (getKey node i) as [key| |]; try discriminate.
    destruct (getVal node i) as [val| |]; try discriminate.
    apply Z.eqb_eq in Hok. eauto. }
  assert (Hmono : forall i j, 0 <= i <= j -> j <= k ->
            off (bytes node) n i <= off (bytes node) n j).
  { intros i j Hij Hj.
    replace j with (i + Z.of_nat (Z.to_nat (j - i))) in * by lia.
    induction (Z.to_nat (j - i)) as [|d IH].
    - rewrite Z.add_0_r. lia.
    - etransitivity; [apply IH; lia|].
      replace (i + Z.of_nat (S d)) with (i + Z.of_nat d + 1) by lia.
      destruct (Hent (i + Z.of_nat d) ltac:(lia)) as (key & val & _ & _ & ->).
      pose proof (len_nonneg key). pose proof (len_nonneg val). lia. }
  constructor; try assumption.
  intros i Hi. destruct (Hent i Hi) as (key & val & Ek & Ev & ->).
  pose proof (len_nonneg key) as Hk0. pose proof (len_nonneg val) as Hv0.
  pose proof (off_nonneg (bytes node) n i) as Hi0.
  pose proof (Hmono (i + 1) k ltac:(lia) ltac:(lia)) as M.
  destruct (Hent i Hi) as (key' & val' & Ek' & Ev' & Hx).
  assert (key' = key) as -> by congruence. assert (val' = val) as -> by congruence.
  destruct (getKey_len node n i key) as [Hb Lk]; unfold kv_at;
    try assumption; try lia.
  pose proof (getVal_len node n i val) as Lv. unfold kv_at in *.
  unfold size_at, kv_at. rewrite <- Lk, <- Lv; try assumption; try lia.
Qed.

Lemma packed_entries_ok node n k : packed node n k ->
  forall i, 0 <= i < k -> entry_ok node i = true.
Proof.
  intros P i Hi. pose proof (packed_mono _ _ _ P) as M.
  pose proof (pk_next _ _ _ P i Hi) as Hxi.
  destruct P as [Hn Hk Hc He Hs _]. unfold size_at, kv_at in *.
  pose proof (off_nonneg (bytes node) n k) as Hon.
  pose proof (off_nonneg (bytes node) n i) as Hi0.
  pose proof (M (i + 1) k ltac:(lia) ltac:(lia)) as M1.
  pose proof (u16_range (bytes node) (4 + 10 * n + off (bytes node) n i)) as K.
  pose proof (u16_range (bytes node) (4 + 10 * n + off (bytes node) n i + 2)) as V.
  unfold entry_ok.
  rewrite (getOffset_eq node n i), (getOffset_eq node n (i + 1))
    by (assumption || lia).
  rewrite (getKey_eq node n i) by (try assumption; cbv zeta; lia).
  rewrite (getVal_eq node n i) by (try assumption; cbv zeta; lia).
  apply Z.eqb_eq.
  rewrite !len_sub by (rewrite <- ?bcap_len; lia). lia.
Qed.

Lemma well_formed_packed node :
  well_formed node = true -> exists n, 1 <= n /\ packed node n n.
Proof.
  unfold well_formed, HEADER. intros H.
  destruct (nkeys node) as [n| |] eqn:Hn; try discriminate.
  destruct (getOffset node n) as [o| |] eqn:Ho; try discriminate.
  rewrite !andb_true_iff in H. destruct H as ((((H1 & H2) & H3) & H4) & H5).
  apply Z.leb_le in H1, H2, H3. apply Z.ltb_lt in H4.
  pose proof (getOffset_nonneg _ _ _ Ho) as Ho0.
  rewrite (getOffset_eq node n n) in Ho by (assumption || lia). injection Ho as <-.
  exists n. split; [assumption|].
  apply entries_ok_packed; unfold kv_at; try assumption; try lia.
  apply forallb_slots. assumption.
Qed.

Lemma packed_well_formed node n :
  packed node n n -> 1 <= n -> well_formed node = true.
Proof.
  intros P Hn1. pose proof (packed_entries_ok _ _ _ P) as Hok.
  destruct P as [Hn Hk Hc He Hs _]. unfold kv_at in *.
  pose proof (off_nonneg (bytes node) n n) as Hon.
  unfold well_formed, HEADER. rewrite Hn.
  rewrite (getOffset_eq node n n) by (assumption || lia).
  rewrite !andb_true_iff. repeat split;
    try (apply Z.leb_le; lia); try (apply Z.ltb_lt; lia).
  apply forallb_slots. assumption.
Qed.

Lemma packed_to_packed node k :
  packed_to node k = true -> exists n, packed node n k.
Proof.
  unfold packed_to, HEADER. intros H.
  destruct (nkeys node) as [n| |] eqn:Hn; try discriminate.
  destruct (getOffset node k) as [o| |] eqn:Ho; try discriminate.
  rewrite !andb_true_iff in H. destruct H as (((((H0 & H1) & H2) & H3) & H4) & H5).
  apply Z.leb_le in H0, H1, H2, H3. apply Z.ltb_lt in H4.
  pose proof (getOffset_nonneg _ _ _ Ho) as Ho0.
  rewrite (getOffset_eq node n k) in Ho by (assumption || lia). injection Ho as <-.
  exists n. apply entries_ok_packed; unfold kv_at; try assumption; try lia.
  apply forallb_slots. assumption.
Qed.

Lemma packed_packed_to node n k : packed node n k -> packed_to node k = true.
Proof.
  intros P. pose proof (packed_entries_ok _ _ _ P) as Hok.
  destruct P as [Hn Hk Hc He Hs _]. unfold kv_at in *.
  pose proof (off_nonneg (bytes node) n k) as Hon.
  unfold packed_to, HEADER. rewrite Hn.
  rewrite (getOffset_eq node n k) by (assumption || lia).
  rewrite !andb_true_iff. repeat split;
    try (apply Z.leb_le; lia); try (apply Z.ltb_lt; lia).
  apply forallb_slots. assumption.
Qed.

(** ** Lists of slots *)

Lemma len_slots n : 0 <= n -> length (slots n) = Z.to_nat n.
Proof. intros H. unfold slots. rewrite length_map, length_seq. reflexivity. Qed.

Lemma slots_app a b : 0 <= a -> 0 <= b ->
  slots (a + b) = slots a ++ map (Z.add a) (slots b).
Proof.
  intros Ha Hb. unfold slots. rewrite Z2Nat.inj_add by lia.
  rewrite seq_app, map_app. f_equal. cbn [Nat.add].
  rewrite map_map.
  replace (seq (Z.to_nat a) (Z.to_nat b))
    with (map (fun j => (Z.to_nat a + j)%nat) (seq 0 (Z.to_nat b))).
  - rewrite map_map. apply map_ext. intros j. lia.
  - clear. generalize (Z.to_nat a) as s. induction (Z.to_nat b) as [|m IH]; intros s.
    + reflexivity.
    + cbn [seq map]. f_equal; [lia|].
      rewrite <- seq_shift, map_map. rewrite <- (IH (S s)).
      apply map_ext. intros j. lia.
Qed.

Lemma map_slots_ext {A : Type} (f g : Z -> A) n :
  (forall i, 0 <= i < n -> f i = g i) -> map f (slots n) = map g (slots n).
Proof.
  intros H. apply map_ext_in. intros i Hi. apply H. apply slots_In. assumption.
Qed.

Lemma firstn_map_slots {A : Type} (f : Z -> A) n k : 0 <= k <= n ->
  firstn (Z.to_nat k) (map f (slots n)) = map f (slots k).
Proof.
  intros H. replace n with (k + (n - k)) by lia.
  rewrite slots_app, map_app by lia.
  apply take_app_length'. rewrite length_map, len_slots by lia. reflexivity.
Qed.

Lemma skipn_map_slots {A : Type} (f : Z -> A) n k : 0 <= k <= n ->
  skipn (Z.to_nat k) (map f (slots n)) = map (fun j => f (k + j)) (slots (n - k)).
Proof.
  intros H. replace n with (k + (n - k)) at 1 by lia.
  rewrite slots_app, map_app by lia.
  rewrite drop_app_length' by (rewrite length_map, len_slots by lia; reflexivity).
  rewrite map_map. reflexivity.
Qed.

Lemma nth_error_map_slots {A : Type} (f : Z -> A) n i : 0 <= i < n ->
  nth_error (map f (slots n)) (Z.to_nat i) = Some (f i).
Proof.
  intros Hi. rewrite nth_error_map. unfold slots. rewrite nth_error_map.
  rewrite nth_error_seq. destruct (Nat.ltb_spec (Z.to_nat i) (Z.to_nat n)); [|lia].
  cbn. f_equal. f_equal. lia.
Qed.

Lemma entries_without_slot (new old : list byte) n idx :
  0 <= idx < n ->
  (forall i, 0 <= i < idx -> entry_at new (n - 1) i = entry_at old n i) ->
  (forall i, idx <= i < n - 1 -> entry_at new (n - 1) i = entry_at old n (i + 1)) ->
  map (entry_at new (n - 1)) (slots (n - 1)) =
    firstn (Z.to_nat idx) (map (entry_at old n) (slots n)) ++
    skipn (Z.to_nat (idx + 1)) (map (entry_at old n) (slots n)).
Proof.
  intros Hidx F G.
  replace (n - 1) with (idx + (n - 1 - idx)) at 2 by lia.
  rewrite slots_app, map_app by lia. f_equal.
  - rewrite firstn_map_slots by lia. apply map_slots_ext. assumption.
  - rewrite skipn_map_slots by lia. rewrite map_map.
    replace (n - (idx + 1)) with (n - 1 - idx) by lia.
    apply map_slots_ext. intros j Hj. rewrite G by lia. f_equal. lia.
Qed.

Lemma entries_concat (new left right : list byte) ln rn :
  0 <= ln -> 0 <= rn ->
  (forall i, 0 <= i < ln -> entry_at new (ln + rn) i = entry_at left ln i) ->
  (forall j, 0 <= j < rn -> entry_at new (ln + rn) (ln + j) = entry_at right rn j) ->
  map (entry_at new (ln + rn)) (slots (ln + rn)) =
    map (entry_at left ln) (slots ln) ++ map (entry_at right rn) (slots rn).
Proof.
  intros Hl Hr F G. rewrite slots_app, map_app by lia. f_equal.
  - apply map_slots_ext. assumption.
  - rewrite map_map. apply map_slots_ext. assumption.
Qed.

Lemma entries_with_slot (new old : list byte) n idx
    (e : Z * list byte * list byte) :
  0 <= idx < n ->
  (forall i, 0 <= i < idx -> entry_at new n i = entry_at old n i) ->
  entry_at new n idx = e ->
  (forall i, idx < i < n -> entry_at new n i = entry_at old n i) ->
  map (entry_at new n) (slots n) =
    firstn (Z.to_nat idx) (map (entry_at old n) (slots n)) ++
    e :: skipn (Z.to_nat (idx + 1)) (map (entry_at old n) (slots n)).
Proof.
  intros Hidx F E G.
  replace n with (idx + (1 + (n - (idx + 1)))) at 2 by lia.
  rewrite slots_app, map_app by lia. f_equal.
  - rewrite firstn_map_slots by lia. apply map_slots_ext. assumption.
  - rewrite slots_app, map_app by lia. change (slots 1) with [0].
    cbn [map app]. rewrite Z.add_0_r, E. f_equal.
    rewrite skipn_map_slots by lia. rewrite !map_map.
    apply map_slots_ext. intros j Hj.
    replace (idx + (1 + j)) with (idx + 1 + j) by lia. apply G. lia.
Qed.

(** ** Entries that hold the same bytes *)

Lemma sub_shift a b lo lo' n :
  0 <= lo -> 0 <= lo' -> 0 <= n -> lo + n <= len a -> lo' + n <= len b ->
  (forall p, 0 <= p < n -> byte_at a (lo + p) = byte_at b (lo' + p)) ->
  sub a lo (lo + n) = sub b lo' (lo' + n).
Proof.
  intros H0 H0' Hn Ha Hb H. apply bytes_ext.
  - rewrite !len_sub by lia. lia.
  - intros p Hp. rewrite len_sub in Hp by lia.
    rewrite !byte_at_sub by lia. apply H. lia.
Qed.

Lemma u16_shift a b q q' :
  byte_at a q = byte_at b q' -> byte_at a (q + 1) = byte_at b (q' + 1) ->
  u16 a q = u16 b q'.
Proof. unfold u16. intros -> ->. reflexivity. Qed.

Lemma entry_at_copy a b an bn i j :
  u64 a (4 + 8 * i) = u64 b (4 + 8 * j) ->
  0 <= kv_at a an i -> 0 <= kv_at b bn j ->
  kv_at a an i + size_at b bn j <= len a ->
  kv_at b bn j + size_at b bn j <= len b ->
  (forall p, 0 <= p < size_at b bn j ->
     byte_at a (kv_at a an i + p) = byte_at b (kv_at b bn j + p)) ->
  entry_at a an i = entry_at b bn j /\ size_at a an i = size_at b bn j.
Proof.
  intros Hp Ha0 Hb0 Ha Hb H. unfold entry_at, size_at in *.
  set (ka := kv_at a an i) in *. set (kb := kv_at b bn j) in *.
  clearbody ka kb.
  pose proof (u16_range b kb) as K. pose proof (u16_range b (kb + 2)) as V.
  assert (K1 : u16 a ka = u16 b kb).
  { apply u16_shift.
    - rewrite <- (Z.add_0_r ka), <- (Z.add_0_r kb). apply H. lia.
    - apply H. lia. }
  assert (V1 : u16 a (ka + 2) = u16 b (kb + 2)).
  { apply u16_shift.
    - apply H. lia.
    - rewrite <- !Z.add_assoc. apply H. lia. }
  rewrite K1, V1, Hp. split; [|reflexivity]. f_equal; [f_equal|].
  - apply sub_shift; try lia. intros p Hp'.
    rewrite <- !Z.add_assoc. apply H. lia.
  - apply sub_shift; try lia. intros p Hp'.
    rewrite <- !Z.add_assoc. apply H. lia.
Qed.

(** ** [nodeAppendRange] and [nodeAppendKV] on packed nodes *)

Lemma nodeAppendRange_packed new old nn on dst src n :
  packed old on on -> packed new nn dst ->
  0 <= src -> 0 <= n -> src + n <= on -> dst + n <= nn ->
  blen new < 65536 ->
  kv_at (bytes new) nn dst +
    (off (bytes old) on (src + n) - off (bytes old) on src) <= blen new ->
  exists new', nodeAppendRange new old dst src n = Ok new' /\
    packed new' nn (dst + n) /\
    touched (range_region nn dst n (off (bytes new) nn dst)
               (off (bytes old) on (src + n) - off (bytes old) on src))
            new new' /\
    off (bytes new') nn (dst + n) =
      off (bytes new) nn dst +
      (off (bytes old) on (src + n) - off (bytes old) on src) /\
    (forall i, 0 <= i < dst ->
       entry_at (bytes new') nn i = entry_at (bytes new) nn i) /\
    (forall j, 0 <= j < n ->
       entry_at (bytes new') nn (dst + j) = entry_at (bytes old) on (src + j)).
Proof.
  intros Po Pn Hs Hn Hsn Hdn Hsm Hroom.
  pose proof (packed_layout _ _ Po) as L.
  pose proof (packed_mono _ _ _ Po) as Mo.
  pose proof (packed_mono _ _ _ Pn) as Mn.
  pose proof (pk_next _ _ _ Po) as Xo.
  pose proof (pk_next _ _ _ Pn) as Xn.
  destruct Po as [Hon Hok Hoc Hoe Hos _].
  destruct Pn as [Hnn Hnk Hnc Hne Hns _].
  unfold kv_at in Hroom, Hoe, Hos, Hne, Hns.
  set (d := off (bytes new) nn dst) in *.
  set (sB := off (bytes old) on src) in *.
  assert (Hd0 : 0 <= d) by apply off_nonneg.
  assert (HsB : 0 <= sB) by apply off_nonneg.
  pose proof (Mo src (src + n) ltac:(lia) ltac:(lia)) as M1. fold sB in M1.
  pose proof (Mo (src + n) on ltac:(lia) ltac:(lia)) as M2.
  destruct (nodeAppendRange_copy new old nn on dst src n)
    as (new' & E & T & V & P & Bt); try assumption; try lia.
  fold d sB in T, V, P, Bt. specialize (Bt Hroom).
  exists new'. split; [assumption|].
  assert (HR : forall p, range_region nn dst n d
                 (off (bytes old) on (src + n) - sB) p ->
               4 + 8 * dst <= p < 4 + 8 * (dst + n) \/
               4 + 8 * nn + 2 * dst <= p < 4 + 8 * nn + 2 * (dst + n) \/
               4 + 10 * nn + d <= p).
  { unfold range_region, ival. intros p Hp. lia. }
  assert (Hn' : nkeys new' = Ok nn).
  { apply (touched_nkeys _ _ _ _ T); [|assumption]. intros p Hp. apply HR in Hp. lia. }
  assert (Hb' : blen new' = blen new) by apply T.
  assert (Hc' : bcap new' = bcap new) by apply (touched_bcap _ _ _ T).
  assert (Hl' : len (bytes new') = len (bytes new)) by apply T.
  (* offsets of the slots before [dst], and of [dst] itself *)
  assert (Olow : forall i, 0 <= i <= dst ->
            off (bytes new') nn i = off (bytes new) nn i).
  { intros i Hi. apply (touched_off _ _ _ _ _ T); try lia.
    intros Hi0 p Hp Hr. apply HR in Hr. lia. }
  (* offsets of the copied slots *)
  assert (Ocopy : forall j, 0 <= j <= n ->
            off (bytes new') nn (dst + j) = d + (off (bytes old) on (src + j) - sB)).
  { intros j Hj. destruct (Z.eq_dec j 0) as [->|Hj0].
    - rewrite !Z.add_0_r, Olow by lia. fold d sB. lia.
    - rewrite V by lia.
      pose proof (Mo src (src + j) ltac:(lia) ltac:(lia)) as A. fold sB in A.
      pose proof (Mo (src + j) (src + n) ltac:(lia) ltac:(lia)) as B.
      rewrite (wrap16_small (off (bytes old) on (src + j) - sB)) by lia.
      apply wrap16_small. lia. }
  assert (Elow : forall i, 0 <= i < dst ->
            entry_at (bytes new') nn i = entry_at (bytes new) nn i /\
            size_at (bytes new') nn i = size_at (bytes new) nn i).
  { intros i Hi.
    pose proof (Xn i Hi) as Xi.
    pose proof (Mn (i + 1) dst ltac:(lia) ltac:(lia)) as A. fold d in A.
    pose proof (off_nonneg (bytes new) nn i) as Oi.
    pose proof (size_at_min (bytes new) nn i) as Smin.
    assert (Kv : kv_at (bytes new') nn i = kv_at (bytes new) nn i).
    { unfold kv_at. rewrite Olow by lia. reflexivity. }
    apply entry_at_copy; rewrite ?Kv; unfold kv_at; try lia.
    - apply (touched_u64 _ _ _ _ T); try lia.
      + rewrite <- bcap_len. lia.
      + intros p Hp Hr. apply HR in Hr. lia.
    - rewrite Hl', <- bcap_len. lia.
    - rewrite <- bcap_len. lia.
    - intros p Hp. destruct T as (_ & _ & F). apply F; [lia|].
      intros Hr. apply HR in Hr. lia. }
  assert (Ecopy : forall j, 0 <= j < n ->
            entry_at (bytes new') nn (dst + j) = entry_at (bytes old) on (src + j) /\
            size_at (bytes new') nn (dst + j) = size_at (bytes old) on (src + j)).
  { intros j Hj.
    pose proof (Xo (src + j) ltac:(lia)) as Xi.
    replace (src + j + 1) with (src + (j + 1)) in Xi by lia.
    pose proof (Mo src (src + j) ltac:(lia) ltac:(lia)) as A. fold sB in A.
    pose proof (Mo (src + (j + 1)) (src + n) ltac:(lia) ltac:(lia)) as B.
    pose proof (size_at_min (bytes old) on (src + j)) as Smin.
    assert (Kv : kv_at (bytes new') nn (dst + j) =
                 4 + 10 * nn + d + (off (bytes old) on (src + j) - sB)).
    { unfold kv_at. rewrite Ocopy by lia. lia. }
    apply entry_at_copy; rewrite ?Kv; unfold kv_at; try lia.
    - replace (4 + 8 * (dst + j)) with (4 + 8 * (dst + j)) by lia. apply P. lia.
    - rewrite Hl', <- bcap_len. lia.
    - rewrite <- bcap_len. lia.
    - intros p Hp.
      replace (4 + 10 * nn + d + (off (bytes old) on (src + j) - sB) + p)
        with (4 + 10 * nn + d + (off (bytes old) on (src + j) - sB + p)) by lia.
      rewrite Bt by lia. f_equal. lia. }
  split; [|split; [assumption|split; [|split]]].
  - constructor; unfold kv_at; try assumption; try lia.
    + rewrite (Ocopy n) by lia. lia.
    + rewrite (Ocopy n) by lia. lia.
    + intros i Hi. destruct (Z_lt_le_dec i dst) as [Hlt|Hge].
      * rewrite !Olow by lia. rewrite (proj2 (Elow i ltac:(lia))). apply Xn. lia.
      * replace i with (dst + (i - dst)) by lia.
        replace (dst + (i - dst) + 1) with (dst + (i - dst + 1)) by lia.
        rewrite !Ocopy by lia. rewrite (proj2 (Ecopy (i - dst) ltac:(lia))).
        pose proof (Xo (src + (i - dst)) ltac:(lia)) as Xi.
        replace (src + (i - dst) + 1) with (src + (i - dst + 1)) in Xi by lia.
        lia.
  - apply Ocopy. lia.
  - intros i Hi. apply Elow. assumption.
  - intros j Hj. apply Ecopy. assumption.
Qed.

(** The pointer that [nodeAppendKV] stores is not overwritten by the rest of
    the entry. *)
Lemma nodeAppendKV_ptr new nn idx ptr key val new' :
  nkeys new = Ok nn -> 0 <= idx < nn ->
  4 + 10 * nn <= blen new -> blen new <= bcap new -> blen new < 65536 ->
  4 + 10 * nn + off (bytes new) nn idx + 4 + len key + len val <= blen new ->
  0 <= ptr < 2 ^ 64 ->
  nodeAppendKV new idx ptr key val = Ok new' ->
  u64 (bytes new') (4 + 8 * idx) = ptr.
Proof.
  intros Hn Hi Hl Hc Hs Hfit Hptr.
  set (d := off (bytes new) nn idx) in *.
  set (kv := 4 + 10 * nn + d) in *.
  pose proof (off_nonneg (bytes new) nn idx) as Hd. fold d in Hd.
  pose proof (len_nonneg key) as Hk. pose proof (len_nonneg val) as Hv.
  unfold nodeAppendKV.
  rewrite (setPtr_eq new nn idx ptr) by (assumption || lia). cbn [bind].
  destruct (write_step new nn (4 + 8 * idx) (le_encode 8 ptr) Hn)
    as (N1 & C1 & T1); [lia | rewrite len_le_encode; lia |].
  rewrite len_le_encode in T1.
  set (n1 := mkBNode _ _) in *.
  assert (P1 : u64 (bytes n1) (4 + 8 * idx) = ptr).
  { unfold n1. cbn [bytes]. apply u64_write_same; try lia.
    rewrite <- bcap_len. lia. }
  assert (D1 : off (bytes n1) nn idx = d).
  { apply (touched_off _ _ _ _ _ T1); try lia. unfold ival. intros; lia. }
  rewrite (kvPos_eq n1 nn idx)
    by (try assumption; rewrite ?D1, ?C1; change (blen n1) with (blen new); lia).
  cbn [bind]. rewrite D1. fold kv.
  unfold put16, copy_at. rewrite !wrap16_small by lia.
  change (blen n1) with (blen new). checks.
  destruct (write_step n1 nn kv (le_encode 2 (len key)) N1)
    as (N2 & C2 & T2); [lia | rewrite len_le_encode; lia |].
  rewrite len_le_encode in T2. change (blen n1) with (blen new) in *.
  set (n2 := mkBNode (write (bytes n1) kv _) _) in *.
  change (blen n2) with (blen new). checks.
  destruct (write_step n2 nn (kv + 2) (le_encode 2 (len val)) N2)
    as (N3 & C3 & T3); [lia | rewrite len_le_encode; lia |].
  rewrite len_le_encode in T3. change (blen n2) with (blen new) in *.
  set (n3 := mkBNode (write (bytes n2) (kv + 2) _) _) in *.
  change (blen n3) with (blen new). checks.
  rewrite (firstn_fits (blen new - (kv + 4)) key) by lia.
  destruct (write_step n3 nn (kv + 4) key N3) as (N4 & C4 & T4); [lia | lia |].
  change (blen n3) with (blen new) in *.
  set (n4 := mkBNode (write (bytes n3) (kv + 4) key) _) in *.
  change (blen n4) with (blen new). checks.
  rewrite (firstn_fits (blen new - (kv + 4 + len key)) val) by lia.
  destruct (write_step n4 nn (kv + 4 + len key) val N4) as (N5 & C5 & T5); [lia | lia |].
  change (blen n4) with (blen new) in *.
  set (n5 := mkBNode (write (bytes n4) (kv + 4 + len key) val) _) in *.
  assert (B5 : blen n5 = blen new) by reflexivity.
  assert (D5 : off (bytes n5) nn idx = d).
  { rewrite <- D1. unfold off. destruct (Z.eqb_spec idx 0); [reflexivity|].
    rewrite (touched_u16 _ _ _ _ T5), (touched_u16 _ _ _ _ T4),
      (touched_u16 _ _ _ _ T3), (touched_u16 _ _ _ _ T2);
      unfold ival; lia. }
  rewrite (getOffset_eq n5 nn idx) by (try assumption; lia).
  cbn [bind]. rewrite D5.
  rewrite !wrap16_small by lia.
  replace (d + 4 + (len key + len val)) with (d + 4 + len key + len val) by lia.
  rewrite (setOffset_eq n5 nn (idx + 1)) by (try assumption; lia).
  replace (4 + 8 * nn + 2 * (idx + 1 - 1)) with (4 + 8 * nn + 2 * idx) by lia.
  set (o' := d + 4 + len key + len val).
  destruct (write_step n5 nn (4 + 8 * nn + 2 * idx) (le_encode 2 o') N5)
    as (N6 & C6 & T6); [lia | rewrite len_le_encode; lia |].
  rewrite len_le_encode in T6. rewrite B5 in *.
  set (n6 := mkBNode (write (bytes n5) (4 + 8 * nn + 2 * idx) _) _) in *.
  intros H. injection H as <-.
  rewrite <- P1.
  pose proof (bcap_len new) as Hcl.
  pose proof (bcap_len n1) as L1. pose proof (bcap_len n2) as L2.
  pose proof (bcap_len n3) as L3. pose proof (bcap_len n4) as L4.
  pose proof (bcap_len n5) as L5.
  rewrite (touched_u64 _ _ _ _ T6), (touched_u64 _ _ _ _ T5),
    (touched_u64 _ _ _ _ T4), (touched_u64 _ _ _ _ T3), (touched_u64 _ _ _ _ T2);
    unfold ival; lia.
Qed.

Lemma nodeAppendKV_packed new nn idx ptr key val :
  packed new nn idx -> idx < nn -> blen new < 65536 ->
  0 <= ptr < 2 ^ 64 ->
  kv_at (bytes new) nn idx + 4 + len key + len val <= blen new ->
  exists new', nodeAppendKV new idx ptr key val = Ok new' /\
    packed new' nn (idx + 1) /\
    touched (range_region nn idx 1 (off (bytes new) nn idx)
               (4 + len key + len val)) new new' /\
    off (bytes new') nn (idx + 1) =
      off (bytes new) nn idx + 4 + len key + len val /\
    (forall i, 0 <= i < idx ->
       entry_at (bytes new') nn i = entry_at (bytes new) nn i) /\
    entry_at (bytes new') nn idx = (ptr, key, val).
Proof.
  intros P Hi Hsm Hptr Hroom.
  pose proof (packed_mono _ _ _ P) as M.
  pose proof (pk_next _ _ _ P) as X.
  destruct P as [Hn Hk Hc He Hs _]. unfold kv_at in Hroom, He, Hs.
  set (d := off (bytes new) nn idx) in *.
  assert (Hd0 : 0 <= d) by apply off_nonneg.
  pose proof (len_nonneg key) as Hk0. pose proof (len_nonneg val) as Hv0.
  destruct (nodeAppendKV_spec new nn idx ptr key val)
    as (new' & E & T & O & K & V & SK & SV); try assumption; try lia.
  fold d in T, O, K, V, SK, SV. cbv zeta in K, V, SK, SV.
  pose proof (nodeAppendKV_ptr new nn idx ptr key val new' Hn ltac:(lia)
                ltac:(lia) Hc Hsm ltac:(fold d; lia) Hptr E) as Pp.
  exists new'. split; [assumption|].
  assert (HR : forall p, range_region nn idx 1 d (4 + len key + len val) p ->
               4 + 8 * idx <= p < 4 + 8 * (idx + 1) \/
               4 + 8 * nn + 2 * idx <= p < 4 + 8 * nn + 2 * (idx + 1) \/
               4 + 10 * nn + d <= p).
  { unfold range_region, ival. intros p Hp. lia. }
  assert (Hn' : nkeys new' = Ok nn).
  { apply (touched_nkeys _ _ _ _ T); [|assumption]. intros p Hp. apply HR in Hp. lia. }
  assert (Hb' : blen new' = blen new) by apply T.
  assert (Hc' : bcap new' = bcap new) by apply (touched_bcap _ _ _ T).
  assert (Hl' : len (bytes new') = len (bytes new)) by apply T.
  assert (Olow : forall i, 0 <= i <= idx ->
            off (bytes new') nn i = off (bytes new) nn i).
  { intros i Hi'. apply (touched_off _ _ _ _ _ T); try lia.
    intros Hi0 p Hp Hr. apply HR in Hr. lia. }
  assert (Elow : forall i, 0 <= i < idx ->
            entry_at (bytes new') nn i = entry_at (bytes new) nn i /\
            size_at (bytes new') nn i = size_at (bytes new) nn i).
  { intros i Hi'.
    pose proof (X i Hi') as Xi.
    pose proof (M (i + 1) idx ltac:(lia) ltac:(lia)) as A. fold d in A.
    pose proof (off_nonneg (bytes new) nn i) as Oi.
    pose proof (size_at_min (bytes new) nn i) as Smin.
    assert (Kv : kv_at (bytes new') nn i = kv_at (bytes new) nn i).
    { unfold kv_at. rewrite Olow by lia. reflexivity. }
    apply entry_at_copy; rewrite ?Kv; unfold kv_at; try lia.
    - apply (touched_u64 _ _ _ _ T); try lia.
      + rewrite <- bcap_len. lia.
      + intros p Hp Hr. apply HR in Hr. lia.
    - rewrite Hl', <- bcap_len. lia.
    - rewrite <- bcap_len. lia.
    - intros p Hp. destruct T as (_ & _ & F). apply F; [lia|].
      intros Hr. apply HR in Hr. lia. }
  assert (Kv : kv_at (bytes new') nn idx = 4 + 10 * nn + d).
  { unfold kv_at. rewrite Olow by lia. reflexivity. }
  split; [|split; [assumption|split; [assumption|split]]].
  - constructor; unfold kv_at; try assumption; try lia.
    intros i Hi'. destruct (Z.eq_dec i idx) as [->|Hne].
    + rewrite O. rewrite Olow by lia. fold d. unfold size_at. rewrite Kv, K, V. lia.
    + rewrite !Olow by lia. rewrite (proj2 (Elow i ltac:(lia))). apply X. lia.
  - intros i Hi'. apply Elow. assumption.
  - unfold entry_at. rewrite Kv, K, V, SK, SV, Pp. reflexivity.
Qed.

(** A fresh buffer with its header set is packed up to slot 0. *)
Lemma packed_fresh size ty n :
  0 <= n -> 4 + 10 * n <= size -> size < 65536 ->
  exists new, setHeader (make size) ty n = Ok new /\
    packed new n 0 /\ btype new = Ok (wrap16 ty) /\
    blen new = size /\ bcap new = size /\
    forall p, 4 <= p -> byte_at (bytes new) p = x00.
Proof.
  intros Hn Hs Hm.
  destruct (setHeader_make size ty n) as (new & E & N & T & B & C & Z0); try lia.
  exists new. split; [assumption|]. split; [|auto].
  constructor; unfold kv_at; try assumption; try lia.
  - change (off (bytes new) n 0) with 0. lia.
  - change (off (bytes new) n 0) with 0. lia.
Qed.

(** X5: when the first [idx] entries of [new] are packed and the entry fits
    in the slice after them, [nodeAppendKV] at slot [idx] returns: the
    entries read from the node are the ones it had followed by the pointer,
    the key and the value given, the offset of slot [idx + 1] is the one of
    slot [idx] plus 4 plus the two lengths, the first [idx + 1] entries are
    packed, and the header and the length are as they were. *)
Theorem nodeAppendKV_appends (new : BNode) (nn idx ptr o : Z)
    (key val : list byte) (es : list (Z * list byte * list byte)) :
  packed_to new idx = true -> nkeys new = Ok nn -> idx < nn ->
  blen new < 65536 -> 0 <= ptr < 2 ^ 64 ->
  getOffset new idx = Ok o ->
  HEADER + 8 * nn + 2 * nn + o + 4 + len key + len val <= blen new ->
  entries_from new (Z.to_nat idx) 0 = Ok es ->
  exists new', nodeAppendKV new idx ptr key val = Ok new' /\
    packed_to new' (idx + 1) = true /\
    entries_from new' (Z.to_nat (idx + 1)) 0 = Ok (es ++ [(ptr, key, val)]) /\
    getOffset new' (idx + 1) = Ok (o + 4 + len key + len val) /\
    nkeys new' = Ok nn /\ btype new' = btype new /\ blen new' = blen new.
Proof.
  unfold HEADER. intros Hp Hn Hi Hsm Hptr Ho Hroom Hes.
  destruct (packed_to_packed _ _ Hp) as (n0 & P).
  assert (n0 = nn) as -> by (symmetry; apply (packed_nkeys _ _ _ _ P Hn)).
  pose proof (pk_k _ _ _ P) as Hk.
  rewrite (packed_getOffset _ _ _ idx P) in Ho by lia. injection Ho as <-.
  rewrite (packed_prefix _ _ _ P) in Hes. injection Hes as <-.
  destruct (nodeAppendKV_packed new nn idx ptr key val)
    as (new' & E & P' & T & O & F & G); try assumption.
  { unfold kv_at. lia. }
  exists new'. split; [assumption|]. split; [apply (packed_packed_to _ _ _ P')|].
  split; [|split; [|split; [apply (pk_nkeys _ _ _ P')|split]]].
  - rewrite (packed_prefix _ _ _ P').
    rewrite slots_app, map_app by lia. f_equal. f_equal.
    + apply map_slots_ext. assumption.
    + change (slots 1) with [0]. cbn [map]. rewrite Z.add_0_r, G. reflexivity.
  - rewrite (packed_getOffset _ _ _ (idx + 1) P') by lia. rewrite O. reflexivity.
  - apply (touched_btype_eq _ _ _ T). unfold range_region, ival. intros p Hr.
    pose proof (off_nonneg (bytes new) nn idx). lia.
  - apply T.
Qed.

Lemma nodeAppendKV_appends_witness :
  exists new',
    nodeAppendKV (get_ok (do n <- setHeader (make BTREE_PAGE_SIZE) BNODE_LEAF 2;
                          nodeAppendKV n 0 0 [] []))
                 1 0 (B "k") (B "v") = Ok new' /\
    packed_to new' (1 + 1) = true /\
    entries_from new' (Z.to_nat (1 + 1)) 0 = Ok ([(0, [], [])] ++ [(0, B "k", B "v")]) /\
    getOffset new' (1 + 1) = Ok (4 + 4 + len (B "k") + len (B "v")) /\
    nkeys new' = Ok 2 /\
    btype new' = btype (get_ok (do n <- setHeader (make BTREE_PAGE_SIZE) BNODE_LEAF 2;
                                nodeAppendKV n 0 0 [] [])) /\
    blen new' = blen (get_ok (do n <- setHeader (make BTREE_PAGE_SIZE) BNODE_LEAF 2;
                              nodeAppendKV n 0 0 [] [])).
Proof.
  apply (nodeAppendKV_appends
           (get_ok (do n <- setHeader (make BTREE_PAGE_SIZE) BNODE_LEAF 2;
                    nodeAppendKV n 0 0 [] []))
           2 1 0 4 (B "k") (B "v") [(0, [], [])]).
  - vm_compute. reflexivity.
  - vm_compute. reflexivity.
  - lia.
  - apply Z.ltb_lt. vm_compute. reflexivity.
  - split; [lia | reflexivity].
  - vm_compute. reflexivity.
  - apply Z.leb_le. vm_compute. reflexivity.
  - vm_compute. reflexivity.
Defined.

(** X6: when the first [dst] entries of [new] are packed, [old] is
    well-formed and the entries [src] to [src + n] of [old] fit in the slice
    of [new] after them, [nodeAppendRange] returns: the entries read from
    [new] are the ones it had followed by these [n] entries of [old], with
    their pointers, keys and values; the offset of slot [dst + n] is the one of slot
    [dst] plus the size of what was copied; the first [dst + n] entries are
    packed, and the header and the length are as they were. *)
Theorem nodeAppendRange_appends (new old : BNode) (nn on dst src n d a b : Z)
    (es oes : list (Z * list byte * list byte)) :
  well_formed old = true -> nkeys old = Ok on -> entries old = Ok oes ->
  packed_to new dst = true -> nkeys new = Ok nn ->
  entries_from new (Z.to_nat dst) 0 = Ok es ->
  blen new < 65536 ->
  0 <= src -> 0 <= n -> src + n <= on -> dst + n <= nn ->
  getOffset new dst = Ok d ->
  getOffset old src = Ok a -> getOffset old (src + n) = Ok b ->
  HEADER + 8 * nn + 2 * nn + d + (b - a) <= blen new ->
  exists new', nodeAppendRange new old dst src n = Ok new' /\
    packed_to new' (dst + n) = true /\
    entries_from new' (Z.to_nat (dst + n)) 0 =
      Ok (es ++ firstn (Z.to_nat n) (skipn (Z.to_nat src) oes)) /\
    getOffset new' (dst + n) = Ok (d + (b - a)) /\
    nkeys new' = Ok nn /\ btype new' = btype new /\ blen new' = blen new.
Proof.
  unfold HEADER.
  intros Hwf Hon Hoes Hp Hnn Hes Hsm Hs Hn Hsn Hdn Hd Ha Hb Hroom.
  destruct (well_formed_packed _ Hwf) as (on0 & Hon1 & Po).
  assert (on0 = on) as -> by (symmetry; apply (packed_nkeys _ _ _ _ Po Hon)).
  destruct (packed_to_packed _ _ Hp) as (n0 & Pn).
  assert (n0 = nn) as -> by (symmetry; apply (packed_nkeys _ _ _ _ Pn Hnn)).
  pose proof (pk_k _ _ _ Pn) as Hk.
  rewrite (packed_getOffset _ _ _ dst Pn) in Hd by lia. injection Hd as <-.
  rewrite (packed_getOffset _ _ _ src Po) in Ha by lia. injection Ha as <-.
  rewrite (packed_getOffset _ _ _ (src + n) Po) in Hb by lia. injection Hb as <-.
  rewrite (packed_prefix _ _ _ Pn) in Hes. injection Hes as <-.
  rewrite (packed_entries _ _ Po) in Hoes. injection Hoes as <-.
  destruct (nodeAppendRange_packed new old nn on dst src n)
    as (new' & E & P' & T & O & F & G); try assumption.
  { unfold kv_at. lia. }
  exists new'. split; [assumption|]. split; [apply (packed_packed_to _ _ _ P')|].
  split; [|split; [|split; [apply (pk_nkeys _ _ _ P')|split]]].
  - rewrite (packed_prefix _ _ _ P').
    rewrite slots_app, map_app by lia. f_equal. f_equal.
    + apply map_slots_ext. assumption.
    + rewrite skipn_map_slots by lia. rewrite firstn_map_slots by lia.
      rewrite map_map. apply map_slots_ext. assumption.
  - rewrite (packed_getOffset _ _ _ (dst + n) P') by lia. rewrite O. reflexivity.
  - apply (touched_btype_eq _ _ _ T). unfold range_region, ival. intros p Hr.
    pose proof (off_nonneg (bytes new) nn dst). lia.
  - apply T.
Qed.

Lemma nodeAppendRange_appends_witness :
  exists new',
    nodeAppendRange (get_ok (setHeader (make BTREE_PAGE_SIZE) BNODE_LEAF 3))
                    (get_ok leaf_sorted) 0 1 2 = Ok new' /\
    packed_to new' (0 + 2) = true /\
    entries_from new' (Z.to_nat (0 + 2)) 0 =
      Ok ([] ++ firstn (Z.to_nat 2)
                  (skipn (Z.to_nat 1)
                     [(0, [], []); (0, B "a", B "1"); (0, B "c", B "3")])) /\
    getOffset new' (0 + 2) = Ok (0 + (16 - 4)) /\
    nkeys new' = Ok 3 /\
    btype new' = btype (get_ok (setHeader (make BTREE_PAGE_SIZE) BNODE_LEAF 3)) /\
    blen new' = blen (get_ok (setHeader (make BTREE_PAGE_SIZE) BNODE_LEAF 3)).
Proof.
  apply (nodeAppendRange_appends
           (get_ok (setHeader (make BTREE_PAGE_SIZE) BNODE_LEAF 3))
           (get_ok leaf_sorted) 3 3 0 1 2 0 4 16 []
           [(0, [], []); (0, B "a", B "1"); (0, B "c", B "3")]).
  - vm_compute. reflexivity.
  - vm_compute. reflexivity.
  - vm_compute. reflexivity.
  - vm_compute. reflexivity.
  - vm_compute. reflexivity.
  - vm_compute. reflexivity.
  - apply Z.ltb_lt. vm_compute. reflexivity.
  - lia.
  - lia.
  - lia.
  - lia.
  - vm_compute. reflexivity.
  - vm_compute. reflexivity.
  - vm_compute. reflexivity.
  - apply Z.leb_le. vm_compute. reflexivity.
Defined.

(** ** [leafDelete] removes one entry *)

Lemma leafDelete_packed old n idx size :
  packed old n n -> 0 <= idx < n ->
  kv_at (bytes old) n n <= size -> size < 65536 ->
  exists new, leafDelete (make size) old idx = Ok new /\
    packed new (n - 1) (n - 1) /\ btype new = Ok BNODE_LEAF /\
    blen new = size /\ bcap new = size /\
    off (bytes new) (n - 1) (n - 1) =
      off (bytes old) n n - size_at (bytes old) n idx /\
    (forall i, 0 <= i < idx ->
       entry_at (bytes new) (n - 1) i = entry_at (bytes old) n i) /\
    (forall i, idx <= i < n - 1 ->
       entry_at (bytes new) (n - 1) i = entry_at (bytes old) n (i + 1)).
Proof.
  intros P Hidx Hsz Hsm.
  pose proof (packed_mono _ _ _ P) as M.
  pose proof (pk_next _ _ _ P idx Hidx) as Xi.
  pose proof (size_at_min (bytes old) n idx) as Smin.
  pose proof (off_nonneg (bytes old) n idx) as O0.
  pose proof (M (idx + 1) n ltac:(lia) ltac:(lia)) as M1.
  unfold kv_at in Hsz.
  unfold leafDelete. rewrite (pk_nkeys _ _ _ P). cbn [bind].
  rewrite !wrap16_small by (rewrite ?wrap16_small; lia).
  destruct (packed_fresh size BNODE_LEAF (n - 1))
    as (new0 & E0 & P0 & T0 & B0 & C0 & _); try lia.
  rewrite E0. cbn [bind].
  (* the entries before the deleted slot *)
  destruct (nodeAppendRange_packed new0 old (n - 1) n 0 0 idx)
    as (new1 & E1 & P1 & R1 & O1 & F1 & G1); try assumption; try lia.
  { unfold kv_at. change (off (bytes new0) (n - 1) 0) with 0.
    change (off (bytes old) n 0) with 0. rewrite Z.add_0_l. lia. }
  rewrite E1. cbn [bind]. rewrite Z.add_0_l in *.
  change (off (bytes new0) (n - 1) 0) with 0 in *.
  change (off (bytes old) n 0) with 0 in *.
  rewrite Z.sub_0_r, Z.add_0_l in *.
  assert (B1 : blen new1 = size) by (destruct R1 as [-> _]; assumption).
  assert (C1 : bcap new1 = size) by (rewrite (touched_bcap _ _ _ R1); assumption).
  assert (T1 : btype new1 = Ok BNODE_LEAF).
  { rewrite <- (touched_btype _ _ _ (n - 1) R1); 
      [assumption | | apply (pk_nkeys _ _ _ P0)].
    unfold range_region, ival. intros p Hp. lia. }
  (* the entries after it *)
  destruct (nodeAppendRange_packed new1 old (n - 1) n idx (idx + 1) (n - (idx + 1)))
    as (new2 & E2 & P2 & R2 & O2 & F2 & G2); try assumption; try lia.
  { unfold kv_at. rewrite O1. replace (idx + 1 + (n - (idx + 1))) with n by lia. lia. }
  rewrite E2. cbn [bind].
  replace (idx + (n - (idx + 1))) with (n - 1) in * by lia.
  replace (idx + 1 + (n - (idx + 1))) with n in * by lia.
  exists new2. split; [reflexivity|]. split; [assumption|].
  split; [|split; [|split; [|split; [|split]]]].
  - rewrite <- (touched_btype _ _ _ (n - 1) R2);
      [assumption | | apply (pk_nkeys _ _ _ P1)].
    unfold range_region, ival. intros p Hp.
    pose proof (off_nonneg (bytes new1) (n - 1) idx). lia.
  - destruct R2 as [-> _]. assumption.
  - rewrite (touched_bcap _ _ _ R2). assumption.
  - rewrite O2, O1. lia.
  - intros i Hi. rewrite F2 by lia.
    pose proof (G1 i ltac:(lia)) as G. rewrite !Z.add_0_l in G. exact G.
  - intros i Hi. replace i with (idx + (i - idx)) at 1 by lia.
    rewrite G2 by lia. f_equal. lia.
Qed.

(** X7: [leafDelete] of slot [idx] of a well-formed node into a fresh buffer
    that can hold the node returns a leaf whose entries are those of the
    node without entry [idx], in the same order; the leaf is 14 bytes and
    the key and the value of that entry smaller, and well-formed when an
    entry is left. *)
Theorem leafDelete_removes_entry (old : BNode) (idx sz size : Z)
    (es : list (Z * list byte * list byte)) :
  well_formed old = true ->
  nbytes old = Ok sz -> sz <= size -> size < 65536 ->
  entries old = Ok es -> 0 <= idx < len es ->
  exists new, leafDelete (make size) old idx = Ok new /\
    btype new = Ok BNODE_LEAF /\ blen new = size /\
    entries new =
      Ok (firstn (Z.to_nat idx) es ++ skipn (Z.to_nat (idx + 1)) es) /\
    (forall p k v, nth_error es (Z.to_nat idx) = Some (p, k, v) ->
       nbytes new = Ok (sz - 14 - len k - len v)) /\
    (2 <= len es -> well_formed new = true).
Proof.
  intros Hwf Hsz Hfit Hsm Hes Hidx.
  destruct (well_formed_packed _ Hwf) as (n & Hn1 & P).
  rewrite (nbytes_layout _ _ (packed_layout _ _ P)) in Hsz. injection Hsz as <-.
  rewrite (packed_entries _ _ P) in Hes. injection Hes as <-.
  unfold len in Hidx. rewrite length_map, len_slots in Hidx by lia.
  rewrite Z2Nat.id in Hidx by lia.
  destruct (leafDelete_packed old n idx size P Hidx)
    as (new & E & P' & T & B & C & O & F & G); unfold kv_at; try lia.
  exists new. split; [assumption|]. split; [assumption|]. split; [assumption|].
  split; [|split].
  - rewrite (packed_entries _ _ P'). f_equal.
    apply entries_without_slot; assumption.
  - intros p k v Hnth. rewrite nth_error_map_slots in Hnth by lia.
    assert (Hent : entry_at (bytes old) n idx = (p, k, v)) by congruence.
    rewrite (nbytes_layout _ _ (packed_layout _ _ P')). f_equal.
    rewrite O, (entry_at_sizes old n n idx p k v P Hidx Hent). lia.
  - intros H2. unfold len in H2. rewrite length_map, len_slots in H2 by lia.
    apply (packed_well_formed new (n - 1) P'). lia.
Qed.

Lemma leafDelete_removes_entry_witness :
  exists new,
    leafDelete (make (2 * BTREE_PAGE_SIZE)) (get_ok leaf_sorted) 1 = Ok new /\
    btype new = Ok BNODE_LEAF /\ blen new = 2 * BTREE_PAGE_SIZE /\
    entries new =
      Ok (firstn (Z.to_nat 1) [(0, [], []); (0, B "a", B "1"); (0, B "c", B "3")] ++
          skipn (Z.to_nat (1 + 1)) [(0, [], []); (0, B "a", B "1"); (0, B "c", B "3")]) /\
    (forall p k v,
       nth_error [(0, [], []); (0, B "a", B "1"); (0, B "c", B "3")] (Z.to_nat 1) =
         Some (p, k, v) ->
       nbytes new = Ok (50 - 14 - len k - len v)) /\
    (2 <= len [(0, [], []); (0, B "a", B "1"); (0, B "c", B "3")] ->
     well_formed new = true).
Proof.
  apply (leafDelete_removes_entry (get_ok leaf_sorted) 1 50 (2 * BTREE_PAGE_SIZE)
           [(0, [], []); (0, B "a", B "1"); (0, B "c", B "3")]).
  - vm_compute. reflexivity.
  - vm_compute. reflexivity.
  - unfold BTREE_PAGE_SIZE. lia.
  - unfold BTREE_PAGE_SIZE. lia.
  - vm_compute. reflexivity.
  - unfold len. simpl. lia.
Defined.

(** ** [nodeMerge] concatenates two nodes *)

Lemma nodeMerge_packed left right ln rn ty size :
  packed left ln ln -> packed right rn rn -> btype left = Ok ty ->
  4 + 10 * (ln + rn) + off (bytes left) ln ln + off (bytes right) rn rn <= size ->
  size < 65536 ->
  exists new, nodeMerge (make size) left right = Ok new /\
    packed new (ln + rn) (ln + rn) /\ btype new = Ok ty /\ blen new = size /\
    off (bytes new) (ln + rn) (ln + rn) =
      off (bytes left) ln ln + off (bytes right) rn rn /\
    (forall i, 0 <= i < ln ->
       entry_at (bytes new) (ln + rn) i = entry_at (bytes left) ln i) /\
    (forall j, 0 <= j < rn ->
       entry_at (bytes new) (ln + rn) (ln + j) = entry_at (bytes right) rn j).
Proof.
  intros Pl Pr Hty Hfit Hsm.
  pose proof (off_nonneg (bytes left) ln ln) as Ol.
  pose proof (off_nonneg (bytes right) rn rn) as Or.
  pose proof (pk_k _ _ _ Pl) as Hln. pose proof (pk_k _ _ _ Pr) as Hrn.
  unfold nodeMerge. rewrite Hty, (pk_nkeys _ _ _ Pl), (pk_nkeys _ _ _ Pr).
  cbn [bind]. rewrite wrap16_small by lia.
  destruct (packed_fresh size ty (ln + rn))
    as (new0 & E0 & P0 & T0 & B0 & C0 & _); try lia.
  rewrite E0. cbn [bind]. rewrite (btype_range _ _ Hty) in T0.
  destruct (nodeAppendRange_packed new0 left (ln + rn) ln 0 0 ln)
    as (new1 & E1 & P1 & R1 & O1 & F1 & G1); try assumption; try lia.
  { unfold kv_at. change (off (bytes new0) (ln + rn) 0) with 0.
    change (off (bytes left) ln 0) with 0. rewrite Z.add_0_l. lia. }
  rewrite E1. cbn [bind]. rewrite Z.add_0_l in P1, O1.
  change (off (bytes new0) (ln + rn) 0) with 0 in *.
  change (off (bytes left) ln 0) with 0 in *.
  rewrite Z.sub_0_r, Z.add_0_l in O1.
  assert (B1 : blen new1 = size) by (destruct R1 as [-> _]; assumption).
  destruct (nodeAppendRange_packed new1 right (ln + rn) rn ln 0 rn)
    as (new2 & E2 & P2 & R2 & O2 & F2 & G2); try assumption; try lia.
  { unfold kv_at. rewrite O1. change (off (bytes right) rn 0) with 0.
    rewrite Z.add_0_l. lia. }
  rewrite E2. cbn [bind].
  rewrite Z.add_0_l in O2. change (off (bytes right) rn 0) with 0 in O2.
  rewrite Z.sub_0_r in O2.
  exists new2. split; [reflexivity|]. split; [assumption|].
  split; [|split; [|split; [|split]]].
  - rewrite (touched_btype_eq _ _ _ R2), (touched_btype_eq _ _ _ R1); [assumption| |].
    + unfold range_region, ival. intros p Hr. lia.
    + unfold range_region, ival. intros p Hr.
      pose proof (off_nonneg (bytes new1) (ln + rn) ln). lia.
  - destruct R2 as [-> _]. assumption.
  - rewrite O2, O1. reflexivity.
  - intros i Hi. rewrite F2 by lia.
    pose proof (G1 i Hi) as G. rewrite !Z.add_0_l in G. exact G.
  - intros j Hj. pose proof (G2 j Hj) as G. rewrite Z.add_0_l in G. exact G.
Qed.

(** X8: [nodeMerge] of two well-formed nodes into a fresh buffer that can
    hold both returns a node of the type of the left one whose entries are
    those of the left node followed by those of the right node; its size is
    the sum of the two sizes less one header, and it is well-formed. *)
Theorem nodeMerge_concatenates (left right : BNode) (ty lsz rsz size : Z)
    (les res : list (Z * list byte * list byte)) :
  well_formed left = true -> well_formed right = true ->
  btype left = Ok ty ->
  nbytes left = Ok lsz -> nbytes right = Ok rsz ->
  lsz + rsz - HEADER <= size -> size < 65536 ->
  entries left = Ok les -> entries right = Ok res ->
  exists new, nodeMerge (make size) left right = Ok new /\
    btype new = Ok ty /\ blen new = size /\
    entries new = Ok (les ++ res) /\
    nbytes new = Ok (lsz + rsz - HEADER) /\
    well_formed new = true.
Proof.
  unfold HEADER. intros Hwl Hwr Hty Hlsz Hrsz Hfit Hsm Hles Hres.
  destruct (well_formed_packed _ Hwl) as (ln & Hln & Pl).
  destruct (well_formed_packed _ Hwr) as (rn & Hrn & Pr).
  rewrite (nbytes_layout _ _ (packed_layout _ _ Pl)) in Hlsz. injection Hlsz as <-.
  rewrite (nbytes_layout _ _ (packed_layout _ _ Pr)) in Hrsz. injection Hrsz as <-.
  rewrite (packed_entries _ _ Pl) in Hles. injection Hles as <-.
  rewrite (packed_entries _ _ Pr) in Hres. injection Hres as <-.
  destruct (nodeMerge_packed left right ln rn ty size Pl Pr Hty)
    as (new & E & P & T & B & O & F & G); try lia.
  exists new. split; [exact E|]. split; [exact T|]. split; [exact B|].
  split; [|split].
  - rewrite (packed_entries _ _ P). f_equal.
    apply entries_concat; try assumption; lia.
  - rewrite (nbytes_layout _ _ (packed_layout _ _ P)), O. f_equal. lia.
  - apply (packed_well_formed _ _ P). lia.
Qed.

Lemma nodeMerge_concatenates_witness :
  exists new,
    nodeMerge (make BTREE_PAGE_SIZE) (get_ok leaf_left) (get_ok leaf_right) = Ok new /\
    btype new = Ok BNODE_LEAF /\ blen new = BTREE_PAGE_SIZE /\
    entries new =
      Ok ([(0, [], []); (0, B "a", B "1")] ++ [(0, B "m", B "w"); (0, B "x", B "y")]) /\
    nbytes new = Ok (34 + 36 - HEADER) /\
    well_formed new = true.
Proof.
  apply (nodeMerge_concatenates (get_ok leaf_left) (get_ok leaf_right)
           BNODE_LEAF 34 36 BTREE_PAGE_SIZE
           [(0, [], []); (0, B "a", B "1")] [(0, B "m", B "w"); (0, B "x", B "y")]).
  - vm_compute. reflexivity.
  - vm_compute. reflexivity.
  - vm_compute. reflexivity.
  - vm_compute. reflexivity.
  - vm_compute. reflexivity.
  - unfold HEADER, BTREE_PAGE_SIZE. lia.
  - unfold BTREE_PAGE_SIZE. lia.
  - vm_compute. reflexivity.
  - vm_compute. reflexivity.
Defined.

(** ** [nodeSplit3] yields one node or two empty pages *)

(** X9: when [nodeSplit3] returns, it returns either the node itself, cut to
    one page (the node is at most one page long), or two pages of zeroes,
    which hold no entry (the node is longer than one page).  It never
    returns three nodes. *)
Theorem nodeSplit3_at_most_two (old : BNode) (count : Z) (split : list BNode) :
  nodeSplit3 old = Ok (count, split) ->
  (count = 1 /\ split = [mkBNode (bytes old) BTREE_PAGE_SIZE; nil_node; nil_node] /\
   exists sz, nbytes old = Ok sz /\ sz <= BTREE_PAGE_SIZE) \/
  (count = 2 /\
   split = [mkBNode (repeat x00 (Z.to_nat (2 * BTREE_PAGE_SIZE))) BTREE_PAGE_SIZE;
            make BTREE_PAGE_SIZE; nil_node] /\
   map_result entries (take_split count split) = Ok [[]; []] /\
   exists sz, nbytes old = Ok sz /\ BTREE_PAGE_SIZE < sz).
Proof.
  intros H. destruct (nbytes old) as [sz| |] eqn:Hsz;
    try (unfold nodeSplit3 in H; rewrite Hsz in H; discriminate).
  destruct (Z_le_gt_dec sz BTREE_PAGE_SIZE) as [Hle|Hgt].
  - left. unfold nodeSplit3, trim_page in H. rewrite Hsz in H. cbn [bind] in H.
    destruct (Z.leb_spec sz BTREE_PAGE_SIZE); [|lia].
    inv_ok. split; [reflexivity|]. split; [reflexivity|]. eauto.
  - right. rewrite (nodeSplit3_oversized old sz Hsz ltac:(lia)) in H.
    injection H as <- <-. split; [reflexivity|]. split; [reflexivity|]. split.
    + vm_compute. reflexivity.
    + exists sz. split; [reflexivity | lia].
Qed.

Lemma nodeSplit3_at_most_two_witness :
  (2 = 1 /\
   [mkBNode (bytes (make (2 * BTREE_PAGE_SIZE))) BTREE_PAGE_SIZE;
    make BTREE_PAGE_SIZE; nil_node] =
     [mkBNode (bytes (get_ok leaf_oversized)) BTREE_PAGE_SIZE; nil_node; nil_node] /\
   exists sz, nbytes (get_ok leaf_oversized) = Ok sz /\ sz <= BTREE_PAGE_SIZE) \/
  (2 = 2 /\
   [mkBNode (bytes (make (2 * BTREE_PAGE_SIZE))) BTREE_PAGE_SIZE;
    make BTREE_PAGE_SIZE; nil_node] =
     [mkBNode (repeat x00 (Z.to_nat (2 * BTREE_PAGE_SIZE))) BTREE_PAGE_SIZE;
      make BTREE_PAGE_SIZE; nil_node] /\
   map_result entries
     (take_split 2 [mkBNode (bytes (make (2 * BTREE_PAGE_SIZE))) BTREE_PAGE_SIZE;
                    make BTREE_PAGE_SIZE; nil_node]) = Ok [[]; []] /\
   exists sz, nbytes (get_ok leaf_oversized) = Ok sz /\ BTREE_PAGE_SIZE < sz).
Proof.
  apply (nodeSplit3_at_most_two (get_ok leaf_oversized) 2
           [mkBNode (bytes (make (2 * BTREE_PAGE_SIZE))) BTREE_PAGE_SIZE;
            make BTREE_PAGE_SIZE; nil_node]).
  vm_compute. reflexivity.
Defined.

(** X10: [nodeSplit3] of a well-formed node of at most one page, in a
    buffer of at least one page, returns one node: a slice of one page that
    is well-formed and has the type, the size and the entries of the
    node. *)
Theorem nodeSplit3_keeps_entries (old : BNode) (sz : Z)
    (es : list (Z * list byte * list byte)) :
  well_formed old = true -> nbytes old = Ok sz -> sz <= BTREE_PAGE_SIZE ->
  BTREE_PAGE_SIZE <= bcap old -> entries old = Ok es ->
  exists node, nodeSplit3 old = Ok (1, [node; nil_node; nil_node]) /\
    blen node = BTREE_PAGE_SIZE /\ btype node = btype old /\
    entries node = Ok es /\ nbytes node = Ok sz /\ well_formed node = true.
Proof.
  intros Hwf Hsz Hfit Hcap Hes.
  destruct (well_formed_packed _ Hwf) as (n & Hn1 & P).
  rewrite (nodeSplit3_fits old sz Hsz Hfit Hcap).
  rewrite (nbytes_layout _ _ (packed_layout _ _ P)) in Hsz. injection Hsz as <-.
  set (node := mkBNode (bytes old) BTREE_PAGE_SIZE).
  assert (P' : packed node n n).
  { destruct P as [Hn Hk Hc He Hs Hx].
    constructor; [exact Hn | exact Hk | exact Hcap | exact Hfit | exact Hs | exact Hx]. }
  exists node. split; [reflexivity|]. split; [reflexivity|]. split; [reflexivity|].
  split; [|split].
  - rewrite (packed_entries _ _ P'). rewrite (packed_entries _ _ P) in Hes.
    exact Hes.
  - apply (nbytes_layout _ _ (packed_layout _ _ P')).
  - apply (packed_well_formed _ _ P'). assumption.
Qed.

Lemma nodeSplit3_keeps_entries_witness :
  exists node, nodeSplit3 (get_ok leaf_k) = Ok (1, [node; nil_node; nil_node]) /\
    blen node = BTREE_PAGE_SIZE /\ btype node = btype (get_ok leaf_k) /\
    entries node = Ok [(0, [], []); (0, B "k", B "v")] /\
    nbytes node = Ok 34 /\ well_formed node = true.
Proof.
  apply (nodeSplit3_keeps_entries (get_ok leaf_k) 34 [(0, [], []); (0, B "k", B "v")]).
  - vm_compute. reflexivity.
  - vm_compute. reflexivity.
  - unfold BTREE_PAGE_SIZE. lia.
  - apply Z.leb_le. vm_compute. reflexivity.
  - vm_compute. reflexivity.
Defined.

(** ** [leafInsert] after the last entry *)

(** X11: [leafInsert] after the last entry of a well-formed node, into a
    fresh buffer with room for the node and 14 bytes more, returns a leaf
    with one key more whose entries are those of the node followed by an
    entry with pointer 0, the empty key and the empty value, whatever the
    key and the value given are. *)
Theorem leafInsert_at_end_appends_empty (old : BNode) (n sz size : Z)
    (key val : list byte) (es : list (Z * list byte * list byte)) :
  well_formed old = true -> nkeys old = Ok n -> nbytes old = Ok sz ->
  sz + 14 <= size -> size < 65536 -> entries old = Ok es ->
  exists new, leafInsert (make size) old n key val = Ok new /\
    btype new = Ok BNODE_LEAF /\ nkeys new = Ok (n + 1) /\ blen new = size /\
    entries new = Ok (es ++ [(0, [], [])]).
Proof.
  intros Hwf Hn Hsz Hfit Hsm Hes.
  destruct (well_formed_packed _ Hwf) as (n' & Hn1 & P).
  assert (n' = n) as -> by (symmetry; apply (packed_nkeys _ _ _ _ P Hn)).
  rewrite (nbytes_layout _ _ (packed_layout _ _ P)) in Hsz. injection Hsz as <-.
  rewrite (packed_entries _ _ P) in Hes. injection Hes as <-.
  pose proof (off_nonneg (bytes old) n n) as On.
  unfold leafInsert. rewrite Hn. cbn [bind].
  rewrite !wrap16_small by (rewrite ?wrap16_small; lia).
  destruct (packed_fresh size BNODE_LEAF (n + 1))
    as (new0 & E0 & P0 & T0 & B0 & C0 & Z0); try lia.
  rewrite E0. cbn [bind]. change (wrap16 BNODE_LEAF) with BNODE_LEAF in T0.
  (* all the entries of [old] *)
  destruct (nodeAppendRange_packed new0 old (n + 1) n 0 0 n)
    as (new1 & E1 & P1 & R1 & O1 & F1 & G1); try assumption; try lia.
  { unfold kv_at. change (off (bytes new0) (n + 1) 0) with 0.
    change (off (bytes old) n 0) with 0. rewrite Z.add_0_l. lia. }
  rewrite E1. cbn [bind]. rewrite Z.add_0_l in P1, O1, R1.
  change (off (bytes new0) (n + 1) 0) with 0 in *.
  change (off (bytes old) n 0) with 0 in *.
  rewrite Z.sub_0_r, Z.add_0_l in O1. rewrite Z.sub_0_r in R1.
  assert (B1 : blen new1 = size) by (destruct R1 as [-> _]; assumption).
  assert (C1 : bcap new1 = size) by (rewrite (touched_bcap _ _ _ R1); assumption).
  assert (N1 : nkeys new1 = Ok (n + 1)) by apply (pk_nkeys _ _ _ P1).
  (* nothing is left to copy *)
  replace (n - n) with 0 by lia. change (wrap16 0) with 0.
  rewrite (nodeAppendRange_none new1 old (n + 1) n (n + 1) n) by (assumption || lia).
  exists new1. split; [reflexivity|].
  split; [|split; [assumption|split; [assumption|]]].
  - rewrite (touched_btype_eq _ _ _ R1); [assumption|].
    unfold range_region, ival. intros p Hr. lia.
  - (* the bytes that were not written are zero *)
    assert (Zr : forall p, 4 + 8 * n <= p < 4 + 8 * (n + 1) \/
                           4 + 10 * (n + 1) + off (bytes old) n n <= p ->
                 byte_at (bytes new1) p = x00).
    { intros p Hp. destruct R1 as (_ & _ & F). rewrite F; [apply Z0; lia | lia |].
      unfold range_region, ival. lia. }
    assert (Kv : kv_at (bytes new1) (n + 1) n = 4 + 10 * (n + 1) + off (bytes old) n n).
    { unfold kv_at. rewrite O1. reflexivity. }
    assert (K0 : u16 (bytes new1) (kv_at (bytes new1) (n + 1) n) = 0).
    { rewrite Kv. apply u16_zero; apply Zr; lia. }
    assert (V0 : u16 (bytes new1) (kv_at (bytes new1) (n + 1) n + 2) = 0).
    { rewrite Kv. apply u16_zero; apply Zr; lia. }
    assert (Elast : entry new1 n = Ok (0, [], [])).
    { unfold entry.
      rewrite (getPtr_eq new1 (n + 1) n) by (assumption || lia). cbn [bind].
      rewrite u64_zero; [|lia | rewrite <- bcap_len; lia | intros p Hp; apply Zr; lia].
      unfold kv_at in K0, V0, Kv.
      rewrite (getKey_eq new1 (n + 1) n) by (try assumption; cbv zeta; lia).
      cbn [bind].
      rewrite (getVal_eq new1 (n + 1) n) by (try assumption; cbv zeta; lia).
      cbn [bind]. rewrite K0, V0, !Z.add_0_r, sub_empty. reflexivity. }
    rewrite (entries_ext new1 (n + 1)
               (fun j => if j <? n then entry_at (bytes old) n j else (0, [], [])) N1).
    + rewrite slots_app, map_app by lia. f_equal. f_equal.
      * apply map_slots_ext. intros i Hi.
        destruct (Z.ltb_spec i n); [reflexivity | lia].
      * change (slots 1) with [0]. cbn [map]. rewrite Z.add_0_r.
        rewrite Z.ltb_irrefl. reflexivity.
    + intros j Hj. destruct (Z.ltb_spec j n) as [Hlt|Hge].
      * rewrite (packed_entry new1 (n + 1) n j P1) by lia.
        pose proof (G1 j ltac:(lia)) as G. rewrite !Z.add_0_l in G.
        rewrite G. reflexivity.
      * replace j with n by lia. exact Elast.
Qed.

Lemma leafInsert_at_end_appends_empty_witness :
  exists new,
    leafInsert (make (2 * BTREE_PAGE_SIZE)) (get_ok leaf_sorted) 3 (B "m") (B "w") =
      Ok new /\
    btype new = Ok BNODE_LEAF /\ nkeys new = Ok (3 + 1) /\
    blen new = 2 * BTREE_PAGE_SIZE /\
    entries new =
      Ok ([(0, [], []); (0, B "a", B "1"); (0, B "c", B "3")] ++ [(0, [], [])]).
Proof.
  apply (leafInsert_at_end_appends_empty (get_ok leaf_sorted) 3 50
           (2 * BTREE_PAGE_SIZE) (B "m") (B "w")
           [(0, [], []); (0, B "a", B "1"); (0, B "c", B "3")]).
  - vm_compute. reflexivity.
  - vm_compute. reflexivity.
  - vm_compute. reflexivity.
  - unfold BTREE_PAGE_SIZE. lia.
  - unfold BTREE_PAGE_SIZE. lia.
  - vm_compute. reflexivity.
Defined.

(** ** [nodeReplaceKidN] with one kid *)

Lemma nodeReplaceKidN_one_packed (t : BTree) (old kid : BNode)
    (n idx size ksz : Z) (k : list byte) :
  packed old n n -> 0 <= idx < n ->
  nbytes kid = Ok ksz -> ksz <= BTREE_PAGE_SIZE -> 0 < blen kid ->
  getKey kid 0 = Ok k ->
  pages t !! fresh t = None -> 0 <= fresh t < 2 ^ 64 ->
  kv_at (bytes old) n n - size_at (bytes old) n idx + 4 + len k <= size ->
  size < 65536 ->
  exists new,
    nodeReplaceKidN t (make size) old idx [kid] =
      Ok (new, mkBTree (root t) (<[fresh t := kid]> (pages t)) (fresh t + 1)
                       (calls t ++ [CallNew (fresh t)])) /\
    packed new n n /\ btype new = Ok BNODE_NODE /\ blen new = size /\
    off (bytes new) n n =
      off (bytes old) n n - size_at (bytes old) n idx + 4 + len k /\
    (forall i, 0 <= i < idx ->
       entry_at (bytes new) n i = entry_at (bytes old) n i) /\
    entry_at (bytes new) n idx = (fresh t, k, []) /\
    (forall i, idx < i < n ->
       entry_at (bytes new) n i = entry_at (bytes old) n i).
Proof.
  intros P Hidx Hksz Hkfit Hkb Hkk Hfresh Hptr Hfit Hsm.
  pose proof (packed_mono _ _ _ P) as M.
  pose proof (pk_next _ _ _ P idx Hidx) as Xi.
  pose proof (size_at_min (bytes old) n idx) as Smin.
  pose proof (off_nonneg (bytes old) n idx) as O0.
  pose proof (M (idx + 1) n ltac:(lia) ltac:(lia)) as M1.
  pose proof (len_nonneg k) as Hk0.
  unfold kv_at in Hfit.
  unfold nodeReplaceKidN. change (wrap16 (len [kid])) with 1.
  rewrite (pk_nkeys _ _ _ P). cbn [bind].
  replace (n + 1 - 1) with n by lia.
  rewrite !wrap16_small by (rewrite ?wrap16_small; lia).
  destruct (packed_fresh size BNODE_NODE n)
    as (new0 & E0 & P0 & T0 & B0 & C0 & _); try lia.
  rewrite E0. cbn [bind]. change (wrap16 BNODE_NODE) with BNODE_NODE in T0.
  (* the entries before the replaced link *)
  destruct (nodeAppendRange_packed new0 old n n 0 0 idx)
    as (new1 & E1 & P1 & R1 & O1 & F1 & G1); try assumption; try lia.
  { unfold kv_at. change (off (bytes new0) n 0) with 0.
    change (off (bytes old) n 0) with 0. rewrite Z.add_0_l. lia. }
  rewrite E1. cbn [bind append_kids]. rewrite Z.add_0_l in P1, O1.
  change (off (bytes new0) n 0) with 0 in *.
  change (off (bytes old) n 0) with 0 in *.
  rewrite Z.sub_0_r, Z.add_0_l in O1.
  assert (B1 : blen new1 = size) by (destruct R1 as [-> _]; assumption).
  (* the page of the kid and its link *)
  unfold tree_new, tree_new_at. rewrite Hksz. cbn [bind]. checks.
  cbn [pages]. rewrite Hfresh. cbn [bind]. rewrite Hkk. cbn [bind].
  change (wrap16 0) with 0. rewrite Z.add_0_r. rewrite (wrap16_small idx) by lia.
  destruct (nodeAppendKV_packed new1 n idx (fresh t) k [])
    as (new2 & E2 & P2 & R2 & O2 & F2 & G2); try assumption; try lia.
  { unfold kv_at. rewrite O1. change (@len byte []) with 0. lia. }
  rewrite E2. cbn [bind]. change (@len byte []) with 0 in *.
  rewrite O1, Z.add_0_r in O2.
  assert (B2 : blen new2 = size) by (destruct R2 as [-> _]; assumption).
  (* the entries after it *)
  destruct (nodeAppendRange_packed new2 old n n (idx + 1) (idx + 1) (n - (idx + 1)))
    as (new3 & E3 & P3 & R3 & O3 & F3 & G3); try assumption; try lia.
  { unfold kv_at. rewrite O2. replace (idx + 1 + (n - (idx + 1))) with n by lia. lia. }
  rewrite E3. cbn [bind root fresh calls].
  replace (idx + 1 + (n - (idx + 1))) with n in * by lia.
  exists new3. split; [reflexivity|]. split; [assumption|].
  split; [|split; [|split; [|split; [|split]]]].
  - rewrite (touched_btype_eq _ _ _ R3), (touched_btype_eq _ _ _ R2),
      (touched_btype_eq _ _ _ R1); [assumption| | |];
      unfold range_region, ival; intros p Hr;
      pose proof (off_nonneg (bytes new1) n idx);
      pose proof (off_nonneg (bytes new2) n (idx + 1)); lia.
  - destruct R3 as [-> _]. assumption.
  - rewrite O3, O2. lia.
  - intros i Hi. rewrite F3, F2 by lia. pose proof (G1 i Hi) as G.
    rewrite !Z.add_0_l in G. exact G.
  - rewrite F3 by lia. exact G2.
  - intros i Hi. replace i with (idx + 1 + (i - (idx + 1))) by lia.
    apply G3. lia.
Qed.

(** X12: [nodeReplaceKidN] of link [idx] of a well-formed node by one kid,
    into a fresh buffer that can hold the result, registers the kid as a new
    page and returns an internal node whose entries are those of the node
    with entry [idx] replaced by the new page id, the first key of the kid
    and the empty value; the node is well-formed, and its size is the one of
    the old node with the old key and value exchanged for the new key. *)
Theorem nodeReplaceKidN_one (t : BTree) (old kid : BNode) (idx sz size ksz p0 : Z)
    (k k0 v0 : list byte) (es : list (Z * list byte * list byte)) :
  well_formed old = true -> nbytes old = Ok sz -> entries old = Ok es ->
  0 <= idx -> nth_error es (Z.to_nat idx) = Some (p0, k0, v0) ->
  nbytes kid = Ok ksz -> ksz <= BTREE_PAGE_SIZE -> 0 < blen kid ->
  getKey kid 0 = Ok k ->
  pages t !! fresh t = None -> 0 <= fresh t < 2 ^ 64 ->
  sz - len k0 - len v0 + len k <= size -> size < 65536 ->
  exists new,
    nodeReplaceKidN t (make size) old idx [kid] =
      Ok (new, mkBTree (root t) (<[fresh t := kid]> (pages t)) (fresh t + 1)
                       (calls t ++ [CallNew (fresh t)])) /\
    btype new = Ok BNODE_NODE /\ blen new = size /\
    entries new =
      Ok (firstn (Z.to_nat idx) es ++ (fresh t, k, []) :: skipn (Z.to_nat (idx + 1)) es) /\
    nbytes new = Ok (sz - len k0 - len v0 + len k) /\
    well_formed new = true.
Proof.
  intros Hwf Hsz Hes Hidx0 Hnth Hksz Hkfit Hkb Hkk Hfresh Hptr Hfit Hsm.
  destruct (well_formed_packed _ Hwf) as (n & Hn1 & P).
  rewrite (nbytes_layout _ _ (packed_layout _ _ P)) in Hsz. injection Hsz as <-.
  rewrite (packed_entries _ _ P) in Hes. injection Hes as <-.
  assert (Hidx : 0 <= idx < n).
  { split; [assumption|].
    assert (Hl : (Z.to_nat idx < length (map (entry_at (bytes old) n) (slots n)))%nat).
    { apply nth_error_Some. congruence. }
    rewrite length_map, len_slots in Hl by lia. lia. }
  rewrite nth_error_map_slots in Hnth by lia.
  assert (Hent : entry_at (bytes old) n idx = (p0, k0, v0)) by congruence.
  pose proof (entry_at_sizes old n n idx p0 k0 v0 P Hidx Hent) as Hsize.
  destruct (nodeReplaceKidN_one_packed t old kid n idx size ksz k)
    as (new & E & P' & T & B & O & F & G & H); try assumption.
  { unfold kv_at. lia. }
  exists new. split; [exact E|]. split; [exact T|]. split; [exact B|].
  split; [|split].
  - rewrite (packed_entries _ _ P'). f_equal.
    apply entries_with_slot; assumption.
  - rewrite (nbytes_layout _ _ (packed_layout _ _ P')). f_equal. lia.
  - apply (packed_well_formed _ _ P'). lia.
Qed.

Lemma nodeReplaceKidN_one_witness :
  exists new,
    nodeReplaceKidN tree_two (make BTREE_PAGE_SIZE) (get_ok node_top) 1
                    [get_ok leaf_one] =
      Ok (new, mkBTree (root tree_two)
                       (<[fresh tree_two := get_ok leaf_one]> (pages tree_two))
                       (fresh tree_two + 1)
                       (calls tree_two ++ [CallNew (fresh tree_two)])) /\
    btype new = Ok BNODE_NODE /\ blen new = BTREE_PAGE_SIZE /\
    entries new =
      Ok (firstn (Z.to_nat 1) [(2, [], []); (3, B "m", [])] ++
          (fresh tree_two, B "k", []) ::
          skipn (Z.to_nat (1 + 1)) [(2, [], []); (3, B "m", [])]) /\
    nbytes new = Ok (33 - len (B "m") - len (@nil byte) + len (B "k")) /\
    well_formed new = true.
Proof.
  apply (nodeReplaceKidN_one tree_two (get_ok node_top) (get_ok leaf_one)
           1 33 BTREE_PAGE_SIZE 20 3 (B "k") (B "m") []
           [(2, [], []); (3, B "m", [])]).
  - vm_compute. reflexivity.
  - vm_compute. reflexivity.
  - vm_compute. reflexivity.
  - lia.
  - vm_compute. reflexivity.
  - vm_compute. reflexivity.
  - unfold BTREE_PAGE_SIZE. lia.
  - apply Z.ltb_lt. vm_compute. reflexivity.
  - vm_compute. reflexivity.
  - vm_compute. reflexivity.
  - split; [apply Z.leb_le | apply Z.ltb_lt]; vm_compute; reflexivity.
  - apply Z.leb_le. vm_compute. reflexivity.
  - unfold BTREE_PAGE_SIZE. lia.
Defined.

(** ** [shouldMerge] and [nodeMerge] *)

(** X13: when [shouldMerge] proposes a sibling (a result other than 0) for a
    well-formed updated kid, and the sibling is a well-formed node of at most
    one page, [nodeMerge] of the two, the left one first, into a fresh page
    returns: the merged node is well-formed, is at most one page long, and
    holds the entries of the left node followed by those of the right
    node. *)
Theorem shouldMerge_fits (t : BTree) (node updated sib : BNode) (idx dir usz ssz : Z)
    (ues ses : list (Z * list byte * list byte)) :
  shouldMerge t node idx updated = Ok (dir, sib) -> dir <> 0 ->
  well_formed updated = true -> well_formed sib = true ->
  nbytes updated = Ok usz -> nbytes sib = Ok ssz -> ssz <= BTREE_PAGE_SIZE ->
  entries updated = Ok ues -> entries sib = Ok ses ->
  exists merged,
    nodeMerge (make BTREE_PAGE_SIZE) (if dir <? 0 then sib else updated)
              (if dir <? 0 then updated else sib) = Ok merged /\
    nbytes merged = Ok (ssz + usz - HEADER) /\
    ssz + usz - HEADER <= BTREE_PAGE_SIZE /\
    entries merged = Ok (if dir <? 0 then ses ++ ues else ues ++ ses) /\
    well_formed merged = true.
Proof.
  unfold HEADER, BTREE_PAGE_SIZE.
  intros H Hdir Hwu Hws Husz Hssz Hpage Hues Hses.
  destruct (well_formed_packed _ Hwu) as (un & Hun & Pu).
  destruct (well_formed_packed _ Hws) as (sn & Hsn & Ps).
  pose proof (well_formed_size _ _ Pu Hun) as Su.
  pose proof (well_formed_size _ _ Ps Hsn) as Ss.
  assert (Husz' := Husz). assert (Hssz' := Hssz).
  rewrite (nbytes_layout _ _ (packed_layout _ _ Pu)) in Husz'. injection Husz' as Eu.
  rewrite (nbytes_layout _ _ (packed_layout _ _ Ps)) in Hssz'. injection Hssz' as Es.
  rewrite (packed_entries _ _ Pu) in Hues. injection Hues as <-.
  rewrite (packed_entries _ _ Ps) in Hses. injection Hses as <-.
  (* what [shouldMerge] has checked *)
  assert (Hchk : (dir = -1 \/ dir = 1) /\ usz <= 1024 /\ ssz + usz - 4 <= 4096).
  { unfold shouldMerge, HEADER, BTREE_PAGE_SIZE in H. rewrite Husz in H.
    cbn [bind] in H. change (4096 / 4) with 1024 in H.
    destruct (Z.ltb_spec 1024 usz) as [Hbig|Hsmall].
    { injection H as <- _. contradiction. }
    assert (W : forall s, nbytes s = Ok ssz ->
              wrap16 (ssz + usz - 4) <= 4096 -> ssz + usz - 4 <= 4096).
    { intros s _ Hw. rewrite wrap16_small in Hw by lia. exact Hw. }
    destruct (0 <? idx).
    - destruct (getPtr node (wrap16 (idx - 1))) as [p| |]; try discriminate.
      cbn [bind] in H.
      destruct (tree_get t p) as [s| |]; try discriminate. cbn [bind] in H.
      destruct (nbytes s) as [ssz'| |] eqn:Hs; try discriminate. cbn [bind] in H.
      destruct (Z.leb_spec (wrap16 (ssz' + usz - 4)) 4096) as [Hm|Hm];
        cbn [bind] in H.
      + injection H as <- ->. rewrite Hssz in Hs. injection Hs as <-.
        split; [auto|]. split; [lia|]. apply (W sib Hssz Hm).
      + destruct (nkeys node) as [n| |]; try discriminate. cbn [bind] in H.
        destruct (wrap16 (idx + 1) <? n).
        * destruct (getPtr node (wrap16 (idx + 1))) as [p'| |]; try discriminate.
          cbn [bind] in H.
          destruct (tree_get t p') as [s'| |]; try discriminate. cbn [bind] in H.
          destruct (nbytes s') as [ssz''| |] eqn:Hs'; try discriminate.
          cbn [bind] in H.
          destruct (Z.leb_spec (wrap16 (ssz'' + usz - 4)) 4096) as [Hm'|Hm'].
          -- injection H as <- ->. rewrite Hssz in Hs'. injection Hs' as <-.
             split; [auto|]. split; [lia|]. apply (W sib Hssz Hm').
          -- injection H as <- _. contradiction.
        * injection H as <- _. contradiction.
    - cbn [bind] in H.
      destruct (nkeys node) as [n| |]; try discriminate. cbn [bind] in H.
      destruct (wrap16 (idx + 1) <? n).
      + destruct (getPtr node (wrap16 (idx + 1))) as [p'| |]; try discriminate.
        cbn [bind] in H.
        destruct (tree_get t p') as [s'| |]; try discriminate. cbn [bind] in H.
        destruct (nbytes s') as [ssz''| |] eqn:Hs'; try discriminate.
        cbn [bind] in H.
        destruct (Z.leb_spec (wrap16 (ssz'' + usz - 4)) 4096) as [Hm'|Hm'].
        * injection H as <- ->. rewrite Hssz in Hs'. injection Hs' as <-.
          split; [auto|]. split; [lia|]. apply (W sib Hssz Hm').
        * injection H as <- _. contradiction.
      + injection H as <- _. contradiction. }
  destruct Hchk as (Hd & Hu & Hm).
  assert (exists tl tr, btype sib = Ok tl /\ btype updated = Ok tr) as (tl & tr & Tl & Tr).
  { rewrite !btype_eq.
    - eauto.
    - pose proof (pk_cap _ _ _ Pu). pose proof (pk_end _ _ _ Pu) as A.
      unfold kv_at in A. lia.
    - pose proof (pk_cap _ _ _ Ps). pose proof (pk_end _ _ _ Ps) as A.
      unfold kv_at in A. lia. }
  destruct Hd as [-> | ->].
  - change (-1 <? 0) with true. cbv iota.
    destruct (nodeMerge_packed sib updated sn un tl 4096 Ps Pu Tl)
      as (m & E & Pm & Tm & Bm & Om & F & G); try lia.
    exists m. split; [exact E|]. split; [|split; [lia|split]].
    + rewrite (nbytes_layout _ _ (packed_layout _ _ Pm)), Om. f_equal. lia.
    + rewrite (packed_entries _ _ Pm). f_equal.
      apply entries_concat; try assumption; lia.
    + apply (packed_well_formed _ _ Pm). lia.
  - change (1 <? 0) with false. cbv iota.
    destruct (nodeMerge_packed updated sib un sn tr 4096 Pu Ps Tr)
      as (m & E & Pm & Tm & Bm & Om & F & G); try lia.
    exists m. split; [exact E|]. split; [|split; [lia|split]].
    + rewrite (nbytes_layout _ _ (packed_layout _ _ Pm)), Om. f_equal. lia.
    + rewrite (packed_entries _ _ Pm). f_equal.
      apply entries_concat; try assumption; lia.
    + apply (packed_well_formed _ _ Pm). lia.
Qed.

Lemma shouldMerge_fits_witness :
  exists merged,
    nodeMerge (make BTREE_PAGE_SIZE) (get_ok leaf_left) (get_ok leaf_one) = Ok merged /\
    nbytes merged = Ok (34 + 20 - HEADER) /\
    34 + 20 - HEADER <= BTREE_PAGE_SIZE /\
    entries merged = Ok ([(0, [], []); (0, B "a", B "1")] ++ [(0, B "k", B "v")]) /\
    well_formed merged = true.
Proof.
  apply (shouldMerge_fits tree_two (get_ok node_top) (get_ok leaf_one)
           (get_ok leaf_left) 1 (-1) 20 34
           [(0, B "k", B "v")] [(0, [], []); (0, B "a", B "1")]).
  - vm_compute. reflexivity.
  - lia.
  - vm_compute. reflexivity.
  - vm_compute. reflexivity.
  - vm_compute. reflexivity.
  - vm_compute. reflexivity.
  - unfold BTREE_PAGE_SIZE. lia.
  - vm_compute. reflexivity.
  - vm_compute. reflexivity.
Defined.

(** ** The page manager *)

Lemma assert_cases c : assert c = Ok tt \/ assert c = Panic.
Proof. destruct c; auto. Qed.

Lemma tree_del_cases t p :
  (exists node, pages t !! p = Some node /\
     tree_del t p = Ok (mkBTree (root t) (delete p (pages t)) (fresh t)
                                (calls t ++ [CallDel p]))) \/
  (pages t !! p = None /\ tree_del t p = Panic).
Proof. unfold tree_del. destruct (pages t !! p); eauto. Qed.

Lemma tree_get_cases t p :
  (exists node, pages t !! p = Some node /\ tree_get t p = Ok node) \/
  (pages t !! p = None /\ tree_get t p = Panic).
Proof. unfold tree_get. destruct (pages t !! p); eauto. Qed.

(** X14: after [new] of the harness has registered a buffer, [get] of its
    page id returns the buffer and [get] of any other id is as before;
    registering the same buffer again panics; [del] of the page id returns
    and leaves the pages as they were before [new]; after that, [get] and
    [del] of the page id panic. *)
Theorem tree_new_del_round_trip (t t1 : BTree) (node : BNode) (p : Z) :
  tree_new t node = Ok (p, t1) ->
  tree_get t1 p = Ok node /\
  (forall q, q <> p -> tree_get t1 q = tree_get t q) /\
  tree_new_at t1 p node = Panic /\
  exists t2, tree_del t1 p = Ok t2 /\ pages t2 = pages t /\
    tree_get t2 p = Panic /\ tree_del t2 p = Panic.
Proof.
  unfold tree_new, tree_new_at. intros H.
  destruct (nbytes node) as [sz| |] eqn:Hsz; try discriminate. cbn [bind] in H.
  destruct (sz <=? BTREE_PAGE_SIZE) eqn:H1; try discriminate.
  destruct (0 <? blen node) eqn:H2; try discriminate.
  cbn [assert bind pages] in H.
  destruct (pages t !! fresh t) eqn:Hf; try discriminate.
  cbn [bind root fresh calls] in H. injection H as <- <-.
  cbn [bind]. rewrite H1. cbn [pages bind assert].
  unfold tree_get, tree_del. cbn [pages]. rewrite lookup_insert_eq.
  split; [reflexivity|]. split; [|split].
  - intros q Hq. rewrite lookup_insert_ne by congruence. reflexivity.
  - reflexivity.
  - eexists. split; [reflexivity|]. cbn [pages].
    rewrite delete_insert_id by assumption. rewrite Hf. auto.
Qed.

Lemma tree_new_del_round_trip_witness :
  tree_get (mkBTree 0 (<[1 := get_ok leaf_k]> ∅) 2 [CallNew 1]) 1 = Ok (get_ok leaf_k) /\
  (forall q, q <> 1 ->
     tree_get (mkBTree 0 (<[1 := get_ok leaf_k]> ∅) 2 [CallNew 1]) q = tree_get newC q) /\
  tree_new_at (mkBTree 0 (<[1 := get_ok leaf_k]> ∅) 2 [CallNew 1]) 1 (get_ok leaf_k) =
    Panic /\
  exists t2,
    tree_del (mkBTree 0 (<[1 := get_ok leaf_k]> ∅) 2 [CallNew 1]) 1 = Ok t2 /\
    pages t2 = pages newC /\ tree_get t2 1 = Panic /\ tree_del t2 1 = Panic.
Proof.
  apply (tree_new_del_round_trip newC
           (mkBTree 0 (<[1 := get_ok leaf_k]> ∅) 2 [CallNew 1]) (get_ok leaf_k) 1).
  vm_compute. reflexivity.
Defined.

(** ** [Insert] *)

Lemma ptr0_range : 0 <= 0 < 2 ^ 64.
Proof. split; [lia | reflexivity]. Qed.

Lemma Insert_first_packed (fuel : nat) (key val : list byte) :
  32 + len key + len val <= BTREE_PAGE_SIZE ->
  exists r,
    Insert fuel newC key val = Ok (mkBTree 1 (<[1 := r]> ∅) 2 [CallNew 1]) /\
    packed r 2 2 /\ btype r = Ok BNODE_LEAF /\
    blen r = BTREE_PAGE_SIZE /\ bcap r = BTREE_PAGE_SIZE /\
    off (bytes r) 2 2 = 8 + len key + len val /\
    entry_at (bytes r) 2 0 = (0, [], []) /\
    entry_at (bytes r) 2 1 = (0, key, val).
Proof.
  unfold BTREE_PAGE_SIZE. intros Hfit.
  pose proof (len_nonneg key) as Hk0. pose proof (len_nonneg val) as Hv0.
  unfold Insert. cbn [root newC Z.eqb].
  destruct (packed_fresh BTREE_PAGE_SIZE BNODE_LEAF 2)
    as (r0 & E0 & P0 & T0 & B0 & C0 & _); try (unfold BTREE_PAGE_SIZE; lia).
  unfold BTREE_PAGE_SIZE in *. rewrite E0. cbn [bind].
  change (wrap16 BNODE_LEAF) with BNODE_LEAF in T0.
  (* the sentinel *)
  destruct (nodeAppendKV_packed r0 2 0 0 [] [])
    as (r1 & E1 & P1 & R1 & O1 & F1 & G1);
    try assumption; try lia; try apply ptr0_range.
  { unfold kv_at. change (off (bytes r0) 2 0) with 0. change (@len byte []) with 0. lia. }
  rewrite E1. cbn [bind].
  change (off (bytes r0) 2 0) with 0 in *. change (@len byte []) with 0 in *.
  change (0 + 1) with 1 in *. change (0 + 4 + 0 + 0) with 4 in O1.
  assert (B1 : blen r1 = 4096) by (destruct R1 as [-> _]; assumption).
  (* the pair of the user *)
  destruct (nodeAppendKV_packed r1 2 1 0 key val)
    as (r2 & E2 & P2 & R2 & O2 & F2 & G2);
    try assumption; try lia; try apply ptr0_range.
  { unfold kv_at. rewrite O1. lia. }
  rewrite E2. cbn [bind]. rewrite O1 in *. change (1 + 1) with 2 in *.
  assert (B2 : blen r2 = 4096) by (destruct R2 as [-> _]; assumption).
  assert (C2 : bcap r2 = 4096).
  { rewrite (touched_bcap _ _ _ R2), (touched_bcap _ _ _ R1). assumption. }
  (* the page *)
  unfold tree_new, tree_new_at.
  rewrite (nbytes_layout _ _ (packed_layout _ _ P2)). cbn [bind].
  rewrite O2. cbn [pages newC fresh]. rewrite lookup_empty.
  unfold BTREE_PAGE_SIZE. checks.
  exists r2. split; [reflexivity|]. split; [assumption|].
  split; [|split; [assumption|split; [assumption|split; [lia|split]]]].
  - rewrite (touched_btype_eq _ _ _ R2), (touched_btype_eq _ _ _ R1); [assumption| |];
      unfold range_region, ival; intros p Hp; lia.
  - rewrite F2 by lia. assumption.
  - assumption.
Qed.

(** X15: [Insert] into the empty tree of a key and a value that fit in a
    page with the sentinel (32 bytes and the two lengths) makes one page,
    the root: a well-formed leaf with two entries, the empty key with the
    empty value and then the key with the value; [nodeLookUpLE] of the key
    in this leaf returns slot 1. *)
Theorem Insert_first_entries (fuel : nat) (key val : list byte) :
  32 + len key + len val <= BTREE_PAGE_SIZE ->
  exists r,
    Insert fuel newC key val = Ok (mkBTree 1 (<[1 := r]> ∅) 2 [CallNew 1]) /\
    btype r = Ok BNODE_LEAF /\ blen r = BTREE_PAGE_SIZE /\
    entries r = Ok [(0, [], []); (0, key, val)] /\
    nbytes r = Ok (32 + len key + len val) /\
    nodeLookUpLE r key = Ok 1 /\
    well_formed r = true.
Proof.
  intros Hfit.
  destruct (Insert_first_packed fuel key val Hfit)
    as (r & E & P & T & B & C & O & E0 & E1).
  exists r. split; [assumption|]. split; [assumption|]. split; [assumption|].
  split; [|split; [|split]].
  - rewrite (packed_entries _ _ P). change (slots 2) with [0; 1]. cbn [map].
    rewrite E0, E1. reflexivity.
  - rewrite (nbytes_layout _ _ (packed_layout _ _ P)), O. f_equal. lia.
  - unfold nodeLookUpLE. rewrite (pk_nkeys _ _ _ P). cbn [bind].
    change (Z.to_nat (2 - 1)) with 1%nat. cbn [lookup_loop].
    rewrite (packed_getKey r 2 2 1 P) by lia. rewrite E1. cbn [fst snd bind].
    rewrite bytes_compare_refl. reflexivity.
  - apply (packed_well_formed _ _ P). lia.
Qed.

Lemma Insert_first_entries_witness :
  exists r,
    Insert 0 newC (B "k") (B "v") = Ok (mkBTree 1 (<[1 := r]> ∅) 2 [CallNew 1]) /\
    btype r = Ok BNODE_LEAF /\ blen r = BTREE_PAGE_SIZE /\
    entries r = Ok [(0, [], []); (0, B "k", B "v")] /\
    nbytes r = Ok (32 + len (B "k") + len (B "v")) /\
    nodeLookUpLE r (B "k") = Ok 1 /\
    well_formed r = true.
Proof.
  apply (Insert_first_entries 0 (B "k") (B "v")).
  unfold BTREE_PAGE_SIZE, len, B. simpl. lia.
Defined.

(** X16: when the root is a leaf and the lookup of the key ends on a slot
    that holds the key, [Insert] frees the root page and installs as the
    new root a page of zeroes: it has type 0 and no entry, whatever the
    leaf held and whatever the value is. *)
Theorem Insert_existing_key_wipes_leaf (fuel : nat) (t : BTree) (old : BNode)
    (key val : list byte) (idx : Z) :
  root t <> 0 -> pages t !! root t = Some old -> pages t !! fresh t = None ->
  btype old = Ok BNODE_LEAF ->
  nodeLookUpLE old key = Ok idx -> getKey old idx = Ok key ->
  exists page,
    Insert (S fuel) t key val =
      Ok (mkBTree (fresh t) (<[fresh t := page]> (delete (root t) (pages t)))
                  (fresh t + 1)
                  (calls t ++ [CallDel (root t); CallNew (fresh t)])) /\
    blen page = BTREE_PAGE_SIZE /\ btype page = Ok 0 /\ entries page = Ok [] /\
    forall p, byte_at (bytes page) p = x00.
Proof.
  intros Hr Hp Hfresh Hty Eidx Ek.
  exists (mkBNode (bytes (make (2 * BTREE_PAGE_SIZE))) BTREE_PAGE_SIZE).
  split; [|split; [reflexivity|split; [vm_compute; reflexivity|split]]].
  - unfold Insert. destruct (Z.eqb_spec (root t) 0) as [|_]; [contradiction|].
    unfold tree_get. rewrite Hp. cbn [bind treeInsert].
    rewrite Eidx, Hty. cbn [bind]. change (BNODE_LEAF =? BNODE_LEAF) with true.
    cbv iota. rewrite Ek. cbn [bind]. rewrite bytes_equal_refl. cbn [bind].
    rewrite (nodeSplit3_fits (make (2 * BTREE_PAGE_SIZE)) 4);
      [|vm_compute; reflexivity | unfold BTREE_PAGE_SIZE; lia
       |rewrite bcap_make; unfold BTREE_PAGE_SIZE; lia].
    cbn [bind]. unfold tree_del. rewrite Hp. cbn [bind].
    change (1 <? 1) with false. cbv iota. cbn [nth].
    unfold tree_new, tree_new_at.
    replace (nbytes (mkBNode (bytes (make (2 * BTREE_PAGE_SIZE))) BTREE_PAGE_SIZE))
      with (@Ok Z 4) by (vm_compute; reflexivity).
    cbn [bind blen]. unfold BTREE_PAGE_SIZE. checks. cbn [pages fresh root calls].
    assert (Hne : root t <> fresh t) by congruence.
    rewrite lookup_delete_ne by assumption. rewrite Hfresh. cbn [bind set_root].
    cbn [pages fresh root calls]. rewrite <- app_assoc. reflexivity.
  - vm_compute. reflexivity.
  - intros p. exact (byte_at_make (2 * BTREE_PAGE_SIZE) p).
Qed.

Lemma Insert_existing_key_wipes_leaf_witness :
  exists page,
    Insert 1 tree_sorted (B "a") (B "2") =
      Ok (mkBTree (fresh tree_sorted)
                  (<[fresh tree_sorted := page]> (delete (root tree_sorted) (pages tree_sorted)))
                  (fresh tree_sorted + 1)
                  (calls tree_sorted ++
                   [CallDel (root tree_sorted); CallNew (fresh tree_sorted)])) /\
    blen page = BTREE_PAGE_SIZE /\ btype page = Ok 0 /\ entries page = Ok [] /\
    forall p, byte_at (bytes page) p = x00.
Proof.
  apply (Insert_existing_key_wipes_leaf 0 tree_sorted (get_ok leaf_sorted)
           (B "a") (B "2") 1).
  - vm_compute. discriminate.
  - vm_compute. reflexivity.
  - vm_compute. reflexivity.
  - vm_compute. reflexivity.
  - vm_compute. reflexivity.
  - vm_compute. reflexivity.
Defined.

(** X17: when the node that [treeInsert] returns for the root is longer
    than one page, [Insert] panics. *)
Theorem Insert_oversized_panics (fuel : nat) (t t1 : BTree) (old node : BNode)
    (key val : list byte) (sz : Z) :
  root t <> 0 -> tree_get t (root t) = Ok old ->
  treeInsert fuel t old key val = Ok (node, t1) ->
  nbytes node = Ok sz -> BTREE_PAGE_SIZE < sz ->
  Insert fuel t key val = Panic.
Proof.
  intros Hr Hg Hi Hsz Hbig.
  unfold Insert. destruct (Z.eqb_spec (root t) 0) as [|_]; [contradiction|].
  rewrite Hg. cbn [bind]. rewrite Hi. cbn [bind].
  rewrite (nodeSplit3_oversized node sz Hsz Hbig). cbn [bind].
  destruct (tree_del_cases t1 (root t1)) as [(n0 & _ & ->)|[_ ->]]; [|reflexivity].
  cbn [bind]. change (1 <? 2) with true. cbv iota.
  destruct (setHeader_make BTREE_PAGE_SIZE BNODE_NODE 2) as (r0 & -> & _);
    [unfold BTREE_PAGE_SIZE; lia | lia |].
  cbn [bind]. unfold take_split. change (Z.to_nat 2) with 2%nat.
  cbn [firstn root_kids].
  set (zero := mkBNode (bytes (make (2 * BTREE_PAGE_SIZE))) BTREE_PAGE_SIZE).
  assert (Hk : getKey zero 0 = Panic) by (vm_compute; reflexivity).
  unfold tree_new, tree_new_at.
  replace (nbytes zero) with (@Ok Z 4) by (vm_compute; reflexivity).
  cbn [bind]. change (4 <=? BTREE_PAGE_SIZE) with true.
  change (0 <? blen zero) with true. cbn [assert bind pages].
  match goal with
  | |- context [?m !! ?p] => destruct (m !! p)
  end; [reflexivity|].
  cbn [bind]. rewrite Hk. reflexivity.
Qed.

Lemma Insert_oversized_panics_witness :
  Insert 1 tree_full (B "a") (B "1") = Panic.
Proof.
  apply (Insert_oversized_panics 1 tree_full tree_full (get_ok leaf_full)
           (fst (ok_or (nil_node, newC)
                   (treeInsert 1 tree_full (get_ok leaf_full) (B "a") (B "1"))))
           (B "a") (B "1") 4100).
  - vm_compute. discriminate.
  - vm_compute. reflexivity.
  - vm_compute. reflexivity.
  - vm_compute. reflexivity.
  - unfold BTREE_PAGE_SIZE. lia.
Defined.

(** ** [Delete] *)

Lemma Delete_leaf_packed (fuel : nat) (t : BTree) (old : BNode) (n idx : Z)
    (key : list byte) :
  root t <> 0 -> pages t !! root t = Some old -> pages t !! fresh t = None ->
  packed old n n -> 2 <= n -> btype old = Ok BNODE_LEAF ->
  kv_at (bytes old) n n <= BTREE_PAGE_SIZE ->
  nodeLookUpLE old key = Ok idx -> getKey old idx = Ok key -> 0 <= idx < n ->
  exists new,
    Delete (S fuel) t key =
      Ok (true, mkBTree (fresh t) (<[fresh t := new]> (delete (root t) (pages t)))
                        (fresh t + 1)
                        (calls t ++ [CallDel (root t); CallNew (fresh t)])) /\
    packed new (n - 1) (n - 1) /\ btype new = Ok BNODE_LEAF /\
    blen new = 2 * BTREE_PAGE_SIZE /\
    (forall i, 0 <= i < idx ->
       entry_at (bytes new) (n - 1) i = entry_at (bytes old) n i) /\
    (forall i, idx <= i < n - 1 ->
       entry_at (bytes new) (n - 1) i = entry_at (bytes old) n (i + 1)).
Proof.
  unfold BTREE_PAGE_SIZE. intros Hr Hp Hfresh P Hn Hty Hsz Eidx Ek Hidx.
  destruct (leafDelete_packed old n idx (2 * 4096) P Hidx)
    as (new & E & P' & T & B & C & O & F & G); try lia.
  exists new. split; [|auto].
  pose proof (size_at_min (bytes old) n idx) as Smin.
  pose proof (off_nonneg (bytes new) (n - 1) (n - 1)) as O0.
  unfold kv_at in Hsz.
  unfold Delete. destruct (Z.eqb_spec (root t) 0) as [|_]; [contradiction|].
  unfold tree_get. rewrite Hp. cbn [bind]. rewrite treeDelete_S.
  rewrite Eidx, Hty. cbn [bind]. change (BNODE_LEAF =? BNODE_LEAF) with true.
  cbv iota. rewrite Ek. cbn [bind]. rewrite bytes_equal_refl. cbn [negb].
  unfold BTREE_PAGE_SIZE. rewrite E. cbn [bind]. rewrite B.
  change (2 * 4096 =? 0) with false. cbv iota.
  unfold tree_del. rewrite Hp. cbn [bind]. rewrite T. cbn [bind].
  change (BNODE_LEAF =? BNODE_NODE) with false.
  change (BNODE_LEAF =? BNODE_LEAF) with true. cbv iota.
  rewrite (pk_nkeys _ _ _ P'). cbn [bind].
  destruct (Z.eqb_spec (n - 1) 0); [lia|].
  unfold install_root, tree_new, tree_new_at.
  rewrite (nbytes_layout _ _ (packed_layout _ _ P')). cbn [bind].
  unfold BTREE_PAGE_SIZE.
  destruct (Z.leb_spec (4 + 10 * (n - 1) + off (bytes new) (n - 1) (n - 1)) 4096);
    [|lia].
  cbn [bind]. checks. cbn [pages fresh root calls].
  assert (Hne : root t <> fresh t) by congruence.
  rewrite lookup_delete_ne by assumption. rewrite Hfresh. cbn [bind set_root].
  cbn [pages fresh root calls]. rewrite <- app_assoc. reflexivity.
Qed.

(** C6, amended: when the root is a well-formed leaf of at most one page that
    holds two entries, the sentinel in slot 0 and one more, [Delete] of the
    key of slot 1 returns true, frees the root page and registers a new root
    page: a leaf that holds the entry of slot 0 alone.  [root] is the new
    page, not 0: the tree is not empty afterwards. *)
Theorem Delete_last_user_key (fuel : nat) (t : BTree) (old : BNode)
    (key val k0 v0 : list byte) (p0 p1 sz : Z) :
  root t <> 0 -> fresh t <> 0 ->
  pages t !! root t = Some old -> pages t !! fresh t = None ->
  well_formed old = true -> btype old = Ok BNODE_LEAF ->
  nbytes old = Ok sz -> sz <= BTREE_PAGE_SIZE ->
  entries old = Ok [(p0, k0, v0); (p1, key, val)] ->
  exists new t',
    Delete (S fuel) t key = Ok (true, t') /\
    t' = mkBTree (fresh t) (<[fresh t := new]> (delete (root t) (pages t)))
                 (fresh t + 1)
                 (calls t ++ [CallDel (root t); CallNew (fresh t)]) /\
    root t' <> 0 /\ pages t' !! root t' = Some new /\
    btype new = Ok BNODE_LEAF /\ entries new = Ok [(p0, k0, v0)] /\
    well_formed new = true.
Proof.
  intros Hr Hf0 Hp Hfresh Hwf Hty Hsz Hfit Hes.
  destruct (well_formed_packed _ Hwf) as (n & Hn1 & P).
  rewrite (nbytes_layout _ _ (packed_layout _ _ P)) in Hsz. injection Hsz as <-.
  rewrite (packed_entries _ _ P) in Hes. injection Hes as Hes.
  assert (n = 2) as ->.
  { apply (f_equal (@length _)) in Hes.
    rewrite length_map, len_slots in Hes by lia. simpl in Hes. lia. }
  change (slots 2) with [0; 1] in Hes. cbn [map] in Hes.
  assert (E0 : entry_at (bytes old) 2 0 = (p0, k0, v0)) by congruence.
  assert (E1 : entry_at (bytes old) 2 1 = (p1, key, val)) by congruence.
  clear Hes.
  assert (Ek : getKey old 1 = Ok key).
  { rewrite (packed_getKey old 2 2 1 P) by lia. rewrite E1. reflexivity. }
  assert (Eidx : nodeLookUpLE old key = Ok 1).
  { unfold nodeLookUpLE. rewrite (pk_nkeys _ _ _ P). cbn [bind].
    change (Z.to_nat (2 - 1)) with 1%nat. cbn [lookup_loop].
    rewrite Ek. cbn [bind]. rewrite bytes_compare_refl. reflexivity. }
  destruct (Delete_leaf_packed fuel t old 2 1 key)
    as (new & E & P' & T & B & F & G); try assumption; try lia.
  change (2 - 1) with 1 in *.
  exists new. eexists. split; [exact E|]. split; [reflexivity|].
  cbn [root pages]. split; [exact Hf0|]. split; [apply lookup_insert_eq|].
  split; [exact T|]. split.
  - rewrite (packed_entries _ _ P'). change (slots 1) with [0]. cbn [map].
    rewrite F by lia. rewrite E0. reflexivity.
  - apply (packed_well_formed _ _ P'). lia.
Qed.

Lemma Delete_last_user_key_witness :
  exists new t',
    Delete 1 (ok_or newC tree_k) (B "k") = Ok (true, t') /\
    t' = mkBTree (fresh (ok_or newC tree_k))
                 (<[fresh (ok_or newC tree_k) := new]>
                    (delete (root (ok_or newC tree_k)) (pages (ok_or newC tree_k))))
                 (fresh (ok_or newC tree_k) + 1)
                 (calls (ok_or newC tree_k) ++
                  [CallDel (root (ok_or newC tree_k)); CallNew (fresh (ok_or newC tree_k))]) /\
    root t' <> 0 /\ pages t' !! root t' = Some new /\
    btype new = Ok BNODE_LEAF /\ entries new = Ok [(0, [], [])] /\
    well_formed new = true.
Proof.
  apply (Delete_last_user_key 0 (ok_or newC tree_k) (get_ok leaf_k)
           (B "k") (B "v") [] [] 0 0 34).
  - vm_compute. discriminate.
  - vm_compute. discriminate.
  - vm_compute. reflexivity.
  - vm_compute. reflexivity.
  - vm_compute. reflexivity.
  - vm_compute. reflexivity.
  - vm_compute. reflexivity.
  - unfold BTREE_PAGE_SIZE. lia.
  - vm_compute. reflexivity.
Defined.

(** X18: when the root is a well-formed leaf of at most one page with at
    least two entries, and the lookup of the key ends on a slot that holds
    the key, [Delete] returns true; it frees the root page and registers one
    new page, the new root: a well-formed leaf, in a buffer of two pages,
    whose entries are those of the old root without that slot. *)
Theorem Delete_leaf_root (fuel : nat) (t : BTree) (old : BNode)
    (key : list byte) (idx sz : Z) (es : list (Z * list byte * list byte)) :
  root t <> 0 -> pages t !! root t = Some old -> pages t !! fresh t = None ->
  well_formed old = true -> btype old = Ok BNODE_LEAF ->
  nbytes old = Ok sz -> sz <= BTREE_PAGE_SIZE ->
  entries old = Ok es -> 2 <= len es ->
  nodeLookUpLE old key = Ok idx -> getKey old idx = Ok key ->
  exists new,
    Delete (S fuel) t key =
      Ok (true, mkBTree (fresh t) (<[fresh t := new]> (delete (root t) (pages t)))
                        (fresh t + 1)
                        (calls t ++ [CallDel (root t); CallNew (fresh t)])) /\
    btype new = Ok BNODE_LEAF /\ blen new = 2 * BTREE_PAGE_SIZE /\
    entries new =
      Ok (firstn (Z.to_nat idx) es ++ skipn (Z.to_nat (idx + 1)) es) /\
    well_formed new = true.
Proof.
  intros Hr Hp Hfresh Hwf Hty Hsz Hfit Hes Hlen Eidx Ek.
  destruct (well_formed_packed _ Hwf) as (n & Hn1 & P).
  destruct (well_formed_layout _ Hwf) as (n' & _ & L & Hkeys).
  assert (n' = n) as ->.
  { pose proof (lay_nkeys _ _ L) as A. rewrite (pk_nkeys _ _ _ P) in A. congruence. }
  rewrite (nbytes_layout _ _ L) in Hsz. injection Hsz as <-.
  rewrite (packed_entries _ _ P) in Hes. injection Hes as <-.
  unfold len in Hlen. rewrite length_map, len_slots in Hlen by lia.
  rewrite Z2Nat.id in Hlen by lia.
  destruct (nodeLookUpLE_range old key n (pk_nkeys _ _ _ P) Hn1 Hkeys)
    as (idx' & Eidx' & Hidx).
  assert (idx' = idx) as -> by congruence.
  destruct (Delete_leaf_packed fuel t old n idx key)
    as (new & E & P' & T & B & F & G); try assumption.
  exists new. split; [assumption|]. split; [assumption|]. split; [assumption|].
  split.
  - rewrite (packed_entries _ _ P'). f_equal.
    apply entries_without_slot; assumption.
  - apply (packed_well_formed _ _ P'). lia.
Qed.

Lemma Delete_leaf_root_witness :
  exists new,
    Delete 1 tree_sorted (B "a") =
      Ok (true,
          mkBTree (fresh tree_sorted)
                  (<[fresh tree_sorted := new]> (delete (root tree_sorted) (pages tree_sorted)))
                  (fresh tree_sorted + 1)
                  (calls tree_sorted ++
                   [CallDel (root tree_sorted); CallNew (fresh tree_sorted)])) /\
    btype new = Ok BNODE_LEAF /\ blen new = 2 * BTREE_PAGE_SIZE /\
    entries new =
      Ok (firstn (Z.to_nat 1) [(0, [], []); (0, B "a", B "1"); (0, B "c", B "3")] ++
          skipn (Z.to_nat (1 + 1)) [(0, [], []); (0, B "a", B "1"); (0, B "c", B "3")]) /\
    well_formed new = true.
Proof.
  apply (Delete_leaf_root 0 tree_sorted (get_ok leaf_sorted) (B "a") 1 50
           [(0, [], []); (0, B "a", B "1"); (0, B "c", B "3")]).
  - vm_compute. discriminate.
  - vm_compute. reflexivity.
  - vm_compute. reflexivity.
  - vm_compute. reflexivity.
  - vm_compute. reflexivity.
  - vm_compute. reflexivity.
  - unfold BTREE_PAGE_SIZE. lia.
  - vm_compute. reflexivity.
  - unfold len. simpl. lia.
  - vm_compute. reflexivity.
  - vm_compute. reflexivity.
Defined.

(** X19: [Insert] of a key and a value into the empty tree followed by
    [Delete] of the key returns true and leaves a tree that is not empty:
    its only page, the root, is a leaf that holds the sentinel alone. *)
Theorem Insert_then_Delete (fuel : nat) (key val : list byte) :
  32 + len key + len val <= BTREE_PAGE_SIZE ->
  exists t leaf,
    Insert fuel newC key val = Ok t /\
    Delete (S fuel) t key =
      Ok (true, mkBTree 2 (<[2 := leaf]> ∅) 3 [CallNew 1; CallDel 1; CallNew 2]) /\
    btype leaf = Ok BNODE_LEAF /\ entries leaf = Ok [(0, [], [])].
Proof.
  intros Hfit.
  destruct (Insert_first_packed fuel key val Hfit)
    as (r & E & P & T & B & C & O & E0 & E1).
  pose proof (len_nonneg key) as Hk0. pose proof (len_nonneg val) as Hv0.
  assert (K1 : getKey r 1 = Ok key).
  { rewrite (packed_getKey r 2 2 1 P) by lia. rewrite E1. reflexivity. }
  assert (L1 : nodeLookUpLE r key = Ok 1).
  { unfold nodeLookUpLE. rewrite (pk_nkeys _ _ _ P). cbn [bind].
    change (Z.to_nat (2 - 1)) with 1%nat. cbn [lookup_loop].
    rewrite K1. cbn [bind]. rewrite bytes_compare_refl. reflexivity. }
  destruct (Delete_leaf_packed fuel (mkBTree 1 (<[1 := r]> ∅) 2 [CallNew 1]) r 2 1 key)
    as (new & D & P' & T' & B' & F & G); try assumption; try lia.
  { cbn [root]. lia. }
  { cbn [root pages]. apply lookup_insert_eq. }
  { cbn [fresh pages]. rewrite lookup_insert_ne by lia. apply lookup_empty. }
  { unfold kv_at. rewrite O. lia. }
  cbn [root pages fresh calls] in D.
  rewrite delete_insert_id in D by apply lookup_empty.
  eexists. exists new. split; [exact E|]. split; [exact D|]. split; [assumption|].
  rewrite (packed_entries _ _ P'). change (slots (2 - 1)) with [0]. cbn [map].
  rewrite F by lia. rewrite E0. reflexivity.
Qed.

Lemma Insert_then_Delete_witness :
  exists t leaf,
    Insert 0 newC (B "k") (B "v") = Ok t /\
    Delete 1 t (B "k") =
      Ok (true, mkBTree 2 (<[2 := leaf]> ∅) 3 [CallNew 1; CallDel 1; CallNew 2]) /\
    btype leaf = Ok BNODE_LEAF /\ entries leaf = Ok [(0, [], [])].
Proof.
  apply (Insert_then_Delete 0 (B "k") (B "v")).
  unfold BTREE_PAGE_SIZE, len, B. simpl. lia.
Defined.

(** X20: when the node that [treeDelete] returns for the root is an
    internal node with a single key, [Delete] panics: at the latest when
    the buffer of the only kid, whose page is still registered, is registered
    as the new root. *)
Theorem Delete_shrink_panics (fuel : nat) (t t1 : BTree) (old updated : BNode)
    (key : list byte) :
  root t <> 0 -> tree_get t (root t) = Ok old ->
  treeDelete fuel t old key = Ok (updated, t1) ->
  blen updated <> 0 ->
  btype updated = Ok BNODE_NODE -> nkeys updated = Ok 1 ->
  Delete fuel t key = Panic.
Proof.
  intros Hr Hg Hd Hb Hty Hn.
  unfold Delete. destruct (Z.eqb_spec (root t) 0) as [|_]; [contradiction|].
  rewrite Hg. cbn [bind]. rewrite Hd. cbn [bind].
  destruct (Z.eqb_spec (blen updated) 0) as [|_]; [contradiction|].
  destruct (tree_del_cases t1 (root t1)) as [(n0 & _ & ->)|[_ ->]]; [|reflexivity].
  cbn [bind]. rewrite Hty. cbn [bind].
  change (BNODE_NODE =? BNODE_NODE) with true. cbv iota.
  rewrite Hn. cbn [bind]. change (1 =? 1) with true. cbv iota.
  set (t2 := mkBTree _ _ _ _).
  unfold getPtr. rewrite Hn. cbn [bind]. change (0 <? 1) with true.
  cbn [assert bind]. unfold slice.
  destruct (assert_cases ((wrap16 (HEADER + 8 * 0) <=? wrap16 (wrap16 (HEADER + 8 * 0) + 8))
                          && (wrap16 (wrap16 (HEADER + 8 * 0) + 8) <=? bcap updated)))
    as [-> | ->]; [|reflexivity].
  cbn [bind].
  destruct (tree_get_cases t2 (le_decode (sub (bytes updated) (wrap16 (HEADER + 8 * 0))
                                            (wrap16 (wrap16 (HEADER + 8 * 0) + 8)))))
    as [(newRoot & Hp & ->)|[_ ->]]; [|reflexivity].
  cbn [bind]. unfold tree_new_at.
  destruct (nbytes newRoot) as [sz| |] eqn:Hsz; cbn [bind]; try reflexivity.
  - destruct (assert_cases (sz <=? BTREE_PAGE_SIZE)) as [-> | ->]; [|reflexivity].
    cbn [bind].
    destruct (assert_cases (0 <? blen newRoot)) as [-> | ->]; [|reflexivity].
    cbn [bind]. rewrite Hp. reflexivity.
  - exfalso. revert Hsz. unfold nbytes, kvPos, getOffset, offsetPos, get16, nkeys, slice.
    repeat match goal with
    | |- context [assert ?c] => destruct c; cbn [assert bind]
    | |- context [if ?c then _ else _] => destruct c; cbn [assert bind]
    end; discriminate.
Qed.

Lemma Delete_shrink_panics_witness :
  Delete 2 tree_two (B "x") = Panic.
Proof.
  apply (Delete_shrink_panics 2 tree_two
           (snd (ok_or (nil_node, newC)
                   (treeDelete 2 tree_two (get_ok node_top) (B "x"))))
           (get_ok node_top)
           (fst (ok_or (nil_node, newC)
                   (treeDelete 2 tree_two (get_ok node_top) (B "x"))))
           (B "x")).
  - vm_compute. discriminate.
  - vm_compute. reflexivity.
  - vm_compute. reflexivity.
  - vm_compute. discriminate.
  - vm_compute. reflexivity.
  - vm_compute. reflexivity.
Defined.

Lemma bytes_equal_false a b : a <> b -> bytes_equal a b = false.
Proof.
  intros H. unfold bytes_equal. destruct (bytes_compare a b) eqn:E; try reflexivity.
  apply bytes_compare_eq in E. contradiction.
Qed.

(** Keys that ascend from slot 1 differ from slot to slot. *)
Lemma ascending_distinct node n ks i j :
  nkeys node = Ok n -> keys node = Ok ks -> ascending (tl ks) = true ->
  1 <= i < j -> j < n ->
  nth (Z.to_nat i) ks [] <> nth (Z.to_nat j) ks [].
Proof.
  intros Hn Hks Hasc Hij Hj E.
  destruct (keys_spec node n ks Hn Hks) as [Hlen _].
  pose proof (ascending_nth (tl ks) Hasc (Z.to_nat i - 1) (Z.to_nat j - 1)) as A.
  assert (Hl : length (tl ks) = (length ks - 1)%nat) by (destruct ks; simpl; lia).
  specialize (A ltac:(lia)).
  assert (N : forall a, (1 <= a)%nat -> nth (a - 1) (tl ks) [] = nth a ks []).
  { intros a Ha. destruct ks as [|k ks']; destruct a; simpl; try lia;
      rewrite ?Nat.sub_0_r; try reflexivity. destruct a; reflexivity. }
  rewrite !N in A by lia. rewrite E, bytes_compare_refl in A. discriminate.
Qed.

(** X25: when the root is a well-formed leaf of at most one page with at
    least two entries, whose keys ascend from slot 1 on and whose slot 0 does
    not hold the key, a [Delete] of a key that the lookup finds returns true,
    and a second [Delete] of the same key returns false and leaves the tree
    as the first one left it. *)
Theorem Delete_twice (fuel : nat) (t : BTree) (old : BNode) (key : list byte)
    (idx sz : Z) (ks : list (list byte)) :
  root t <> 0 -> fresh t <> 0 ->
  pages t !! root t = Some old -> pages t !! fresh t = None ->
  well_formed old = true -> btype old = Ok BNODE_LEAF ->
  nbytes old = Ok sz -> sz <= BTREE_PAGE_SIZE ->
  keys old = Ok ks -> 2 <= len ks ->
  ascending (tl ks) = true -> hd [] ks <> key ->
  nodeLookUpLE old key = Ok idx -> getKey old idx = Ok key ->
  exists t', Delete (S fuel) t key = Ok (true, t') /\
    Delete (S fuel) t' key = Ok (false, t').
Proof.
  intros Hr Hf0 Hp Hfresh Hwf Hty Hsz Hfit Hks Hlen Hasc Hhd Eidx Ek.
  destruct (well_formed_packed _ Hwf) as (n & Hn1 & P).
  destruct (well_formed_layout _ Hwf) as (n' & _ & L & Hkeys).
  assert (n' = n) as ->.
  { pose proof (lay_nkeys _ _ L) as A. rewrite (pk_nkeys _ _ _ P) in A. congruence. }
  rewrite (nbytes_layout _ _ L) in Hsz. injection Hsz as <-.
  destruct (keys_spec old n ks (pk_nkeys _ _ _ P) Hks) as [Hkl Hk].
  unfold len in Hlen. rewrite Hkl in Hlen. rewrite Z2Nat.id in Hlen by lia.
  destruct (nodeLookUpLE_range old key n (pk_nkeys _ _ _ P) Hn1 Hkeys)
    as (idx' & Eidx' & Hidx).
  assert (idx' = idx) as -> by congruence.
  (* the key is not the one of slot 0 *)
  assert (Hidx1 : 1 <= idx).
  { destruct (Z.eq_dec idx 0) as [->|]; [|lia].
    rewrite (Hk 0) in Ek by lia. injection Ek as Ek.
    destruct ks; simpl in *; [lia | contradiction]. }
  destruct (Delete_leaf_packed fuel t old n idx key)
    as (new & E & P' & T & B & F & G); try assumption.
  eexists. split; [exact E|].
  (* the second [Delete]: no slot of the new root holds the key *)
  assert (Hnew : forall j, 0 <= j < n - 1 ->
            exists k, getKey new j = Ok k /\ k <> key).
  { intros j Hj. rewrite (packed_getKey new (n - 1) (n - 1) j P' Hj).
    eexists. split; [reflexivity|].
    assert (Kold : forall i, 0 <= i < n ->
              snd (fst (entry_at (bytes old) n i)) = nth (Z.to_nat i) ks []).
    { intros i Hi. pose proof (packed_getKey old n n i P Hi) as A.
      rewrite (Hk i Hi) in A. congruence. }
    assert (Kidx : nth (Z.to_nat idx) ks [] = key).
    { rewrite (Hk idx Hidx) in Ek. congruence. }
    destruct (Z_lt_le_dec j idx) as [Hlt|Hge].
    - rewrite F by lia. rewrite Kold by lia. rewrite <- Kidx.
      destruct (Z.eq_dec j 0) as [->|Hj0].
      + rewrite Kidx. destruct ks; simpl in *; [lia | assumption].
      + apply (ascending_distinct old n ks j idx (pk_nkeys _ _ _ P) Hks Hasc); lia.
    - rewrite G by lia. rewrite Kold by lia. rewrite <- Kidx.
      intros Heq. symmetry in Heq. revert Heq.
      apply (ascending_distinct old n ks idx (j + 1) (pk_nkeys _ _ _ P) Hks Hasc); lia. }
  destruct (nodeLookUpLE_range new key (n - 1) (pk_nkeys _ _ _ P') ltac:(lia))
    as (r & Er & Hr').
  { intros j Hj. destruct (Hnew j Hj) as (k & Hk' & _). eauto. }
  destruct (Hnew r Hr') as (k & Ekr & Hne).
  unfold Delete. cbn [root pages].
  destruct (Z.eqb_spec (fresh t) 0) as [|_]; [contradiction|].
  unfold tree_get. cbn [pages]. rewrite lookup_insert_eq. cbn [bind].
  rewrite treeDelete_S. rewrite Er, T. cbn [bind].
  change (BNODE_LEAF =? BNODE_LEAF) with true. cbv iota.
  rewrite Ekr. cbn [bind].
  rewrite (bytes_equal_false key k) by congruence. cbn [negb bind nil_node blen].
  reflexivity.
Qed.

Lemma Delete_twice_witness :
  exists t', Delete 1 tree_sorted (B "a") = Ok (true, t') /\
    Delete 1 t' (B "a") = Ok (false, t').
Proof.
  apply (Delete_twice 0 tree_sorted (get_ok leaf_sorted) (B "a") 1 50
           [B ""; B "a"; B "c"]).
  - vm_compute. discriminate.
  - vm_compute. discriminate.
  - vm_compute. reflexivity.
  - vm_compute. reflexivity.
  - vm_compute. reflexivity.
  - vm_compute. reflexivity.
  - vm_compute. reflexivity.
  - unfold BTREE_PAGE_SIZE. lia.
  - vm_compute. reflexivity.
  - unfold len. simpl. lia.
  - vm_compute. reflexivity.
  - vm_compute. discriminate.
  - vm_compute. reflexivity.
  - vm_compute. reflexivity.
Defined.

(** ** [Delete] below the root *)

Lemma without_slot_head {A : Type} (f : Z -> A) n idx :
  2 <= n -> 0 <= idx < n ->
  nth_error (firstn (Z.to_nat idx) (map f (slots n)) ++
             skipn (Z.to_nat (idx + 1)) (map f (slots n))) 0 =
    Some (f (if idx =? 0 then 1 else 0)).
Proof.
  intros Hn Hidx. rewrite firstn_map_slots, skipn_map_slots by lia.
  destruct (Z.eqb_spec idx 0) as [->|Hne].
  - change (slots 0) with (@nil Z). cbn [map app].
    change 0%nat with (Z.to_nat 0).
    rewrite (nth_error_map_slots (fun j => f (0 + 1 + j)) (n - (0 + 1)) 0) by lia.
    reflexivity.
  - rewrite nth_error_app1 by (rewrite length_map, len_slots by lia; lia).
    change 0%nat with (Z.to_nat 0). rewrite nth_error_map_slots by lia.
    reflexivity.
Qed.

Lemma Delete_below_root_packed (fuel : nat) (t : BTree) (node kid : BNode)
    (n kn idx kidx : Z) (key : list byte) :
  let kptr := u64 (bytes node) (4 + 8 * idx) in
  let k' := snd (fst (entry_at (bytes kid) kn (if kidx =? 0 then 1 else 0))) in
  root t <> 0 -> pages t !! root t = Some node ->
  packed node n n -> 2 <= n -> btype node = Ok BNODE_NODE ->
  nodeLookUpLE node key = Ok idx -> 0 <= idx < n ->
  pages t !! kptr = Some kid ->
  packed kid kn kn -> 2 <= kn -> btype kid = Ok BNODE_LEAF ->
  kv_at (bytes kid) kn kn <= BTREE_PAGE_SIZE ->
  nodeLookUpLE kid key = Ok kidx -> 0 <= kidx < kn -> getKey kid kidx = Ok key ->
  BTREE_PAGE_SIZE / 4 < kv_at (bytes kid) kn kn - size_at (bytes kid) kn kidx - 10 ->
  pages t !! fresh t = None -> pages t !! (fresh t + 1) = None ->
  0 <= fresh t < 2 ^ 64 ->
  kv_at (bytes node) n n - size_at (bytes node) n idx + 4 + len k'
    <= BTREE_PAGE_SIZE ->
  exists updated new,
    Delete (S (S fuel)) t key =
      Ok (true,
          mkBTree (fresh t + 1)
            (<[fresh t + 1 := new]>
               (delete (root t) (<[fresh t := updated]> (delete kptr (pages t)))))
            (fresh t + 2)
            (calls t ++ [CallDel kptr; CallNew (fresh t);
                         CallDel (root t); CallNew (fresh t + 1)])) /\
    packed updated (kn - 1) (kn - 1) /\ btype updated = Ok BNODE_LEAF /\
    (forall i, 0 <= i < kidx ->
       entry_at (bytes updated) (kn - 1) i = entry_at (bytes kid) kn i) /\
    (forall i, kidx <= i < kn - 1 ->
       entry_at (bytes updated) (kn - 1) i = entry_at (bytes kid) kn (i + 1)) /\
    packed new n n /\ btype new = Ok BNODE_NODE /\
    (forall i, 0 <= i < idx ->
       entry_at (bytes new) n i = entry_at (bytes node) n i) /\
    entry_at (bytes new) n idx = (fresh t, k', []) /\
    (forall i, idx < i < n ->
       entry_at (bytes new) n i = entry_at (bytes node) n i).
Proof.
  intros kptr k' Hr Hp P Hn Hty Eidx Hidx Hkid KP Hkn Kty Kfit Ekidx Hkidx Ek
    Hbig Hfresh Hfresh1 Hptr Hroom.
  (* the leaf without the entry *)
  destruct (leafDelete_packed kid kn kidx (2 * BTREE_PAGE_SIZE) KP Hkidx)
    as (updated & EU & UP & UT & UB & UC & UO & UF & UG);
    try (unfold BTREE_PAGE_SIZE in *; lia).
  assert (Uk : getKey updated 0 = Ok k').
  { rewrite (packed_getKey updated (kn - 1) (kn - 1) 0 UP) by lia. unfold k'.
    destruct (Z.eqb_spec kidx 0) as [->|Hne].
    - rewrite UG by lia. reflexivity.
    - rewrite UF by lia. reflexivity. }
  assert (Usz : nbytes updated =
                Ok (kv_at (bytes kid) kn kn - size_at (bytes kid) kn kidx - 10)).
  { rewrite (nbytes_layout _ _ (packed_layout _ _ UP)). f_equal.
    unfold kv_at. lia. }
  pose proof (size_at_min (bytes kid) kn kidx) as Smin.
  assert (Hne1 : kptr <> fresh t) by congruence.
  assert (Hne2 : kptr <> root t).
  { intros E. rewrite E, Hp in Hkid. injection Hkid as <-.
    rewrite Hty in Kty. discriminate. }
  assert (Hne3 : root t <> fresh t) by congruence.
  assert (Hne4 : root t <> fresh t + 1) by congruence.
  set (t1 := mkBTree (root t) (delete kptr (pages t)) (fresh t)
                     (calls t ++ [CallDel kptr])).
  (* the root with the link to the new page *)
  destruct (nodeReplaceKidN_one_packed t1 node updated n idx BTREE_PAGE_SIZE
              (kv_at (bytes kid) kn kn - size_at (bytes kid) kn kidx - 10) k')
    as (new & EN & NP & NT & NB & NO & NF & NG & NH); try assumption; try lia.
  { rewrite UB. unfold BTREE_PAGE_SIZE. lia. }
  { unfold t1. cbn [pages fresh]. rewrite lookup_delete_ne by assumption.
    assumption. }
  { unfold BTREE_PAGE_SIZE. lia. }
  exists updated, new. split; [|auto 10].
  assert (Gp : getPtr node idx = Ok kptr).
  { destruct P as [Hnk Hk Hc He Hs _]. unfold kv_at in *.
    pose proof (off_nonneg (bytes node) n n).
    apply (getPtr_eq node n idx); try assumption; lia. }
  unfold Delete. destruct (Z.eqb_spec (root t) 0) as [|_]; [contradiction|].
  unfold tree_get at 1. rewrite Hp. cbn [bind]. rewrite treeDelete_S.
  rewrite Eidx, Hty. cbn [bind]. change (BNODE_NODE =? BNODE_LEAF) with false.
  change (BNODE_NODE =? BNODE_NODE) with true. cbv iota.
  unfold nodeDelete. rewrite Gp. cbn [bind]. unfold tree_get at 1.
  rewrite Hkid. cbn [bind]. rewrite treeDelete_S.
  rewrite Ekidx, Kty. cbn [bind]. change (BNODE_LEAF =? BNODE_LEAF) with true.
  cbv iota. rewrite Ek. cbn [bind]. rewrite bytes_equal_refl. cbn [negb].
  rewrite EU. cbn [bind]. rewrite UB.
  change (2 * BTREE_PAGE_SIZE =? 0) with false. cbv iota.
  unfold tree_del at 1. rewrite Hkid. cbn [bind]. fold t1.
  unfold shouldMerge. rewrite Usz. cbn [bind].
  destruct (Z.ltb_spec (BTREE_PAGE_SIZE / 4)
              (kv_at (bytes kid) kn kn - size_at (bytes kid) kn kidx - 10)); [|lia].
  cbn [bind]. change (0 <? 0) with false. cbv iota.
  rewrite (pk_nkeys _ _ _ UP). cbn [bind].
  destruct (Z.eqb_spec (kn - 1) 0); [lia|].
  rewrite EN. cbn [bind]. rewrite NB.
  change (BTREE_PAGE_SIZE =? 0) with false. cbv iota.
  unfold tree_del. cbn [pages root fresh calls].
  unfold t1. cbn [pages root fresh calls].
  rewrite lookup_insert_ne by congruence.
  rewrite lookup_delete_ne by assumption. rewrite Hp. cbn [bind].
  rewrite NT. cbn [bind]. change (BNODE_NODE =? BNODE_NODE) with true. cbv iota.
  rewrite (pk_nkeys _ _ _ NP). cbn [bind].
  destruct (Z.eqb_spec n 1); [lia|].
  unfold install_root, tree_new, tree_new_at.
  rewrite (nbytes_layout _ _ (packed_layout _ _ NP)). cbn [bind].
  assert (Nfit : 4 + 10 * n + off (bytes new) n n <= BTREE_PAGE_SIZE).
  { rewrite NO. unfold kv_at in Hroom. lia. }
  destruct (Z.leb_spec (4 + 10 * n + off (bytes new) n n) BTREE_PAGE_SIZE); [|lia].
  cbn [bind]. rewrite NB. change (0 <? BTREE_PAGE_SIZE) with true.
  cbn [assert bind pages fresh root calls].
  rewrite lookup_delete_ne by assumption.
  rewrite lookup_insert_ne by lia.
  rewrite lookup_delete_ne by congruence. rewrite Hfresh1.
  cbn [bind set_root pages fresh root calls].
  rewrite <- !app_assoc. cbn [app].
  replace (fresh t + 1 + 1) with (fresh t + 2) by lia. reflexivity.
Qed.

(** X26: a [Delete] that reaches a leaf below the root.  The root is a
    well-formed internal node with at least two entries, and the lookup of the
    key in it ends on a link to a well-formed leaf of at most one page with at
    least two entries, in which the lookup ends on a slot that holds the key.
    When the leaf without that entry is larger than a quarter of a page, and
    the root with the first key of that leaf in place of the key of the link
    fits a page, [Delete] returns true.  It frees the page of the leaf,
    registers the leaf without the entry, frees the root page and registers
    the new root, in this order; the new root has the entries of the old one
    except that the link points to the new leaf, under the first key of that
    leaf.  No sibling is read and nothing is merged. *)
Theorem Delete_below_root (fuel : nat) (t : BTree) (node kid : BNode)
    (key : list byte) (idx kidx sz ksz kptr p1 p' : Z)
    (k0 v0 v1 k' v' : list byte) (es kes : list (Z * list byte * list byte)) :
  root t <> 0 -> pages t !! root t = Some node ->
  well_formed node = true -> btype node = Ok BNODE_NODE ->
  nbytes node = Ok sz -> entries node = Ok es -> 2 <= len es ->
  nodeLookUpLE node key = Ok idx ->
  nth_error es (Z.to_nat idx) = Some (kptr, k0, v0) ->
  pages t !! kptr = Some kid ->
  well_formed kid = true -> btype kid = Ok BNODE_LEAF ->
  nbytes kid = Ok ksz -> ksz <= BTREE_PAGE_SIZE ->
  entries kid = Ok kes -> 2 <= len kes ->
  nodeLookUpLE kid key = Ok kidx ->
  nth_error kes (Z.to_nat kidx) = Some (p1, key, v1) ->
  BTREE_PAGE_SIZE / 4 < ksz - 14 - len key - len v1 ->
  nth_error (firstn (Z.to_nat kidx) kes ++ skipn (Z.to_nat (kidx + 1)) kes) 0 =
    Some (p', k', v') ->
  sz - len k0 - len v0 + len k' <= BTREE_PAGE_SIZE ->
  pages t !! fresh t = None -> pages t !! (fresh t + 1) = None ->
  0 <= fresh t < 2 ^ 64 ->
  exists updated new,
    Delete (S (S fuel)) t key =
      Ok (true,
          mkBTree (fresh t + 1)
            (<[fresh t + 1 := new]>
               (delete (root t) (<[fresh t := updated]> (delete kptr (pages t)))))
            (fresh t + 2)
            (calls t ++ [CallDel kptr; CallNew (fresh t);
                         CallDel (root t); CallNew (fresh t + 1)])) /\
    btype updated = Ok BNODE_LEAF /\
    entries updated =
      Ok (firstn (Z.to_nat kidx) kes ++ skipn (Z.to_nat (kidx + 1)) kes) /\
    well_formed updated = true /\
    btype new = Ok BNODE_NODE /\
    entries new =
      Ok (firstn (Z.to_nat idx) es ++
          (fresh t, k', []) :: skipn (Z.to_nat (idx + 1)) es) /\
    well_formed new = true.
Proof.
  intros Hr Hp Hwf Hty Hsz Hes Hlen Eidx Hnth Hkid Kwf Kty Hksz Kfit Hkes Hklen
    Ekidx Hknth Hbig Hhead Hroom Hfresh Hfresh1 Hptr.
  (* the root *)
  destruct (well_formed_packed _ Hwf) as (n & Hn1 & P).
  destruct (well_formed_layout _ Hwf) as (n' & _ & L & Hkeys).
  assert (n' = n) as ->.
  { pose proof (lay_nkeys _ _ L) as A. rewrite (pk_nkeys _ _ _ P) in A. congruence. }
  rewrite (nbytes_layout _ _ L) in Hsz. injection Hsz as <-.
  rewrite (packed_entries _ _ P) in Hes. injection Hes as <-.
  unfold len in Hlen. rewrite length_map, len_slots in Hlen by lia.
  rewrite Z2Nat.id in Hlen by lia.
  destruct (nodeLookUpLE_range node key n (pk_nkeys _ _ _ P) Hn1 Hkeys)
    as (idx' & Eidx' & Hidx).
  assert (idx' = idx) as -> by congruence.
  rewrite nth_error_map_slots in Hnth by lia.
  assert (Hent : entry_at (bytes node) n idx = (kptr, k0, v0)) by congruence.
  pose proof (entry_at_sizes node n n idx kptr k0 v0 P Hidx Hent) as Hsize.
  assert (Hkptr : u64 (bytes node) (4 + 8 * idx) = kptr).
  { unfold entry_at in Hent. congruence. }
  (* the leaf *)
  destruct (well_formed_packed _ Kwf) as (kn & Hkn1 & KP).
  destruct (well_formed_layout _ Kwf) as (kn' & _ & KL & Kkeys).
  assert (kn' = kn) as ->.
  { pose proof (lay_nkeys _ _ KL) as A. rewrite (pk_nkeys _ _ _ KP) in A. congruence. }
  rewrite (nbytes_layout _ _ KL) in Hksz. injection Hksz as <-.
  rewrite (packed_entries _ _ KP) in Hkes. injection Hkes as <-.
  unfold len in Hklen. rewrite length_map, len_slots in Hklen by lia.
  rewrite Z2Nat.id in Hklen by lia.
  destruct (nodeLookUpLE_range kid key kn (pk_nkeys _ _ _ KP) Hkn1 Kkeys)
    as (kidx' & Ekidx' & Hkidx).
  assert (kidx' = kidx) as -> by congruence.
  rewrite nth_error_map_slots in Hknth by lia.
  assert (Kent : entry_at (bytes kid) kn kidx = (p1, key, v1)) by congruence.
  pose proof (entry_at_sizes kid kn kn kidx p1 key v1 KP Hkidx Kent) as Ksize.
  assert (Ek : getKey kid kidx = Ok key).
  { rewrite (packed_getKey kid kn kn kidx KP Hkidx), Kent. reflexivity. }
  rewrite without_slot_head in Hhead by lia.
  assert (Hk' : snd (fst (entry_at (bytes kid) kn (if kidx =? 0 then 1 else 0))) = k').
  { assert (Hh : entry_at (bytes kid) kn (if kidx =? 0 then 1 else 0) = (p', k', v'))
      by congruence.
    rewrite Hh. reflexivity. }
  destruct (Delete_below_root_packed fuel t node kid n kn idx kidx key)
    as (updated & new & E & UP & UT & UF & UG & NP & NT & NF & NG & NH);
    try assumption; try (rewrite ?Hkptr; assumption).
  { unfold kv_at. clear - Hbig Ksize. lia. }
  { rewrite Hk'. unfold kv_at. clear - Hroom Hsize. lia. }
  rewrite Hkptr, Hk' in *.
  exists updated, new. split; [exact E|]. split; [exact UT|].
  split; [|split; [|split; [exact NT|split]]].
  - rewrite (packed_entries _ _ UP). f_equal.
    apply entries_without_slot; assumption.
  - apply (packed_well_formed _ _ UP). lia.
  - rewrite (packed_entries _ _ NP). f_equal.
    apply entries_with_slot; assumption.
  - apply (packed_well_formed _ _ NP). lia.
Qed.

Lemma Delete_below_root_witness :
  exists updated new,
    Delete 2 tree_big (B "x") =
      Ok (true,
          mkBTree (fresh tree_big + 1)
            (<[fresh tree_big + 1 := new]>
               (delete (root tree_big)
                  (<[fresh tree_big := updated]> (delete 3 (pages tree_big)))))
            (fresh tree_big + 2)
            (calls tree_big ++ [CallDel 3; CallNew (fresh tree_big);
                                CallDel (root tree_big);
                                CallNew (fresh tree_big + 1)])) /\
    btype updated = Ok BNODE_LEAF /\
    entries updated =
      Ok (firstn (Z.to_nat 1) [(0, B "m", repeat "w"%byte 1200); (0, B "x", B "y")] ++
          skipn (Z.to_nat (1 + 1))
            [(0, B "m", repeat "w"%byte 1200); (0, B "x", B "y")]) /\
    well_formed updated = true /\
    btype new = Ok BNODE_NODE /\
    entries new =
      Ok (firstn (Z.to_nat 1) [(2, [], []); (3, B "m", [])] ++
          (fresh tree_big, B "m", []) ::
          skipn (Z.to_nat (1 + 1)) [(2, [], []); (3, B "m", [])]) /\
    well_formed new = true.
Proof.
  apply (Delete_below_root 0 tree_big (get_ok node_top) (get_ok leaf_big) (B "x")
           1 1 33 1235 3 0 0 (B "m") [] (B "y") (B "m") (repeat "w"%byte 1200)
           [(2, [], []); (3, B "m", [])]
           [(0, B "m", repeat "w"%byte 1200); (0, B "x", B "y")]).
  - vm_compute. discriminate.
  - vm_compute. reflexivity.
  - vm_compute. reflexivity.
  - vm_compute. reflexivity.
  - vm_compute. reflexivity.
  - vm_compute. reflexivity.
  - unfold len. simpl. lia.
  - vm_compute. reflexivity.
  - vm_compute. reflexivity.
  - vm_compute. reflexivity.
  - vm_compute. reflexivity.
  - vm_compute. reflexivity.
  - vm_compute. reflexivity.
  - unfold BTREE_PAGE_SIZE. lia.
  - vm_compute. reflexivity.
  - unfold len. simpl. lia.
  - vm_compute. reflexivity.
  - vm_compute. reflexivity.
  - vm_compute. reflexivity.
  - vm_compute. reflexivity.
  - vm_compute. discriminate.
  - vm_compute. reflexivity.
  - vm_compute. reflexivity.
  - vm_compute. split; [discriminate | reflexivity].
Defined.

(** ** The order of the keys *)

Lemma bytes_equal_true a b : bytes_equal a b = true -> a = b.
Proof.
  unfold bytes_equal. destruct (bytes_compare a b) eqn:E; try discriminate.
  intros _. apply bytes_compare_eq. exact E.
Qed.

Lemma cmp_le0_lt_trans a b c :
  cmp_le0 (bytes_compare a b) = true -> bytes_compare b c = Lt ->
  bytes_compare a c = Lt.
Proof.
  destruct (bytes_compare a b) eqn:E; cbn [cmp_le0]; intros H1 H2;
    try discriminate.
  - apply bytes_compare_eq in E. subst. exact H2.
  - apply bytes_compare_trans with b; assumption.
Qed.

Lemma lt_cmp_le0_trans a b c :
  bytes_compare a b = Lt -> cmp_le0 (bytes_compare b c) = true ->
  bytes_compare a c = Lt.
Proof.
  destruct (bytes_compare b c) eqn:E; cbn [cmp_le0]; intros H1 H2;
    try discriminate.
  - apply bytes_compare_eq in E. subst. exact H1.
  - apply bytes_compare_trans with b; assumption.
Qed.

Lemma bytes_compare_lt_neq a b : bytes_compare a b = Lt -> a <> b.
Proof. intros H ->. rewrite bytes_compare_refl in H. discriminate. Qed.

Lemma bytes_compare_gt_neq a b : bytes_compare a b = Gt -> a <> b.
Proof. intros H ->. rewrite bytes_compare_refl in H. discriminate. Qed.

(** ** [nodeLookUpLE] on keys that ascend from slot 1 on *)

Lemma keys_nkeys node ks : keys node = Ok ks -> nkeys node = Ok (len ks).
Proof.
  unfold keys. intros H.
  destruct (nkeys node) as [n| |] eqn:Hn; try discriminate. cbn [bind] in H.
  destruct (keys_from_spec _ _ _ _ H) as [Hl _].
  destruct (nkeys_inv _ _ Hn) as [_ Hr].
  pose proof (u16_range (bytes node) 2) as Hu.
  unfold len. rewrite Hl. f_equal. lia.
Qed.

Lemma tl_ascending_nth (ks : list (list byte)) a b :
  ascending (tl ks) = true -> 1 <= a < b -> b < len ks ->
  bytes_compare (nth (Z.to_nat a) ks []) (nth (Z.to_nat b) ks []) = Lt.
Proof.
  intros Hasc Hab Hb. unfold len in Hb.
  destruct ks as [|k0 ks']; [simpl in Hb; lia|]. cbn [tl] in Hasc.
  replace (Z.to_nat a) with (S (Z.to_nat (a - 1))) by lia.
  replace (Z.to_nat b) with (S (Z.to_nat (b - 1))) by lia.
  cbn [nth]. apply ascending_nth; [assumption|]. simpl in Hb. lia.
Qed.

Lemma nodeLookUpLE_sorted node key ks :
  keys node = Ok ks -> 1 <= len ks -> ascending (tl ks) = true ->
  exists r, nodeLookUpLE node key = Ok r /\ 0 <= r < len ks /\
    (forall j, 1 <= j < r -> bytes_compare (nth (Z.to_nat j) ks []) key = Lt) /\
    (1 <= r -> cmp_le0 (bytes_compare (nth (Z.to_nat r) ks []) key) = true) /\
    (forall j, r < j < len ks ->
       bytes_compare (nth (Z.to_nat j) ks []) key = Gt).
Proof.
  intros Hks Hn1 Hasc. pose proof (keys_nkeys _ _ Hks) as Hn.
  destruct (keys_spec _ _ _ Hn Hks) as [_ Hkey].
  destruct (nodeLookUpLE_range node key (len ks) Hn Hn1) as (r & Hr & Hrange).
  { intros j Hj. eauto. }
  exists r. split; [exact Hr|]. split; [exact Hrange|].
  unfold nodeLookUpLE in Hr. rewrite Hn in Hr. cbn [bind] in Hr.
  change (lookup_loop node key (Z.to_nat (len ks - 1)) 1 0)
    with (lookup_loop node key (Z.to_nat (len ks - 1)) 1 (1 - 1)) in Hr.
  destruct (lookup_loop_scan node key _ 1 r Hr) as (_ & A & B & C).
  split; [|split].
  - intros j Hj. destruct (A j Hj) as (k & Ek & Hc).
    rewrite Hkey in Ek by lia. congruence.
  - intros H1. destruct (B H1) as (k & Ek & Hc).
    rewrite Hkey in Ek by lia. congruence.
  - intros j Hj. destruct C as [[C1 C2] | (k & Ek & Hc)]; [lia| |].
    + rewrite Hkey in C2 by lia. injection C2 as C2. rewrite <- C2.
      apply bytes_compare_gt. apply tl_ascending_nth; [assumption | lia | lia].
    + rewrite Hkey in Ek by lia. injection Ek as <-.
      destruct (Z.eq_dec j (r + 1)) as [->|Hne]; [exact Hc|].
      apply bytes_compare_gt. apply bytes_compare_gt in Hc.
      apply bytes_compare_trans with (nth (Z.to_nat (r + 1)) ks []); [exact Hc|].
      apply tl_ascending_nth; [assumption | lia | lia].
Qed.

(** In a leaf whose keys ascend from slot 1 on and whose key 0 is not
    greater than key 1, the slot the lookup ends on holds the key exactly
    when a slot of the leaf holds it. *)
Lemma leaf_lookup_finds node key ks :
  keys node = Ok ks -> 1 <= len ks -> ascending (tl ks) = true ->
  match ks with
  | k0 :: k1 :: _ => cmp_le0 (bytes_compare k0 k1)
  | _ => true
  end = true ->
  exists r, nodeLookUpLE node key = Ok r /\
    getKey node r = Ok (nth (Z.to_nat r) ks []) /\
    (nth (Z.to_nat r) ks [] = key <-> In key ks).
Proof.
  intros Hks Hn1 Hasc H01. pose proof (keys_nkeys _ _ Hks) as Hn.
  destruct (keys_spec _ _ _ Hn Hks) as [_ Hkey].
  destruct (nodeLookUpLE_sorted node key ks Hks Hn1 Hasc)
    as (r & Hr & Hrange & A & B & C).
  exists r. split; [exact Hr|]. split; [apply Hkey; exact Hrange|].
  split.
  - intros <-. apply nth_In. unfold len in Hrange. lia.
  - intros Hin. apply (In_nth _ _ []) in Hin. destruct Hin as (m & Hm & Em).
    set (j := Z.of_nat m). assert (Hj : 0 <= j < len ks) by (unfold len, j; lia).
    replace m with (Z.to_nat j) in Em by (unfold j; lia).
    destruct (Z.lt_trichotomy j r) as [Hlt | [Heq | Hgt]].
    + destruct (Z.eq_dec j 0) as [Hj0 | Hj0].
      * (* the key is the key of slot 0 and the lookup went past it *)
        rewrite Hj0 in Em. specialize (B ltac:(lia)).
        destruct ks as [|k0 [|k1 ks']]; [unfold len in Hj; simpl in Hj; lia | |].
        { unfold len in Hrange. simpl in Hrange. lia. }
        change (nth (Z.to_nat 0) (k0 :: k1 :: ks') []) with k0 in Em. subst k0.
        destruct (Z.eq_dec r 1) as [->|Hr1].
        -- change (nth (Z.to_nat 1) (key :: k1 :: ks') []) with k1 in *.
           destruct (bytes_compare key k1) eqn:E1; cbn [cmp_le0] in H01;
             try discriminate.
           ++ apply bytes_compare_eq in E1. congruence.
           ++ apply bytes_compare_gt in E1. rewrite E1 in B. discriminate.
        -- exfalso.
           pose proof (tl_ascending_nth (key :: k1 :: ks') 1 r Hasc
                         ltac:(lia) ltac:(lia)) as L.
           change (nth (Z.to_nat 1) (key :: k1 :: ks') []) with k1 in L.
           pose proof (cmp_le0_lt_trans _ _ _ H01 L) as L'.
           apply bytes_compare_gt in L'. rewrite L' in B. discriminate.
      * exfalso. specialize (A j ltac:(lia)). rewrite Em in A.
        rewrite bytes_compare_refl in A. discriminate.
    + subst j. rewrite <- Heq. exact Em.
    + exfalso. specialize (C j ltac:(lia)). rewrite Em in C.
      rewrite bytes_compare_refl in C. discriminate.
Qed.

(** ** The keys of a search tree *)

Lemma map_result_returns {A B : Type} (f : A -> result B) (l : list A) :
  (forall a, In a l -> exists b, f a = Ok b) ->
  exists bs, map_result f l = Ok bs.
Proof.
  induction l as [|a l IH]; intros H; cbn [map_result].
  - eauto.
  - destruct (H a (or_introl eq_refl)) as [b Eb]. rewrite Eb. cbn [bind].
    destruct IH as [bs Ebs]; [intros; apply H; right; assumption|].
    rewrite Ebs. cbn [bind]. eauto.
Qed.

Lemma map_result_In {A B : Type} (f : A -> result (list B)) (l : list A) :
  forall bs x, map_result f l = Ok bs ->
  (In x (concat bs) <-> exists a b, In a l /\ f a = Ok b /\ In x b).
Proof.
  induction l as [|a l IH]; intros bs x H; cbn [map_result] in H.
  - injection H as <-. cbn. split; [tauto | intros (a & b & [] & _)].
  - destruct (f a) as [b| |] eqn:Eb; try discriminate. cbn [bind] in H.
    destruct (map_result f l) as [bs'| |] eqn:Ebs; try discriminate.
    cbn [bind] in H. injection H as <-. cbn [concat].
    rewrite in_app_iff, (IH bs' x eq_refl). split.
    + intros [Hx | (a' & b' & Ha & Eb' & Hx)].
      * exists a, b. cbn. auto.
      * exists a', b'. cbn. auto.
    + intros (a' & b' & [<- | Ha] & Eb' & Hx).
      * left. congruence.
      * right. eauto.
Qed.

Lemma between_spec ks i sub k :
  between ks i sub = true -> In k sub ->
  (1 <= i -> cmp_le0 (bytes_compare (nth (Z.to_nat i) ks []) k) = true) /\
  (i + 1 < len ks -> bytes_compare k (nth (Z.to_nat (i + 1)) ks []) = Lt).
Proof.
  unfold between. intros H Hk. rewrite forallb_forall in H.
  specialize (H k Hk). apply andb_true_iff in H. destruct H as [H1 H2].
  split.
  - intros Hi. destruct (Z.ltb_spec i 1); [lia|]. exact H1.
  - intros Hi. destruct (Z.leb_spec (len ks) (i + 1)); [lia|].
    cbn [orb] in H2. unfold key_lt in H2.
    destruct (bytes_compare k (nth (Z.to_nat (i + 1)) ks [])); congruence.
Qed.

Lemma search_tree_S h t node :
  search_tree (S h) t node = true ->
  exists ks, keys node = Ok ks /\ 1 <= len ks /\ ascending (tl ks) = true /\
    ((btype node = Ok BNODE_LEAF /\
      match ks with
      | k0 :: k1 :: _ => cmp_le0 (bytes_compare k0 k1)
      | _ => true
      end = true) \/
     (btype node = Ok BNODE_NODE /\
      forall i, 0 <= i < len ks ->
        exists p kid sub, getPtr node i = Ok p /\ pages t !! p = Some kid /\
          search_tree h t kid = true /\ tree_keys h t kid = Ok sub /\
          between ks i sub = true)).
Proof.
  cbn [search_tree]. intros H.
  destruct (keys node) as [ks| |]; try discriminate.
  destruct (btype node) as [ty| |]; try discriminate.
  rewrite !andb_true_iff in H. destruct H as [[H1 H2] H3].
  apply Z.ltb_lt in H1. exists ks. split; [reflexivity|]. split; [lia|].
  split; [exact H2|].
  destruct (Z.eqb_spec ty BNODE_LEAF) as [->|_]; [left; auto|].
  destruct (Z.eqb_spec ty BNODE_NODE) as [->|_]; [|discriminate].
  right. split; [reflexivity|]. intros i Hi.
  rewrite forallb_forall in H3. specialize (H3 i (In_slots _ _ Hi)).
  destruct (getPtr node i) as [p| |]; try discriminate. cbn [bind] in H3.
  unfold tree_get in H3.
  destruct (pages t !! p) as [kid|] eqn:Ep; try discriminate.
  apply andb_true_iff in H3. destruct H3 as [H3 H4].
  destruct (tree_keys h t kid) as [sub| |] eqn:Es; try discriminate.
  exists p, kid, sub. repeat split; assumption || reflexivity.
Qed.

(** In a search tree the descent along [nodeLookUpLE] ends on a slot with
    another key exactly when no leaf below the node holds the key. *)
Lemma search_tree_descent h : forall t node key,
  search_tree h t node = true ->
  exists ks, tree_keys h t node = Ok ks /\
    (treeGet h t node key = Ok None <-> ~ In key ks).
Proof.
  induction h as [|h IH]; intros t node key H; [discriminate|].
  destruct (search_tree_S _ _ _ H) as (ks & Hks & Hn1 & Hasc & Hcase).
  rewrite treeGet_S. cbn [tree_keys].
  destruct Hcase as [[Hty H01] | [Hty Hkids]]; rewrite Hty; cbn [bind].
  - (* a leaf *)
    change (BNODE_LEAF =? BNODE_LEAF) with true. cbv iota.
    exists ks. split; [exact Hks|].
    destruct (leaf_lookup_finds node key ks Hks Hn1 Hasc H01)
      as (r & Hr & Ek & Hin).
    rewrite Hr. cbn [bind]. rewrite Ek. cbn [bind].
    destruct (bytes_equal key (nth (Z.to_nat r) ks [])) eqn:Eq.
    + apply bytes_equal_true in Eq. split.
      * intros Hv. destruct (getVal node r); discriminate.
      * intros Hnot. exfalso. apply Hnot. apply Hin. congruence.
    + split; [|reflexivity]. intros _ Hk. apply Hin in Hk.
      rewrite Hk, bytes_equal_refl in Eq. discriminate.
  - (* an internal node *)
    change (BNODE_NODE =? BNODE_LEAF) with false.
    change (BNODE_NODE =? BNODE_NODE) with true. cbv iota.
    rewrite (keys_nkeys _ _ Hks). cbn [bind].
    set (F := fun i => do p <- getPtr node i; do kid <- tree_get t p;
                       tree_keys h t kid).
    assert (HF : forall i, 0 <= i < len ks ->
              exists p kid sub, getPtr node i = Ok p /\ pages t !! p = Some kid /\
                search_tree h t kid = true /\ F i = Ok sub /\
                between ks i sub = true).
    { intros i Hi. destruct (Hkids i Hi) as (p & kid & sub & E1 & E2 & E3 & E4 & E5).
      exists p, kid, sub. repeat split; try assumption.
      unfold F, tree_get. rewrite E1. cbn [bind]. rewrite E2. cbn [bind]. exact E4. }
    destruct (map_result_returns F (slots (len ks))) as [kss Ekss].
    { intros i Hi. apply slots_In in Hi.
      destruct (HF i Hi) as (_ & _ & sub & _ & _ & _ & E & _). eauto. }
    rewrite Ekss. cbn [bind]. exists (concat kss). split; [reflexivity|].
    destruct (nodeLookUpLE_sorted node key ks Hks Hn1 Hasc)
      as (r & Hr & Hrange & A & B & C).
    rewrite Hr. cbn [bind].
    destruct (HF r Hrange) as (p & kid & sub & E1 & E2 & E3 & E4 & E5).
    rewrite E1. cbn [bind]. unfold tree_get at 1. rewrite E2. cbn [bind].
    destruct (IH t kid key E3) as (sub' & Esub & Hiff).
    assert (sub' = sub) as ->.
    { unfold F, tree_get in E4. rewrite E1 in E4. cbn [bind] in E4.
      rewrite E2 in E4. cbn [bind] in E4. congruence. }
    rewrite Hiff. rewrite (map_result_In F _ kss key Ekss).
    split.
    + intros Hnot (i & b & Hi & Eb & Hk). apply slots_In in Hi.
      destruct (HF i Hi) as (_ & _ & sub_i & _ & _ & _ & Ei & Hbet).
      assert (b = sub_i) as -> by congruence.
      destruct (between_spec _ _ _ _ Hbet Hk) as [Lo Hi'].
      destruct (Z.lt_trichotomy i r) as [Hlt | [Heq | Hgt]].
      * specialize (Hi' ltac:(lia)).
        destruct (Z.eq_dec (i + 1) r) as [Hir | Hir].
        -- rewrite Hir in Hi'. specialize (B ltac:(lia)).
           pose proof (lt_cmp_le0_trans _ _ _ Hi' B) as L.
           rewrite bytes_compare_refl in L. discriminate.
        -- specialize (A (i + 1) ltac:(lia)).
           pose proof (bytes_compare_trans _ _ _ Hi' A) as L.
           rewrite bytes_compare_refl in L. discriminate.
      * subst i. assert (sub_i = sub) as -> by congruence. contradiction.
      * specialize (Lo ltac:(lia)). specialize (C i ltac:(lia)).
        apply bytes_compare_gt in C.
        pose proof (lt_cmp_le0_trans _ _ _ C Lo) as L.
        rewrite bytes_compare_refl in L. discriminate.
    + intros Hnot Hk. apply Hnot. exists r, sub.
      split; [apply In_slots; exact Hrange|]. auto.
Qed.

(** ** [Delete] on search trees *)

(** C5, amended: whatever the tree, a [Delete] that returns false leaves the
    tree it was given: the same root, the same pages, and no [new] or [del]
    call added to the log; and [Delete] returns false on the empty tree
    ([root = 0]).  On a search tree, [Delete] returns false exactly when no
    leaf holds the key. *)
Theorem Delete_false_iff_absent (fuel : nat) (t : BTree) (key : list byte) :
  (forall t', Delete fuel t key = Ok (false, t') -> t' = t) /\
  (root t = 0 -> Delete fuel t key = Ok (false, t)) /\
  (forall old, root t <> 0 -> pages t !! root t = Some old ->
     search_tree fuel t old = true ->
     exists ks, tree_keys fuel t old = Ok ks /\
       (Delete fuel t key = Ok (false, t) <-> ~ In key ks)).
Proof.
  split; [|split].
  - intros t' H. apply Delete_false_descent in H. apply H.
  - intros Hr. apply Delete_false_descent. auto.
  - intros old Hr Hp Hst.
    destruct (search_tree_descent fuel t old key Hst) as (ks & Eks & Hiff).
    exists ks. split; [exact Eks|].
    rewrite Delete_false_descent, <- Hiff. unfold Get, tree_get.
    destruct (Z.eqb_spec (root t) 0) as [|_]; [contradiction|].
    rewrite Hp. cbn [bind]. split.
    + intros [_ [Hr0 | Hg]]; [contradiction | exact Hg].
    + auto.
Qed.

Lemma Delete_false_iff_absent_witness :
  Delete 2 tree_two (B "b") = Ok (false, tree_two) /\
  Delete 2 tree_two (B "x") <> Ok (false, tree_two).
Proof.
  split.
  - destruct (proj2 (proj2 (Delete_false_iff_absent 2 tree_two (B "b")))
                (get_ok node_top)) as (ks & E & H).
    + vm_compute. discriminate.
    + vm_compute. reflexivity.
    + vm_compute. reflexivity.
    + apply H. vm_compute in E. injection E as <-.
      intros [A | [A | [A | [A | []]]]]; vm_compute in A; discriminate.
  - destruct (proj2 (proj2 (Delete_false_iff_absent 2 tree_two (B "x")))
                (get_ok node_top)) as (ks & E & H).
    + vm_compute. discriminate.
    + vm_compute. reflexivity.
    + vm_compute. reflexivity.
    + intros D. apply H in D. apply D. vm_compute in E. injection E as <-.
      right. right. right. left. reflexivity.
Defined.

(** ** The movies service *)

Lemma nth_error_middle {A : Type} (l1 : list A) (x : A) (l2 : list A) :
  nth_error (l1 ++ x :: l2) (length l1) = Some x.
Proof. induction l1; simpl; auto. Qed.

Lemma remove_at_middle (l1 : list Movie) (m : Movie) (l2 : list Movie) :
  remove_at (l1 ++ m :: l2) (length l1) = l1 ++ l2.
Proof.
  unfold remove_at. rewrite take_app_length.
  replace (S (length l1)) with (length (l1 ++ [m])) by (rewrite length_app; simpl; lia).
  replace (l1 ++ m :: l2) with ((l1 ++ [m]) ++ l2) by (rewrite <- app_assoc; reflexivity).
  rewrite drop_app_length. reflexivity.
Qed.

(** The passes over movies with another [ID] leave the slice alone. *)
Lemma deleteMovie_loop_skip id (pre : list Movie) : forall seen rest todo,
  Forall (fun m => ID m <> id) pre ->
  deleteMovie_loop id (seen ++ pre ++ rest) (length pre + todo) (length seen) =
  deleteMovie_loop id (seen ++ pre ++ rest) todo (length seen + length pre).
Proof.
  induction pre as [|m pre IH]; intros seen rest todo Hpre.
  - simpl. rewrite Nat.add_0_r. reflexivity.
  - inversion Hpre as [|? ? Hm Hpre']; subst.
    cbn [length Nat.add deleteMovie_loop app].
    rewrite nth_error_middle. apply String.eqb_neq in Hm. rewrite Hm.
    replace (seen ++ m :: pre ++ rest) with ((seen ++ [m]) ++ pre ++ rest)
      by (rewrite <- app_assoc; reflexivity).
    replace (S (length seen)) with (length (seen ++ [m]))
      by (rewrite length_app; simpl; lia).
    rewrite IH by assumption. f_equal. rewrite length_app. simpl. lia.
Qed.

(** X21: [deleteMovie] removes the first movie whose [ID] is the [id] of
    the route and keeps the others in their order, also those with the same
    [ID] that come later; it encodes the list that is left. *)
Theorem deleteMovie_removes_first (id : string) (l1 l2 : list Movie) (m : Movie) :
  Forall (fun x => ID x <> id) l1 -> ID m = id ->
  deleteMovie id (l1 ++ m :: l2) = ([EncMovies (l1 ++ l2)], l1 ++ l2).
Proof.
  intros H1 Hm. unfold deleteMovie.
  assert (E : deleteMovie_loop id (l1 ++ m :: l2) (length (l1 ++ m :: l2)) 0 = l1 ++ l2).
  { rewrite length_app. cbn [length].
    pose proof (deleteMovie_loop_skip id l1 [] (m :: l2) (S (length l2)) H1) as S.
    cbn [app length Nat.add] in S. rewrite S.
    cbn [deleteMovie_loop]. rewrite nth_error_middle.
    apply String.eqb_eq in Hm. rewrite Hm. apply remove_at_middle. }
  rewrite E. reflexivity.
Qed.

Lemma deleteMovie_removes_first_witness :
  deleteMovie "1" ([movie3] ++ movie1 :: [movie3]) =
    ([EncMovies ([movie3] ++ [movie3])], [movie3] ++ [movie3]).
Proof.
  apply (deleteMovie_removes_first "1" [movie3] [movie3] movie1).
  - repeat constructor. discriminate.
  - reflexivity.
Defined.

(** X22: when no movie has the [id] of the route, [deleteMovie] leaves the
    list as it is and encodes it. *)
Theorem deleteMovie_absent (id : string) (movies : list Movie) :
  Forall (fun x => ID x <> id) movies ->
  deleteMovie id movies = ([EncMovies movies], movies).
Proof.
  intros H. unfold deleteMovie.
  pose proof (deleteMovie_loop_skip id movies [] [] 0 H) as S.
  cbn [app length] in S. rewrite app_nil_r, Nat.add_0_r in S. rewrite S.
  reflexivity.
Qed.

Lemma deleteMovie_absent_witness :
  deleteMovie "7" [movie1; movie3] = ([EncMovies [movie1; movie3]], [movie1; movie3]).
Proof.
  apply (deleteMovie_absent "7" [movie1; movie3]).
  repeat constructor; discriminate.
Defined.

Lemma updateMovie_loop_skip id body (pre : list Movie) :
  forall seen rest decoders out todo,
  Forall (fun m => ID m <> id) pre ->
  updateMovie_loop id body (seen ++ pre ++ rest) decoders out
                   (length pre + todo) (length seen) =
  updateMovie_loop id body (seen ++ pre ++ rest) decoders out
                   todo (length seen + length pre).
Proof.
  induction pre as [|m pre IH]; intros seen rest decoders out todo Hpre.
  - simpl. rewrite Nat.add_0_r. reflexivity.
  - inversion Hpre as [|? ? Hm Hpre']; subst.
    cbn [length Nat.add updateMovie_loop app].
    rewrite nth_error_middle. apply String.eqb_neq in Hm. rewrite Hm.
    replace (seen ++ m :: pre ++ rest) with ((seen ++ [m]) ++ pre ++ rest)
      by (rewrite <- app_assoc; reflexivity).
    replace (S (length seen)) with (length (seen ++ [m]))
      by (rewrite length_app; simpl; lia).
    rewrite IH by assumption. f_equal. rewrite length_app. simpl. lia.
Qed.

(** One pass of the loop that meets a movie with the [ID]. *)
Lemma updateMovie_loop_match id body (l1 : list Movie) m l2 decoders out todo :
  ID m = id ->
  updateMovie_loop id body (l1 ++ m :: l2) decoders out (S todo) (length l1) =
  updateMovie_loop id body ((l1 ++ l2) ++ [set_ID (body decoders) id]) (S decoders)
                   (out ++ [EncMovie (set_ID (body decoders) id)])
                   todo (S (length l1)).
Proof.
  intros Hm. cbn [updateMovie_loop]. rewrite nth_error_middle.
  apply String.eqb_eq in Hm. rewrite Hm. rewrite remove_at_middle. reflexivity.
Qed.

(** X23: when the movie with the [id] of the route is not the last of the
    list and no other movie has that [ID], [updateMovie] decodes the body
    twice and encodes two movies: the movie made from the first decoding is
    appended, met again by the loop at the end of the list and replaced by
    the movie made from the second decoding, which is the one the list ends
    with. *)
Theorem updateMovie_not_last (id : string) (body : nat -> Movie)
    (l1 l2 : list Movie) (m x : Movie) :
  Forall (fun y => ID y <> id) l1 -> ID m = id ->
  Forall (fun y => ID y <> id) (x :: l2) ->
  updateMovie id body (l1 ++ m :: x :: l2) =
    ([EncMovie (set_ID (body 0%nat) id); EncMovie (set_ID (body 1%nat) id)],
     l1 ++ x :: l2 ++ [set_ID (body 1%nat) id]).
Proof.
  intros H1 Hm H2. unfold updateMovie.
  rewrite length_app. cbn [length].
  (* up to the match *)
  pose proof (updateMovie_loop_skip id body l1 [] (m :: x :: l2) 0 []
                (S (S (length l2))) H1) as S1.
  cbn [app length Nat.add] in S1. rewrite S1. clear S1.
  rewrite updateMovie_loop_match by assumption. cbn [app].
  set (m0 := set_ID (body 0%nat) id).
  (* the pass after the match starts one element further on *)
  pose proof (Forall_inv_tail H2) as H2'.
  replace ((l1 ++ x :: l2) ++ [m0]) with ((l1 ++ [x]) ++ l2 ++ [m0])
    by (rewrite <- !app_assoc; reflexivity).
  replace (S (length l1)) with (length (l1 ++ [x]))
    by (rewrite length_app; simpl; lia).
  replace (S (length l2)) with (length l2 + 1)%nat by lia.
  rewrite (updateMovie_loop_skip id body l2 (l1 ++ [x]) [m0] 1 [EncMovie m0] 1 H2').
  (* the last pass meets the movie that the first match appended *)
  replace ((l1 ++ [x]) ++ l2 ++ [m0]) with (((l1 ++ [x]) ++ l2) ++ m0 :: [])
    by (rewrite <- !app_assoc; reflexivity).
  rewrite <- length_app.
  rewrite updateMovie_loop_match by reflexivity.
  cbn [updateMovie_loop app]. rewrite app_nil_r.
  rewrite <- !app_assoc. reflexivity.
Qed.

Lemma updateMovie_not_last_witness :
  updateMovie "1" (body_once (mkMovie "" "999" "renamed" None))
              ([] ++ movie1 :: movie3 :: []) =
    ([EncMovie (set_ID (body_once (mkMovie "" "999" "renamed" None) 0%nat) "1");
      EncMovie (set_ID (body_once (mkMovie "" "999" "renamed" None) 1%nat) "1")],
     [] ++ movie3 :: [] ++
       [set_ID (body_once (mkMovie "" "999" "renamed" None) 1%nat) "1"]).
Proof.
  apply (updateMovie_not_last "1" (body_once (mkMovie "" "999" "renamed" None))
           [] [] movie1 movie3).
  - constructor.
  - reflexivity.
  - repeat constructor. discriminate.
Defined.

(** X24: when the movie with the [id] of the route is the last of the list
    and no other movie has that [ID], [updateMovie] replaces it by the
    movie decoded from the body, with the [ID] of the route, and encodes
    that movie once. *)
Theorem updateMovie_last (id : string) (body : nat -> Movie)
    (l1 : list Movie) (m : Movie) :
  Forall (fun y => ID y <> id) l1 -> ID m = id ->
  updateMovie id body (l1 ++ [m]) =
    ([EncMovie (set_ID (body 0%nat) id)], l1 ++ [set_ID (body 0%nat) id]).
Proof.
  intros H1 Hm. unfold updateMovie.
  rewrite length_app. cbn [length].
  pose proof (updateMovie_loop_skip id body l1 [] [m] 0 [] 1 H1) as S1.
  cbn [app length Nat.add] in S1. rewrite S1. clear S1.
  rewrite updateMovie_loop_match by assumption.
  cbn [updateMovie_loop app]. rewrite app_nil_r. reflexivity.
Qed.

Lemma updateMovie_last_witness :
  updateMovie "3" (body_once (mkMovie "" "999" "renamed" None)) ([movie1] ++ [movie3]) =
    ([EncMovie (set_ID (body_once (mkMovie "" "999" "renamed" None) 0%nat) "3")],
     [movie1] ++ [set_ID (body_once (mkMovie "" "999" "renamed" None) 0%nat) "3"]).
Proof.
  apply (updateMovie_last "3" (body_once (mkMovie "" "999" "renamed" None))
           [movie1] movie3).
  - repeat constructor. discriminate.
  - reflexivity.
Defined.
